(** * AutoShop CRM: the mileage-prediction and service-reminder engine

    A shallow embedding of [app/services/mileage.py] ([MileageService]),
    of the reminder job of [app/services/scheduler.py]
    ([check_service_reminders]) and of the part of [app/services/sms.py]
    the job drives, together with the properties the specification states
    about them.

    Modelling conventions.
    - Python [int] is [Z].  Python [float] is an IEEE-754 binary64 value,
      represented by [spec_float] with [prec = 53] and [emax = 1024]; the
      operations are those of [SpecFloat], which are executable.
    - A Python exception is a value [Raise e] of the result type; the
      service methods live in a state-and-exception monad over the stored
      tables, so that a method which only reads is a theorem, not a
      convention.
    - A table is the list of its rows in storage order; [Query.first] is
      [List.find], and [order_by] is a stable sort.  A column that can hold
      NULL and that the code reads as a number ([WorkOrder.mileage_at_intake],
      [Car.current_mileage], both of which an update request can set to
      NULL) is an [option]; an operation on [None] raises [TypeError] as in
      Python.  [Car.service_interval_km] is read by a [> 0] filter and by
      [%] only: a NULL there is rejected by the filter like 0.
    - The store is SQLite ([DATABASE_URL]): an INTEGER column holds a
      signed 64-bit value, and a commit that writes an [int] outside that
      range raises [OverflowError] and writes nothing.
    - [datetime] values are microseconds on the proleptic time line, and a
      [timedelta]'s [days] field is the floor of the difference divided by
      the length of a day.  [datetime.utcnow()] reads the clock of the
      world, which only the environment advances. *)

From Stdlib Require Import ZArith List Bool Lia String DecimalString.
From Stdlib Require Import Floats.SpecFloat.
From Stdlib Require Import Sorting.Sorted Sorting.Permutation.
Import ListNotations.

Local Open Scope Z_scope.

(** ** Python numbers *)

Module Py.

(** Exceptions the modelled code can raise. *)
Inductive exn : Type :=
| ZeroDivisionError
| IndexError
| OverflowError
| ValueError
| TypeError
| AttributeError
| IntegrityError
| ExternalError.

Inductive result (A : Type) : Type :=
| Ok (a : A)
| Raise (e : exn).
Arguments Ok {A} a.
Arguments Raise {A} e.

(** binary64 *)
Definition prec : Z := 53.
Definition emax : Z := 1024.

Definition float := spec_float.

(** [float(n)] for an [int]: correctly rounded; a value that rounds
    beyond the largest double raises [OverflowError]. *)
Definition float_of_int (n : Z) : result float :=
  match binary_normalize prec emax n 0 false with
  | S754_infinity _ => Raise OverflowError
  | S754_nan => Raise ValueError
  | f => Ok f
  end.

(** The mantissa-and-sign form of a non-zero integer, exponent 0.  It is
    not normalised; [SFdiv] normalises its result. *)
Definition raw_of_int (n : Z) : float :=
  match n with
  | Z0 => S754_zero false
  | Zpos p => S754_finite false p 0
  | Zneg p => S754_finite true p 0
  end.

(** [a / b] on two [int]s (true division): the correctly rounded
    quotient of the exact integers. *)
Definition truediv (a b : Z) : result float :=
  if b =? 0 then Raise ZeroDivisionError
  else match SFdiv prec emax (raw_of_int a) (raw_of_int b) with
       | S754_infinity _ => Raise OverflowError
       | S754_nan => Raise ValueError
       | f => Ok f
       end.

(** [a % b] on two [int]s: the result has the sign of the divisor. *)
Definition mod_ (a b : Z) : result Z :=
  if b =? 0 then Raise ZeroDivisionError else Ok (a mod b).

(** A number that is either an [int] or a [float]: the value of
    [max(0, avg_km_per_day)] is the [int] 0 or a [float]. *)
Inductive num : Type :=
| Int (z : Z)
| Float (f : float).

(** The integer part of a finite double, rounded toward zero. *)
Definition trunc (f : float) : Z :=
  match f with
  | S754_finite s m e =>
      cond_Zopp s (if 0 <=? e then Zpos m * 2 ^ e else Zpos m / 2 ^ (- e))
  | _ => 0
  end.

(** The integer part of a finite double, rounded toward minus infinity. *)
Definition floor (f : float) : Z :=
  match f with
  | S754_finite s m e =>
      if 0 <=? e then cond_Zopp s (Zpos m * 2 ^ e)
      else cond_Zopp s (Zpos m) / 2 ^ (- e)
  | _ => 0
  end.

(** [int(x)] for a [float]. *)
Definition int_of_float (f : float) : result Z :=
  match f with
  | S754_infinity _ => Raise OverflowError
  | S754_nan => Raise ValueError
  | _ => Ok (trunc f)
  end.

(** [max(0, x)] for a [float] [x]: [max] returns its first argument
    unless a later one is strictly greater. *)
Definition max0 (x : float) : num :=
  if SFltb (S754_zero false) x then Float x else Int 0.

(** [x * n] for a number [x] and an [int] [n]. *)
Definition mul_int (x : num) (n : Z) : result num :=
  match x with
  | Int z => Ok (Int (z * n))
  | Float f =>
      match float_of_int n with
      | Ok g => Ok (Float (SFmul prec emax f g))
      | Raise e => Raise e
      end
  end.

(** [int(x)] for a number. *)
Definition int (x : num) : result Z :=
  match x with
  | Int z => Ok z
  | Float f => int_of_float f
  end.

End Py.

Import Py.

(** ** Stored data ([app/models]) *)

Module Car.
Record t : Type := mk
  { id : Z;
    shop_id : Z;
    owner_id : Z;
    make : string;
    model : string;
    license_plate : string;
    current_mileage : option Z;
    service_interval_km : Z;
    updated_at : Z }.
End Car.

Module WorkOrderStatus.
Inductive t : Type := CREATED | DIAGNOSING | IN_PROGRESS | DONE.
Definition eqb (a b : t) : bool :=
  match a, b with
  | CREATED, CREATED | DIAGNOSING, DIAGNOSING
  | IN_PROGRESS, IN_PROGRESS | DONE, DONE => true
  | _, _ => false
  end.
End WorkOrderStatus.

Module WorkOrder.
Record t : Type := mk
  { id : Z;
    car_id : Z;
    status : WorkOrderStatus.t;
    mileage_at_intake : option Z;
    created_at : Z }.
End WorkOrder.

Module ServiceReminder.
Record t : Type := mk
  { id : Z;
    car_id : Z;
    customer_id : Z;
    predicted_mileage : Z;
    service_due_mileage : Z;
    reminder_sent : bool;
    reminder_sent_at : option Z;
    created_at : Z }.
End ServiceReminder.

Module Customer.
Record t : Type := mk
  { id : Z;
    phone : string;
    first_name : string;
    last_name : string }.
End Customer.

Module Shop.
Record t : Type := mk
  { id : Z;
    name : string;
    website : option string;
    sms_enabled : bool;
    is_active : bool;
    sms_usage_count : Z;
    updated_at : Z }.
End Shop.

Module SMSLog.
Record t : Type := mk
  { shop_id : Z;
    recipient_phone : string;
    message_type : string;
    message_body : string;
    twilio_sid : option string;
    status : string;
    error_message : option string }.
End SMSLog.

(** [app/config.py]: the settings the engine reads. *)
Record Settings : Type :=
  { MIN_VISITS_FOR_PREDICTION : Z;
    SERVICE_REMINDER_DAYS_AHEAD : Z;
    SMS_ENABLED : bool;
    TWILIO_ACCOUNT_SID : option string;
    TWILIO_AUTH_TOKEN : option string;
    TWILIO_PHONE_NUMBER : option string;
    SHOP_NAME : string;
    SHOP_PHONE : string;
    SHOP_WEBSITE : string }.

Definition default_settings : Settings :=
  {| MIN_VISITS_FOR_PREDICTION := 2;
     SERVICE_REMINDER_DAYS_AHEAD := 14;
     SMS_ENABLED := false;
     TWILIO_ACCOUNT_SID := None;
     TWILIO_AUTH_TOKEN := None;
     TWILIO_PHONE_NUMBER := None;
     SHOP_NAME := "Demo Auto Shop";
     SHOP_PHONE := "+359888123456";
     SHOP_WEBSITE := "https://example.com" |}.

(** The database session together with the wall clock. *)
Record World : Type := mkWorld
  { cars : list Car.t;
    work_orders : list WorkOrder.t;
    service_reminders : list ServiceReminder.t;
    customers : list Customer.t;
    shops : list Shop.t;
    sms_logs : list SMSLog.t;
    clock : Z }.

Definition set_cars (cs : list Car.t) (w : World) : World :=
  mkWorld cs (work_orders w) (service_reminders w) (customers w) (shops w)
          (sms_logs w) (clock w).

Definition set_service_reminders (rs : list ServiceReminder.t) (w : World)
  : World :=
  mkWorld (cars w) (work_orders w) rs (customers w) (shops w) (sms_logs w)
          (clock w).

Definition set_shops (ss : list Shop.t) (w : World) : World :=
  mkWorld (cars w) (work_orders w) (service_reminders w) (customers w) ss
          (sms_logs w) (clock w).

Definition set_sms_logs (ls : list SMSLog.t) (w : World) : World :=
  mkWorld (cars w) (work_orders w) (service_reminders w) (customers w)
          (shops w) ls (clock w).

Definition set_clock (t : Z) (w : World) : World :=
  mkWorld (cars w) (work_orders w) (service_reminders w) (customers w)
          (shops w) (sms_logs w) t.

(** ** The state-and-exception monad of the services *)

Definition M (A : Type) : Type := World -> result A * World.

Definition ret {A} (a : A) : M A := fun w => (Ok a, w).

Definition raise {A} (e : exn) : M A := fun w => (Raise e, w).

Definition bind {A B} (m : M A) (k : A -> M B) : M B :=
  fun w =>
    match m w with
    | (Ok a, w') => k a w'
    | (Raise e, w') => (Raise e, w')
    end.

(** A pure computation that may raise. *)
Definition lift {A} (r : result A) : M A := fun w => (r, w).

(** A query: reads the tables, changes nothing. *)
Definition query {A} (f : World -> A) : M A := fun w => (Ok (f w), w).

(** A committed write. *)
Definition update (f : World -> World) : M unit := fun w => (Ok tt, f w).

(** The values an INTEGER column of the store can hold. *)
Definition storable (z : Z) : bool := (- 2 ^ 63 <=? z) && (z <? 2 ^ 63).

(** A committed write of rows that carry the integers [zs]: when one of
    them is outside the range of the column, the driver raises
    [OverflowError] and nothing is written. *)
Definition commit (zs : list Z) (f : World -> World) : M unit :=
  if forallb storable zs then update f else raise OverflowError.

Definition utcnow : M Z := query clock.

(** [try: m except Exception: h] *)
Definition try_except {A} (m : M A) (h : exn -> M A) : M A :=
  fun w =>
    match m w with
    | (Ok a, w') => (Ok a, w')
    | (Raise e, w') => h e w'
    end.

Declare Scope py_scope.
Delimit Scope py_scope with py.
Notation "x <- m ;; k" := (bind m (fun x => k))
  (at level 100, m at next level, right associativity) : py_scope.
Notation "m ;;; k" := (bind m (fun _ => k))
  (at level 100, right associativity) : py_scope.
Local Open Scope py_scope.

(** [for x in xs: body(x)], with an accumulator; an exception leaves the
    loop. *)
Fixpoint for_each {A B} (xs : list A) (body : A -> B -> M B) (acc : B)
  : M B :=
  match xs with
  | [] => ret acc
  | x :: xs' => acc' <- body x acc ;; for_each xs' body acc'
  end.

(** [l[i]] on a list, with Python's negative indices. *)
Definition getitem {A} (l : list A) (i : Z) : result A :=
  let n := Z.of_nat (List.length l) in
  let j := if i <? 0 then i + n else i in
  if (0 <=? j) && (j <? n)
  then match nth_error l (Z.to_nat j) with
       | Some x => Ok x
       | None => Raise IndexError
       end
  else Raise IndexError.

(** ** Time *)

Definition microseconds_per_day : Z := 86400 * 1000000.

(** [timedelta(days=n)] *)
Definition timedelta_days (n : Z) : Z := n * microseconds_per_day.

(** [(t2 - t1).days] *)
Definition days_between (t1 t2 : Z) : Z := (t2 - t1) / microseconds_per_day.

(** ** [order_by(WorkOrder.created_at)]: a stable insertion sort *)

Fixpoint insert_by_created_at (o : WorkOrder.t) (l : list WorkOrder.t)
  : list WorkOrder.t :=
  match l with
  | [] => [o]
  | x :: l' =>
      if WorkOrder.created_at o <=? WorkOrder.created_at x
      then o :: l
      else x :: insert_by_created_at o l'
  end.

Definition order_by_created_at (l : list WorkOrder.t) : list WorkOrder.t :=
  fold_right (fun o acc => insert_by_created_at o acc) [] l.

(** ** Row helpers *)

(** The first row satisfying [p] is replaced by its image under [f]: what
    assigning to the attributes of the object [Query.first()] returned and
    committing does to the table. *)
Fixpoint update_first {A} (p : A -> bool) (f : A -> A) (l : list A)
  : list A :=
  match l with
  | [] => []
  | x :: l' => if p x then f x :: l' else x :: update_first p f l'
  end.

(** The primary key the store gives to a new row. *)
Definition next_id (ids : list Z) : Z := 1 + fold_right Z.max 0 ids.

Definition is_some {A} (o : option A) : bool :=
  match o with Some _ => true | None => false end.

(** One entry of the list [check_all_cars_for_reminders] returns. *)
Record ReminderItem : Type := mkItem
  { item_car : Car.t;
    item_customer : option Customer.t;
    item_predicted_mileage : option Z;
    item_service_due_mileage : option Z;
    item_reminder_id : Z }.

(** ** [MileageService] ([app/services/mileage.py]) *)

Section MileageService.

Variable settings : Settings.

(** The filter of the work-order query: this car, status done, odometer
    reading present. *)
Definition qualifying (car_id : Z) (o : WorkOrder.t) : bool :=
  (WorkOrder.car_id o =? car_id)
  && WorkOrderStatus.eqb (WorkOrder.status o) WorkOrderStatus.DONE
  && is_some (WorkOrder.mileage_at_intake o).

Definition qualifying_visits (car_id : Z) (w : World) : list WorkOrder.t :=
  order_by_created_at (filter (qualifying car_id) (work_orders w)).

(** [last_visit.mileage_at_intake - first_visit.mileage_at_intake] *)
Definition mileage_sub (last_visit first_visit : WorkOrder.t) : result Z :=
  match WorkOrder.mileage_at_intake last_visit,
        WorkOrder.mileage_at_intake first_visit with
  | Some a, Some b => Ok (a - b)
  | _, _ => Raise TypeError
  end.

Definition calculate_average_km_per_day (car_id : Z) : M (option num) :=
  work_orders <- query (qualifying_visits car_id) ;;
  if Z.of_nat (List.length work_orders) <? MIN_VISITS_FOR_PREDICTION settings
  then ret None
  else
    first_visit <- lift (getitem work_orders 0) ;;
    last_visit <- lift (getitem work_orders (-1)) ;;
    mileage_diff <- lift (mileage_sub last_visit first_visit) ;;
    let days_diff :=
      days_between (WorkOrder.created_at first_visit)
                   (WorkOrder.created_at last_visit) in
    if days_diff =? 0
    then ret None
    else
      avg_km_per_day <- lift (truediv mileage_diff days_diff) ;;
      ret (Some (max0 avg_km_per_day)).

Definition get_car (car_id : Z) : M (option Car.t) :=
  query (fun w => find (fun c => Car.id c =? car_id) (cars w)).

Definition predict_mileage (car_id : Z) (days_ahead : Z) : M (option Z) :=
  car <- get_car car_id ;;
  match car with
  | None => ret None
  | Some car =>
      avg_km_per_day <- calculate_average_km_per_day car_id ;;
      match avg_km_per_day with
      | None => ret None
      | Some avg_km_per_day =>
          product <- lift (mul_int avg_km_per_day days_ahead) ;;
          increase <- lift (int product) ;;
          match Car.current_mileage car with
          | Some current_mileage => ret (Some (current_mileage + increase))
          | None => raise TypeError
          end
      end
  end.

Definition needs_service_reminder (car_id : Z)
  : M (bool * option Z * option Z) :=
  car <- get_car car_id ;;
  match car with
  | None => ret (false, None, None)
  | Some car =>
      predicted_mileage <-
        predict_mileage car_id (SERVICE_REMINDER_DAYS_AHEAD settings) ;;
      match predicted_mileage with
      | None => ret (false, None, None)
      | Some predicted =>
          match Car.current_mileage car with
          | None => raise TypeError
          | Some current_mileage =>
              remainder <- lift (mod_ current_mileage
                                      (Car.service_interval_km car)) ;;
              let last_service_mileage := current_mileage - remainder in
              let service_due_mileage :=
                last_service_mileage + Car.service_interval_km car in
              let needs_reminder := predicted >=? service_due_mileage in
              ret (needs_reminder, Some predicted, Some service_due_mileage)
          end
      end
  end.

(** The filter of the "sent recently" query. *)
Definition recently_sent (car_id now : Z) (r : ServiceReminder.t) : bool :=
  (ServiceReminder.car_id r =? car_id)
  && ServiceReminder.reminder_sent r
  && match ServiceReminder.reminder_sent_at r with
     | Some t => now - timedelta_days 30 <=? t
     | None => false
     end.

(** The filter of the "unsent record" query. *)
Definition unsent_for (car_id : Z) (r : ServiceReminder.t) : bool :=
  (ServiceReminder.car_id r =? car_id)
  && negb (ServiceReminder.reminder_sent r).

(** [db.add(reminder); db.commit(); db.refresh(reminder)]: the row gets
    its key and its creation time from the store; a projection or a
    threshold the column cannot hold makes the commit raise. *)
Definition add_reminder (car : Car.t) (predicted_km service_due_km : Z)
  : M ServiceReminder.t :=
  now <- utcnow ;;
  rows <- query service_reminders ;;
  let reminder :=
    ServiceReminder.mk (next_id (map ServiceReminder.id rows))
                       (Car.id car) (Car.owner_id car)
                       predicted_km service_due_km false None now in
  commit [predicted_km; service_due_km]
         (set_service_reminders (rows ++ [reminder])) ;;;
  ret reminder.

(** The body of the loop over the cars of the shop; [acc] is
    [cars_needing_reminders]. *)
Definition reminder_loop_body (car : Car.t) (acc : list ReminderItem)
  : M (list ReminderItem) :=
  now <- utcnow ;;
  recent_reminder <-
    query (fun w => find (recently_sent (Car.id car) now)
                         (service_reminders w)) ;;
  match recent_reminder with
  | Some _ => ret acc
  | None =>
      r <- needs_service_reminder (Car.id car) ;;
      let '(needs_reminder, predicted_km, service_due_km) := r in
      if needs_reminder
      then
        existing <-
          query (fun w => find (unsent_for (Car.id car))
                               (service_reminders w)) ;;
        reminder <-
          match existing with
          | Some reminder => ret reminder
          | None =>
              match predicted_km, service_due_km with
              | Some p, Some d => add_reminder car p d
              | _, _ => raise IntegrityError
              end
          end ;;
        owner <-
          query (fun w => find (fun c => Customer.id c =? Car.owner_id car)
                               (customers w)) ;;
        ret (acc ++ [mkItem car owner predicted_km service_due_km
                            (ServiceReminder.id reminder)])
      else ret acc
  end.

Definition check_all_cars_for_reminders (shop_id : Z)
  : M (list ReminderItem) :=
  cars <-
    query (fun w => filter (fun c => (Car.shop_id c =? shop_id)
                                     && (0 <? Car.service_interval_km c))
                           (cars w)) ;;
  for_each cars reminder_loop_body [].

Definition set_sent (now : Z) (r : ServiceReminder.t) : ServiceReminder.t :=
  ServiceReminder.mk (ServiceReminder.id r) (ServiceReminder.car_id r)
                     (ServiceReminder.customer_id r)
                     (ServiceReminder.predicted_mileage r)
                     (ServiceReminder.service_due_mileage r)
                     true (Some now) (ServiceReminder.created_at r).

Definition mark_reminder_sent (reminder_id : Z) : M unit :=
  reminder <-
    query (fun w => find (fun r => ServiceReminder.id r =? reminder_id)
                         (service_reminders w)) ;;
  match reminder with
  | Some _ =>
      now <- utcnow ;;
      update (fun w =>
                set_service_reminders
                  (update_first (fun r => ServiceReminder.id r =? reminder_id)
                                (set_sent now) (service_reminders w)) w)
  | None => ret tt
  end.

Definition set_mileage (new_mileage now : Z) (c : Car.t) : Car.t :=
  Car.mk (Car.id c) (Car.shop_id c) (Car.owner_id c) (Car.make c)
         (Car.model c) (Car.license_plate c) (Some new_mileage)
         (Car.service_interval_km c) now.

(** [new_mileage > car.current_mileage]: an [int] does not compare with
    [None]. *)
Definition gt_optional (a : Z) (b : option Z) : result bool :=
  match b with
  | Some b => Ok (b <? a)
  | None => Raise TypeError
  end.

Definition update_car_mileage (car_id new_mileage : Z) : M unit :=
  car <- get_car car_id ;;
  match car with
  | Some car =>
      higher <- lift (gt_optional new_mileage (Car.current_mileage car)) ;;
      if higher
      then
        now <- utcnow ;;
        commit [new_mileage]
               (fun w =>
                  set_cars
                    (update_first (fun c => Car.id c =? car_id)
                                  (set_mileage new_mileage now) (cars w)) w)
      else ret tt
  | None => ret tt
  end.

End MileageService.

(** ** [SMSService] ([app/services/sms.py]) and the reminder job
       ([app/services/scheduler.py]) *)

(** What a call of the gateway's [messages.create] can do: return a message
    with its identifier, raise the gateway's REST exception, or raise
    anything else (a transport error, for instance). *)
Inductive TwilioOutcome : Type :=
| Created (sid : string)
| TwilioRestException (msg : string)
| OtherException.

(** [f"{n}"] for an [int]. *)
Definition str_of_int (n : Z) : string := NilZero.string_of_int (Z.to_int n).

Definition str_of_optional_int (n : option Z) : string :=
  match n with Some n => str_of_int n | None => "None"%string end.

Definition newline : string := String (Ascii.ascii_of_nat 10) EmptyString.

(** Truthiness of an optional string. *)
Definition truthy (o : option string) : bool :=
  match o with
  | Some s => negb (String.eqb s "")
  | None => false
  end.

Section Scheduler.

Variable settings : Settings.

(** The gateway: body, sender and recipient of the message, in the world
    in which the call is made. *)
Variable messages_create :
  World -> string -> option string -> string -> TwilioOutcome.

(** [SMSService.__init__]: is there a client? *)
Definition client_configured : bool :=
  SMS_ENABLED settings
  && truthy (TWILIO_ACCOUNT_SID settings)
  && truthy (TWILIO_AUTH_TOKEN settings).

(** [shop.sms_usage_count += 1], committed: the UPDATE of the row also
    sets [updated_at], which the model declares with
    [onupdate=datetime.utcnow]. *)
Definition bump_usage (now : Z) (s : Shop.t) : Shop.t :=
  Shop.mk (Shop.id s) (Shop.name s) (Shop.website s) (Shop.sms_enabled s)
          (Shop.is_active s) (Shop.sms_usage_count s + 1) now.

Definition _log_sms (shop_id : Z) (recipient_phone message_type
                     message_body : string) (twilio_sid : option string)
           (status : string) (error_message : option string) : M unit :=
  now <- utcnow ;;
  update (fun w =>
    set_shops (update_first (fun s => Shop.id s =? shop_id) (bump_usage now)
                            (shops w))
      (set_sms_logs
         (sms_logs w ++ [SMSLog.mk shop_id recipient_phone message_type
                                   message_body twilio_sid status
                                   error_message]) w)).

Definition send_sms (shop_id : Z) (recipient_phone message_body
                     message_type : string) : M bool :=
  if negb client_configured
  then
    _log_sms shop_id recipient_phone message_type message_body None
             "failed" (Some "SMS service not configured"%string) ;;;
    ret false
  else
    outcome <-
      query (fun w => messages_create w message_body
                                      (TWILIO_PHONE_NUMBER settings)
                                      recipient_phone) ;;
    match outcome with
    | Created sid =>
        _log_sms shop_id recipient_phone message_type message_body
                 (Some sid) "sent" None ;;;
        ret true
    | TwilioRestException msg =>
        _log_sms shop_id recipient_phone message_type message_body None
                 "failed" (Some msg) ;;;
        ret false
    | OtherException => raise ExternalError
    end.

Definition send_service_reminder_sms (shop_id : Z) (customer_phone
    customer_name car_info : string) (predicted_km : option Z)
    (shop_website : string) : M bool :=
  let message :=
    ("Здравейте " ++ customer_name ++ "," ++ newline
     ++ "Вашият " ++ car_info ++ " скоро ще достигне "
     ++ str_of_optional_int predicted_km ++ " km и "
     ++ "е време за сервизно обслужване." ++ newline
     ++ "Запазете час на: " ++ shop_website ++ newline
     ++ SHOP_NAME settings ++ " | " ++ SHOP_PHONE settings)%string in
  send_sms shop_id customer_phone message "service_reminder".

(** The body of the loop over [cars_needing_reminders]. *)
Definition send_reminder (shop : Shop.t) (item : ReminderItem) : M unit :=
  let car := item_car item in
  let predicted_km := item_predicted_mileage item in
  let reminder_id := item_reminder_id item in
  let car_info :=
    (Car.make car ++ " " ++ Car.model car ++ " ("
     ++ Car.license_plate car ++ ")")%string in
  match item_customer item with
  | None => raise AttributeError
  | Some customer =>
      let customer_name :=
        (Customer.first_name customer ++ " "
         ++ Customer.last_name customer)%string in
      success <-
        send_service_reminder_sms
          (Shop.id shop) (Customer.phone customer) customer_name car_info
          predicted_km
          (match Shop.website shop with
           | Some site => if truthy (Some site) then site
                          else SHOP_WEBSITE settings
           | None => SHOP_WEBSITE settings
           end) ;;
      if success then mark_reminder_sent reminder_id else ret tt
  end.

(** The body of the loop over the shops. *)
Definition sweep_shop (shop : Shop.t) : M unit :=
  cars_needing_reminders <-
    check_all_cars_for_reminders settings (Shop.id shop) ;;
  for_each cars_needing_reminders (fun item _ => send_reminder shop item) tt.

Definition check_service_reminders : M unit :=
  try_except
    (shops <-
       query (fun w => filter (fun s => Shop.is_active s
                                        && Shop.sms_enabled s)
                              (shops w)) ;;
     for_each shops (fun shop _ => sweep_shop shop) tt)
    (fun _ => ret tt).

End Scheduler.

(** * Notions used by the statements *)

(** A computation that leaves the stored state as it found it. *)
Definition readonly {A} (m : M A) : Prop := forall w, snd (m w) = w.

(** Among the visits [l], [v] has the least (the greatest) timestamp. *)
Definition earliest (v : WorkOrder.t) (l : list WorkOrder.t) : Prop :=
  In v l
  /\ Forall (fun o => WorkOrder.created_at v <= WorkOrder.created_at o) l.

Definition latest (v : WorkOrder.t) (l : list WorkOrder.t) : Prop :=
  In v l
  /\ Forall (fun o => WorkOrder.created_at o <= WorkOrder.created_at v) l.

Definition created_le (a b : WorkOrder.t) : Prop :=
  WorkOrder.created_at a <= WorkOrder.created_at b.

(** The range of an integer column of the store. *)
Definition int64 (z : Z) : Prop := - 2 ^ 63 <= z < 2 ^ 63.

(** An odometer column before and after: a stored reading has not gone
    down, and a NULL is still a NULL. *)
Definition odometer_le (a b : option Z) : Prop :=
  match a, b with
  | Some x, Some y => x <= y
  | None, None => True
  | _, _ => False
  end.

(** The odometer readings and the timestamps of the visits are values the
    store can hold. *)
Definition visit_in_range (o : WorkOrder.t) : Prop :=
  int64 (WorkOrder.created_at o)
  /\ match WorkOrder.mileage_at_intake o with
     | Some m => int64 m
     | None => True
     end.

Definition stored_in_range (w : World) : Prop :=
  Forall visit_in_range (work_orders w).

(** The integer part of a number, rounded toward zero and rounded down. *)
Definition num_trunc (x : num) : Z :=
  match x with Int z => z | Float f => trunc f end.

Definition num_floor (x : num) : Z :=
  match x with Int z => z | Float f => floor f end.

(** What rounding can produce from a mantissa of at most [D] bits at an
    exponent of at most [E]. *)
Definition rounded_exponent (D E : Z) : Z :=
  let E1 := Z.max E (fexp prec emax (D + E)) in
  Z.max E1 (fexp prec emax (D + 1 + E1)).

(** A zero or a finite double with the given sign, a mantissa below
    [2 ^ D] and an exponent of at most [E]. *)
Definition bounded_float (s : bool) (D E : Z) (f : float) : Prop :=
  match f with
  | S754_zero s' => s' = s
  | S754_finite s' m e => s' = s /\ Zpos m < 2 ^ D /\ e <= E
  | _ => False
  end.

(** What [calculate_average_km_per_day] can return as a rate on stored
    values: the [int] 0, or a double that is not negative and is far from
    the overflow threshold. *)
Definition rate_in_range (r : num) : Prop :=
  r = Int 0 \/ exists f, r = Float f /\ bounded_float false 181 255 f.

(** The invariant of the reminder table: no vehicle has two unsent
    records. *)
Definition at_most_one_unsent (w : World) : Prop :=
  forall car_id,
    (List.length (filter (unsent_for car_id) (service_reminders w)) <= 1)%nat.

(** One move of the system as far as the reminder table is concerned: a
    sweep of a shop (whether it ends normally or not), the marking of a
    record, a whole run of the job against any gateway, or anything the
    rest of the application does to the other tables and to the clock. *)
Inductive step (settings : Settings) : World -> World -> Prop :=
| step_sweep (shop_id : Z) (w : World) :
    step settings w (snd (check_all_cars_for_reminders settings shop_id w))
| step_mark (reminder_id : Z) (w : World) :
    step settings w (snd (mark_reminder_sent reminder_id w))
| step_job (gateway : World -> string -> option string -> string
                      -> TwilioOutcome) (w : World) :
    step settings w (snd (check_service_reminders settings gateway w))
| step_elsewhere (w w' : World) :
    service_reminders w' = service_reminders w -> step settings w w'.

Inductive reachable (settings : Settings) : World -> World -> Prop :=
| reachable_here (w : World) : reachable settings w w
| reachable_step (w w' w'' : World) :
    reachable settings w w' -> step settings w' w'' ->
    reachable settings w w''.

(** The record the loop body creates for [car] in world [w]. *)
Definition new_reminder (car : Car.t) (p d : Z) (w : World)
  : ServiceReminder.t :=
  ServiceReminder.mk (next_id (map ServiceReminder.id (service_reminders w)))
                     (Car.id car) (Car.owner_id car) p d false None (clock w).

Definition owner_of (car : Car.t) (w : World) : option Customer.t :=
  find (fun c => Customer.id c =? Car.owner_id car) (customers w).

(** The state after one attempt to send has been logged for the shop. *)
Definition logged (shop_id : Z) (row : SMSLog.t) (w : World) : World :=
  set_shops (update_first (fun s => Shop.id s =? shop_id)
                          (bump_usage (clock w)) (shops w))
            (set_sms_logs (sms_logs w ++ [row]) w).



(** * Small fleets used in the examples *)

Definition day (n : Z) : Z := n * microseconds_per_day.

Definition ex_car (cur : Z) : Car.t :=
  Car.mk 1 1 1 "VW" "Golf" "CA1234BH" (Some cur) 10000 0.

(** One shop, one vehicle with visits at day 0 (85000) and day 60 (95000);
    the clock stands at day 60. *)
Definition ex_world (cur : Z) : World :=
  mkWorld [ex_car cur]
          [WorkOrder.mk 1 1 WorkOrderStatus.DONE (Some 85000) (day 0);
           WorkOrder.mk 2 1 WorkOrderStatus.DONE (Some 95000) (day 60)]
          []
          [Customer.mk 1 "+359888000001" "Ivan" "Petrov"]
          [Shop.mk 1 "Demo Auto Shop" None true true 0 0]
          []
          (day 60).

(** The same vehicle with two visits given by odometer reading and day,
    the second visit [hours] hours into its day. *)
Definition ex_history (cur km0 day0 km1 day1 hours : Z) : World :=
  mkWorld [ex_car cur]
          [WorkOrder.mk 1 1 WorkOrderStatus.DONE (Some km0) (day day0);
           WorkOrder.mk 2 1 WorkOrderStatus.DONE (Some km1)
                        (day day1 + hours * 3600 * 1000000)]
          []
          [Customer.mk 1 "+359888000001" "Ivan" "Petrov"]
          [Shop.mk 1 "Demo Auto Shop" None true true 0 0]
          []
          (day day1).

(** A slow vehicle: one kilometre in two days, a rate of exactly 0.5. *)
Definition ex_slow_world : World :=
  mkWorld [ex_car 85001]
          [WorkOrder.mk 1 1 WorkOrderStatus.DONE (Some 85000) (day 0);
           WorkOrder.mk 2 1 WorkOrderStatus.DONE (Some 85001) (day 2)]
          []
          [Customer.mk 1 "+359888000001" "Ivan" "Petrov"]
          [Shop.mk 1 "Demo Auto Shop" None true true 0 0]
          []
          (day 2).

(** The vehicle of [ex_world] before any visit was recorded, and settings
    that ask for no visit at all. *)
Definition ex_no_visit_world : World :=
  mkWorld [ex_car 95000] [] [] [] [] [] (day 60).

(** The vehicle of [ex_world] after an update request has set its odometer
    to NULL. *)
Definition ex_null_odometer_world : World :=
  mkWorld [Car.mk 1 1 1 "VW" "Golf" "CA1234BH" None 10000 (day 59)]
          [WorkOrder.mk 1 1 WorkOrderStatus.DONE (Some 85000) (day 0);
           WorkOrder.mk 2 1 WorkOrderStatus.DONE (Some 95000) (day 60)]
          []
          [Customer.mk 1 "+359888000001" "Ivan" "Petrov"]
          [Shop.mk 1 "Demo Auto Shop" None true true 0 0]
          []
          (day 60).

Definition ex_settings_no_minimum : Settings :=
  {| MIN_VISITS_FOR_PREDICTION := 0;
     SERVICE_REMINDER_DAYS_AHEAD := 14;
     SMS_ENABLED := false;
     TWILIO_ACCOUNT_SID := None;
     TWILIO_AUTH_TOKEN := None;
     TWILIO_PHONE_NUMBER := None;
     SHOP_NAME := "Demo Auto Shop";
     SHOP_PHONE := "+359888123456";
     SHOP_WEBSITE := "https://example.com" |}.

(** The vehicle of [ex_world], due, with an unsent record left by an
    earlier sweep whose projection was 100500. *)
Definition ex_stale_reminder : ServiceReminder.t :=
  ServiceReminder.mk 1 1 1 100500 100000 false None (day 50).

Definition ex_stale_world : World :=
  set_service_reminders [ex_stale_reminder] (ex_world 99000).

(** Two shops with the gateway configured: vehicles 1 and 2 in shop 1,
    vehicle 3 in shop 2, all three due. *)
Definition ex_sms_settings : Settings :=
  {| MIN_VISITS_FOR_PREDICTION := 2;
     SERVICE_REMINDER_DAYS_AHEAD := 14;
     SMS_ENABLED := true;
     TWILIO_ACCOUNT_SID := Some "AC0123456789"%string;
     TWILIO_AUTH_TOKEN := Some "secret"%string;
     TWILIO_PHONE_NUMBER := Some "+15005550006"%string;
     SHOP_NAME := "Demo Auto Shop";
     SHOP_PHONE := "+359888123456";
     SHOP_WEBSITE := "https://example.com" |}.

Definition ex_fleet_car (id shop : Z) : Car.t :=
  Car.mk id shop id "VW" "Golf" "CA1234BH" (Some 99000) 10000 0.

Definition ex_fleet_visits (car : Z) : list WorkOrder.t :=
  [WorkOrder.mk (2 * car - 1) car WorkOrderStatus.DONE (Some 85000) (day 0);
   WorkOrder.mk (2 * car) car WorkOrderStatus.DONE (Some 95000) (day 60)].

Definition ex_two_shops : World :=
  mkWorld [ex_fleet_car 1 1; ex_fleet_car 2 1; ex_fleet_car 3 2]
          (ex_fleet_visits 1 ++ ex_fleet_visits 2 ++ ex_fleet_visits 3)
          []
          [Customer.mk 1 "+359888000001" "Ivan" "Petrov";
           Customer.mk 2 "+359888000002" "Maria" "Ivanova";
           Customer.mk 3 "+359888000003" "Georgi" "Dimitrov"]
          [Shop.mk 1 "Shop One" None true true 0 0;
           Shop.mk 2 "Shop Two" None true true 0 0]
          []
          (day 60).

(** The fleet of [ex_two_shops] with the first vehicle at the far end of
    the odometer range: 30000 km in 60 days, so that the projection and
    the threshold are beyond what the store can hold. *)
Definition ex_overflow_fleet : World :=
  mkWorld [Car.mk 1 1 1 "VW" "Golf" "CA1234BH"
                  (Some 9223372036854775000) 10000 0;
           ex_fleet_car 2 1; ex_fleet_car 3 2]
          ([WorkOrder.mk 1 1 WorkOrderStatus.DONE
                         (Some 9223372036854745000) (day 0);
            WorkOrder.mk 2 1 WorkOrderStatus.DONE
                         (Some 9223372036854775000) (day 60)]
             ++ ex_fleet_visits 2 ++ ex_fleet_visits 3)
          []
          [Customer.mk 1 "+359888000001" "Ivan" "Petrov";
           Customer.mk 2 "+359888000002" "Maria" "Ivanova";
           Customer.mk 3 "+359888000003" "Georgi" "Dimitrov"]
          [Shop.mk 1 "Shop One" None true true 0 0;
           Shop.mk 2 "Shop Two" None true true 0 0]
          []
          (day 60).

(** A gateway that cannot be reached for the first customer (the client
    raises a transport error) and accepts every other message. *)
Definition ex_gateway_down_for_first
           (w : World) (body : string) (from_ : option string) (to : string)
  : TwilioOutcome :=
  if String.eqb to "+359888000001" then OtherException else Created "SM01".

(** A gateway that rejects the first customer's number with its REST
    exception and accepts every other message. *)
Definition ex_gateway_rejecting_first
           (w : World) (body : string) (from_ : option string) (to : string)
  : TwilioOutcome :=
  if String.eqb to "+359888000001"
  then TwilioRestException "invalid number"
  else Created "SM01".


(** * Notions used by the further properties *)

(** Primary keys are unique. *)
Definition unique_car_ids (w : World) : Prop :=
  NoDup (map Car.id (cars w)).

Definition unique_reminder_ids (w : World) : Prop :=
  NoDup (map ServiceReminder.id (service_reminders w)).

(** Why a turn of the sweep's loop for [car] raised [e] in [w]: the
    vehicle has no stored odometer, or it is due with a projection or a
    threshold the store cannot hold. *)
Definition raises_because (settings : Settings) (w : World) (car : Car.t)
           (e : exn) : Prop :=
  (e = TypeError /\ Car.current_mileage car = None)
  \/ (e = OverflowError
      /\ exists predicted threshold,
           fst (needs_service_reminder settings (Car.id car) w)
           = Ok (true, Some predicted, Some threshold)
           /\ ~ (int64 predicted /\ int64 threshold)).

(** The vehicles a sweep of the shop looks at, in table order. *)
Definition swept_cars (shop_id : Z) (w : World) : list Car.t :=
  filter (fun c => (Car.shop_id c =? shop_id)
                   && (0 <? Car.service_interval_km c))
         (cars w).

(** [l] is [l'] with some elements left out. *)
Inductive subseq {A : Type} : list A -> list A -> Prop :=
| subseq_nil : subseq [] []
| subseq_skip (x : A) (l l' : list A) : subseq l l' -> subseq l (x :: l')
| subseq_keep (x : A) (l l' : list A) :
    subseq l l' -> subseq (x :: l) (x :: l').

(** Two rows of the vehicle table that agree in every column but
    [updated_at]. *)
Definition same_but_updated_at (c c' : Car.t) : Prop :=
  Car.id c' = Car.id c
  /\ Car.shop_id c' = Car.shop_id c
  /\ Car.owner_id c' = Car.owner_id c
  /\ Car.make c' = Car.make c
  /\ Car.model c' = Car.model c
  /\ Car.license_plate c' = Car.license_plate c
  /\ Car.current_mileage c' = Car.current_mileage c
  /\ Car.service_interval_km c' = Car.service_interval_km c.

(** What a report of [new_mileage] at time [now] does to a vehicle whose
    stored reading is [current]. *)
Definition raise_to (current new_mileage now : Z) (c : Car.t) : Car.t :=
  if current <? new_mileage then set_mileage new_mileage now c else c.

(** An old record after some steps of the job under clock [now]: as it
    was, or marked sent at [now]. *)
Definition marked_or_same (now : Z) (r r' : ServiceReminder.t) : Prop :=
  r' = r \/ r' = set_sent now r.

(** What the job never changes in a shop's row: every column but the
    usage counter and [updated_at]. *)
Definition shop_profile (s : Shop.t)
  : Z * string * option string * bool * bool :=
  (Shop.id s, Shop.name s, Shop.website s, Shop.sms_enabled s,
   Shop.is_active s).

(** The shops the job sweeps. *)
Definition eligible_shops (w : World) : list Shop.t :=
  filter (fun s => Shop.is_active s && Shop.sms_enabled s) (shops w).

(** [w'] differs from [w] only in the way steps of the job can make it
    differ: same vehicles, visits, customers and clock; an SMS log that
    grew at its end; shops that differ in their usage counters and
    [updated_at] at most; and
    a reminder table whose old records are as they were or marked sent at
    the clock, followed by new records that satisfy [P]. *)
Definition job_frame (P : ServiceReminder.t -> Prop) (w w' : World) : Prop :=
  cars w' = cars w
  /\ work_orders w' = work_orders w
  /\ customers w' = customers w
  /\ clock w' = clock w
  /\ (exists logs, sms_logs w' = sms_logs w ++ logs)
  /\ map shop_profile (shops w') = map shop_profile (shops w)
  /\ exists old new,
       service_reminders w' = old ++ new
       /\ Forall2 (marked_or_same (clock w)) (service_reminders w) old
       /\ Forall P new.

(** The record belongs to a vehicle with a positive service interval of
    an active shop with SMS enabled. *)
Definition created_for_eligible (w : World) (r : ServiceReminder.t) : Prop :=
  exists car shop,
    In car (cars w)
    /\ ServiceReminder.car_id r = Car.id car
    /\ 0 < Car.service_interval_km car
    /\ In shop (eligible_shops w)
    /\ Car.shop_id car = Shop.id shop.

(** The vehicle has a record sent within the last 30 days. *)
Definition has_recent (car_id : Z) (w : World) : Prop :=
  exists r, In r (service_reminders w)
            /\ recently_sent car_id (clock w) r = true.

(** The evaluation of the vehicle ends normally and says "not due". *)
Definition not_due (settings : Settings) (car_id : Z) (w : World) : Prop :=
  exists p d,
    fst (needs_service_reminder settings car_id w) = Ok (false, p, d).

(** Every vehicle a sweep of the shop looks at is suppressed or not due. *)
Definition settled (settings : Settings) (shop_id : Z) (w : World) : Prop :=
  forall car, In car (swept_cars shop_id w) ->
              has_recent (Car.id car) w \/ not_due settings (Car.id car) w.

(** No condition on a record. *)
Definition any_record (r : ServiceReminder.t) : Prop := True.

(** A gateway that accepts every message. *)
Definition delivering
           (gateway : World -> string -> option string -> string
                      -> TwilioOutcome) : Prop :=
  forall w body from_ to, exists sid, gateway w body from_ to = Created sid.

(** A gateway that accepts every message, for the examples. *)
Definition ex_gateway_up
           (w : World) (body : string) (from_ : option string) (to : string)
  : TwilioOutcome := Created "SM01".

(** A log row as [send_sms] writes it for a reminder when the service has
    no client. *)
Definition unconfigured_row (l : SMSLog.t) : Prop :=
  SMSLog.message_type l = "service_reminder"%string
  /\ SMSLog.status l = "failed"%string
  /\ SMSLog.twilio_sid l = None
  /\ SMSLog.error_message l = Some "SMS service not configured"%string.

(** From [w] to [w'] the stored records are untouched, the records added
    are unsent, and the log rows added are [unconfigured_row]s. *)
Definition nothing_marked (w w' : World) : Prop :=
  (exists new,
      service_reminders w' = service_reminders w ++ new
      /\ Forall (fun r => ServiceReminder.reminder_sent r = false) new)
  /\ exists logs,
       sms_logs w' = sms_logs w ++ logs /\ Forall unconfigured_row logs.

(** * The floating-point layer: no overflow on stored values *)

Module FloatFacts.

Lemma digits2_pos_upper (p : positive) :
  Zpos p < 2 ^ Zpos (digits2_pos p).
Proof.
  induction p as [p IH | p IH |]; cbn [digits2_pos].
  - rewrite Pos2Z.inj_succ, Z.pow_succ_r by lia. lia.
  - rewrite Pos2Z.inj_succ, Z.pow_succ_r by lia. lia.
  - reflexivity.
Qed.

Lemma digits2_pos_lower (p : positive) :
  2 ^ (Zpos (digits2_pos p) - 1) <= Zpos p.
Proof.
  induction p as [p IH | p IH |]; cbn [digits2_pos].
  - rewrite Pos2Z.inj_succ.
    replace (Z.succ (Zpos (digits2_pos p)) - 1)
      with (Z.succ (Zpos (digits2_pos p) - 1)) by lia.
    rewrite Z.pow_succ_r by lia. lia.
  - rewrite Pos2Z.inj_succ.
    replace (Z.succ (Zpos (digits2_pos p)) - 1)
      with (Z.succ (Zpos (digits2_pos p) - 1)) by lia.
    rewrite Z.pow_succ_r by lia. lia.
  - reflexivity.
Qed.

Lemma Zdigits2_le (m D : Z) :
  0 <= m < 2 ^ D -> 0 <= D -> Zdigits2 m <= D.
Proof.
  intros [Hm0 HmD] HD. destruct m as [| p | p]; cbn [Zdigits2]; try lia.
  pose proof (digits2_pos_lower p) as Hlow.
  destruct (Z_le_gt_dec (Zpos (digits2_pos p)) D) as [|Hgt]; [assumption|].
  exfalso.
  assert (2 ^ D <= 2 ^ (Zpos (digits2_pos p) - 1))
    by (apply Z.pow_le_mono_r; lia).
  lia.
Qed.

Lemma Zdigits2_nonneg (m : Z) : 0 <= Zdigits2 m.
Proof. destruct m; cbn; lia. Qed.

Lemma iter_pos_invariant {A} (P : A -> Prop) (f : A -> A) :
  (forall x, P x -> P (f x)) ->
  forall n x, P x -> P (iter_pos f n x).
Proof.
  intros Hf. induction n as [n IH | n IH |]; intros x Hx; cbn [iter_pos];
    auto.
Qed.

Lemma shr_1_bounds (B : Z) (mrs : shr_record) :
  0 <= shr_m mrs <= B -> 0 <= shr_m (shr_1 mrs) <= B.
Proof.
  destruct mrs as [m r s]. cbn [shr_m shr_1].
  destruct m as [| [p | p |] | [p | p |]]; cbn [shr_m]; lia.
Qed.

Lemma shr_m_of_loc (m : Z) (l : location) :
  shr_m (shr_record_of_loc m l) = m.
Proof. destruct l as [| []]; reflexivity. Qed.

Lemma shr_fexp_bounds (m e : Z) (l : location) :
  0 <= m ->
  0 <= shr_m (fst (shr_fexp prec emax m e l)) <= m
  /\ snd (shr_fexp prec emax m e l)
     = Z.max e (fexp prec emax (Zdigits2 m + e)).
Proof.
  intros Hm. unfold shr_fexp, shr.
  destruct (fexp prec emax (Zdigits2 m + e) - e) as [| p | p] eqn:E;
    cbn [fst snd].
  - rewrite shr_m_of_loc. lia.
  - split; [| lia].
    apply (iter_pos_invariant (fun mrs => 0 <= shr_m mrs <= m)).
    + intros x. apply shr_1_bounds.
    + rewrite shr_m_of_loc. lia.
  - rewrite shr_m_of_loc. lia.
Qed.

Lemma round_nearest_even_bounds (m : Z) (l : location) :
  m <= round_nearest_even m l <= m + 1.
Proof.
  destruct l as [| []]; cbn [round_nearest_even]; try lia.
  destruct (Z.even m); lia.
Qed.

Lemma fexp_mono (a b : Z) : a <= b -> fexp prec emax a <= fexp prec emax b.
Proof. unfold fexp. lia. Qed.

Lemma binary_round_aux_bounded (s : bool) (m e : Z) (l : location)
      (D E : Z) :
  0 <= m < 2 ^ D -> 0 <= D -> e <= E ->
  rounded_exponent D E <= emax - prec ->
  bounded_float s (D + 1) (rounded_exponent D E)
                (binary_round_aux prec emax s m e l).
Proof.
  intros Hm HD He Hfit. unfold binary_round_aux.
  pose proof (shr_fexp_bounds m e l (proj1 Hm)) as [Hm1 He1].
  destruct (shr_fexp prec emax m e l) as [mrs1 e1]. cbn [fst snd] in *.
  set (m1 := round_nearest_even (shr_m mrs1) (loc_of_shr_record mrs1)).
  pose proof (round_nearest_even_bounds
                (shr_m mrs1) (loc_of_shr_record mrs1)) as Hr.
  fold m1 in Hr.
  assert (Hm1' : 0 <= m1) by lia.
  pose proof (shr_fexp_bounds m1 e1 loc_Exact Hm1') as [Hm2 He2].
  destruct (shr_fexp prec emax m1 e1 loc_Exact) as [mrs2 e2].
  cbn [fst snd] in *.
  assert (Hpow : 2 ^ (D + 1) = 2 * 2 ^ D)
    by (rewrite Z.pow_add_r by lia; lia).
  assert (Hd : Zdigits2 m <= D) by (apply Zdigits2_le; lia).
  assert (Hd1 : Zdigits2 m1 <= D + 1) by (apply Zdigits2_le; lia).
  assert (HE1 : e1 <= Z.max E (fexp prec emax (D + E))).
  { subst e1.
    pose proof (fexp_mono (Zdigits2 m + e) (D + E)). lia. }
  assert (HE2 : e2 <= rounded_exponent D E).
  { subst e2. unfold rounded_exponent.
    pose proof (fexp_mono (Zdigits2 m1 + e1)
                  (D + 1 + Z.max E (fexp prec emax (D + E)))).
    lia. }
  destruct (shr_m mrs2) as [| p | p] eqn:Ep; cbn [bounded_float].
  - reflexivity.
  - assert (Hle : (e2 <=? emax - prec) = true) by (apply Z.leb_le; lia).
    rewrite Hle. cbn [bounded_float]. repeat split; lia.
  - lia.
Qed.

Lemma pos_iter_xO (m d : positive) :
  Zpos (Pos.iter xO m d) = Zpos m * 2 ^ Zpos d.
Proof.
  revert m. induction d as [| d IH] using Pos.peano_ind; intros m.
  - cbn. lia.
  - rewrite Pos.iter_succ, Pos2Z.inj_succ, Z.pow_succ_r by lia.
    rewrite Pos2Z.inj_xO, IH. lia.
Qed.

Lemma SFdiv_core_binary_bounds (p q : positive) :
  Zpos p < 2 ^ 64 -> Zpos q < 2 ^ 64 ->
  let '(mz, ez, _) := SFdiv_core_binary prec emax (Zpos p) 0 (Zpos q) 0 in
  0 <= mz < 2 ^ 180 /\ ez <= 0.
Proof.
  intros Hp Hq. unfold SFdiv_core_binary.
  assert (Hd1 : 1 <= Zdigits2 (Zpos p) <= 64).
  { split; [cbn; lia | apply Zdigits2_le; lia]. }
  assert (Hd2 : 1 <= Zdigits2 (Zpos q) <= 64).
  { split; [cbn; lia | apply Zdigits2_le; lia]. }
  set (e' := Z.min (fexp prec emax (Zdigits2 (Zpos p) + 0
                                    - (Zdigits2 (Zpos q) + 0))) (0 - 0)).
  assert (He' : -116 <= e' <= 0) by (subst e'; unfold fexp, prec, emax; lia).
  set (m' := match 0 - 0 - e' with
             | 0 => Zpos p
             | Zpos _ => Z.shiftl (Zpos p) (0 - 0 - e')
             | Zneg _ => 0
             end).
  assert (Hm' : 0 <= m' < 2 ^ 180).
  { subst m'. destruct (0 - 0 - e') as [| k | k] eqn:Ek.
    - split; [lia |].
      apply Z.lt_trans with (2 ^ 64); [assumption | reflexivity].
    - rewrite Z.shiftl_mul_pow2 by lia.
      assert (2 ^ Zpos k <= 2 ^ 116) by (apply Z.pow_le_mono_r; lia).
      assert (0 < 2 ^ Zpos k) by (apply Z.pow_pos_nonneg; lia).
      replace (2 ^ 180) with (2 ^ 64 * 2 ^ 116) by reflexivity.
      split; [lia |]. nia.
    - split; [lia | reflexivity]. }
  pose proof (Z.div_mod m' (Zpos q)) as Hdm.
  unfold Z.div, Z.modulo in Hdm.
  pose proof (Z.mod_pos_bound m' (Zpos q)) as Hmod.
  unfold Z.modulo in Hmod.
  destruct (Z.div_eucl m' (Zpos q)) as [qz r].
  split; [| lia].
  assert (0 <= r < Zpos q) by (apply Hmod; lia).
  assert (m' = Zpos q * qz + r) by (apply Hdm; lia).
  nia.
Qed.

Lemma truediv_ok (a b : Z) :
  - 2 ^ 64 < a < 2 ^ 64 -> 0 < b < 2 ^ 64 ->
  exists f, truediv a b = Ok f
            /\ bounded_float (a <? 0) 181 255 f.
Proof.
  intros Ha Hb. unfold truediv.
  destruct (Z.eqb_spec b 0) as [| _]; [lia |].
  destruct b as [| q | q]; try lia.
  destruct a as [| p | p]; cbn [raw_of_int SFdiv xorb Z.ltb Z.compare].
  - eexists. split; reflexivity.
  - pose proof (SFdiv_core_binary_bounds p q) as Hcore.
    destruct (SFdiv_core_binary prec emax (Zpos p) 0 (Zpos q) 0)
      as [[mz ez] lz].
    destruct Hcore as [Hmz Hez]; [lia | lia |].
    pose proof (binary_round_aux_bounded false mz ez lz 180 0 Hmz) as Hb'.
    specialize (Hb' ltac:(lia) Hez ltac:(vm_compute; discriminate)).
    change (rounded_exponent 180 0) with 255 in Hb'.
    change (180 + 1) with 181 in Hb'.
    destruct (binary_round_aux prec emax false mz ez lz);
      cbn [bounded_float] in Hb'; try contradiction;
      eexists; (split; [reflexivity | exact Hb']).
  - pose proof (SFdiv_core_binary_bounds p q) as Hcore.
    destruct (SFdiv_core_binary prec emax (Zpos p) 0 (Zpos q) 0)
      as [[mz ez] lz].
    destruct Hcore as [Hmz Hez]; [lia | lia |].
    pose proof (binary_round_aux_bounded true mz ez lz 180 0 Hmz) as Hb'.
    specialize (Hb' ltac:(lia) Hez ltac:(vm_compute; discriminate)).
    change (rounded_exponent 180 0) with 255 in Hb'.
    change (180 + 1) with 181 in Hb'.
    destruct (binary_round_aux prec emax true mz ez lz);
      cbn [bounded_float] in Hb'; try contradiction;
      eexists; (split; [reflexivity | exact Hb']).
Qed.

Lemma binary_round_int_bounded (s : bool) (p : positive) :
  Zpos p < 2 ^ 64 ->
  bounded_float s 65 23 (binary_round prec emax s p 0).
Proof.
  intros Hp. unfold binary_round, shl_align.
  assert (Hd : 1 <= Zpos (digits2_pos p) <= 64).
  { split; [lia |]. apply (Zdigits2_le (Zpos p)); lia. }
  pose proof (digits2_pos_upper p) as Hup.
  destruct (fexp prec emax (Zpos (digits2_pos p) + 0) - 0) as [| k | k] eqn:Ek.
  - apply (binary_round_aux_bounded s (Zpos p) 0 loc_Exact 64 0);
      try lia. vm_compute; discriminate.
  - apply (binary_round_aux_bounded s (Zpos p) 0 loc_Exact 64 0);
      try lia. vm_compute; discriminate.
  - assert (Hk : Zpos k = 53 - Zpos (digits2_pos p))
      by (unfold fexp, emin, prec, emax in Ek; lia).
    apply (binary_round_aux_bounded s _ _ loc_Exact 64 0).
    + rewrite pos_iter_xO, Hk. split; [lia |].
      assert (2 ^ Zpos (digits2_pos p) * 2 ^ (53 - Zpos (digits2_pos p))
              = 2 ^ 53) as Hsplit.
      { rewrite <- Z.pow_add_r by lia. f_equal. lia. }
      assert (0 < 2 ^ (53 - Zpos (digits2_pos p)))
        by (apply Z.pow_pos_nonneg; lia).
      apply Z.lt_trans with (2 ^ 53); [nia | reflexivity].
    + lia.
    + unfold fexp, emin, prec, emax in *. lia.
    + vm_compute; discriminate.
Qed.

Lemma float_of_int_ok (n : Z) :
  - 2 ^ 64 < n < 2 ^ 64 ->
  exists g, float_of_int n = Ok g /\ bounded_float (n <? 0) 65 23 g.
Proof.
  intros Hn. unfold float_of_int, binary_normalize.
  destruct n as [| p | p]; cbn [Z.ltb Z.compare].
  - eexists. split; reflexivity.
  - pose proof (binary_round_int_bounded false p ltac:(lia)) as Hb.
    destruct (binary_round prec emax false p 0);
      cbn [bounded_float] in Hb; try contradiction;
      eexists; (split; [reflexivity | exact Hb]).
  - pose proof (binary_round_int_bounded true p ltac:(lia)) as Hb.
    destruct (binary_round prec emax true p 0);
      cbn [bounded_float] in Hb; try contradiction;
      eexists; (split; [reflexivity | exact Hb]).
Qed.

Lemma SFmul_bounded (sf sg : bool) (f g : float) :
  bounded_float sf 181 255 f -> bounded_float sg 65 23 g ->
  bounded_float (xorb sf sg) 247 665 (SFmul prec emax f g).
Proof.
  intros Hf Hg.
  destruct f as [s1 | s1 | | s1 m1 e1]; cbn [bounded_float] in Hf;
    try contradiction;
    destruct g as [s2 | s2 | | s2 m2 e2]; cbn [bounded_float] in Hg;
    try contradiction; cbn [SFmul bounded_float].
  - subst. reflexivity.
  - destruct Hg as [-> _]. subst. reflexivity.
  - destruct Hf as [-> _]. subst. reflexivity.
  - destruct Hf as [-> [Hm1 He1]]. destruct Hg as [-> [Hm2 He2]].
    apply (binary_round_aux_bounded _ _ _ loc_Exact 246 278).
    + rewrite Pos2Z.inj_mul. split; [lia |].
      replace (2 ^ 246) with (2 ^ 181 * 2 ^ 65) by reflexivity.
      assert (0 < 2 ^ 181) by reflexivity.
      nia.
    + lia.
    + lia.
    + vm_compute; discriminate.
Qed.

Lemma int_of_float_bounded (s : bool) (D E : Z) (f : float) :
  bounded_float s D E f -> int_of_float f = Ok (trunc f).
Proof.
  destruct f; cbn [bounded_float int_of_float]; intros H;
    try contradiction; reflexivity.
Qed.

(** ** A quotient of two positive integers does not round to zero *)

Lemma shr_1_lower (B : Z) (mrs : shr_record) :
  2 * B <= shr_m mrs -> B <= shr_m (shr_1 mrs).
Proof.
  destruct mrs as [m r s]. cbn [shr_m shr_1].
  destruct m as [| [p | p |] | [p | p |]]; cbn [shr_m]; lia.
Qed.

Lemma iter_shr_1_lower (n : positive) :
  forall (B : Z) (mrs : shr_record),
    2 ^ Zpos n * B <= shr_m mrs -> B <= shr_m (iter_pos shr_1 n mrs).
Proof.
  induction n as [n IH | n IH |]; intros B mrs H; cbn [iter_pos].
  - apply IH, IH, shr_1_lower.
    assert (E : 2 ^ Zpos n~1 = 2 * (2 ^ Zpos n * 2 ^ Zpos n)).
    { rewrite <- Z.pow_add_r, <- Z.pow_succ_r by lia. f_equal. lia. }
    rewrite E in H. lia.
  - apply IH, IH.
    assert (E : 2 ^ Zpos n~0 = 2 ^ Zpos n * 2 ^ Zpos n).
    { rewrite <- Z.pow_add_r by lia. f_equal. lia. }
    rewrite E in H. lia.
  - apply shr_1_lower. exact H.
Qed.

Lemma Zdigits2_lower (m : Z) : 0 < m -> 2 ^ (Zdigits2 m - 1) <= m.
Proof.
  destruct m as [| p | p]; intros H; try lia. apply digits2_pos_lower.
Qed.

Lemma Zdigits2_positive (m : Z) : 0 < m -> 1 <= Zdigits2 m.
Proof. destruct m as [| p | p]; intros H; cbn [Zdigits2]; lia. Qed.

Lemma emin_value : emin prec emax = -1074.
Proof. reflexivity. Qed.

Lemma shr_fexp_positive (m e : Z) (l : location) :
  0 < m -> emin prec emax < Zdigits2 m + e ->
  0 < shr_m (fst (shr_fexp prec emax m e l)).
Proof.
  intros Hm He. unfold shr_fexp, shr.
  destruct (fexp prec emax (Zdigits2 m + e) - e) as [| k | k] eqn:Ek;
    cbn [fst]; try (rewrite shr_m_of_loc; exact Hm).
  apply Z.lt_le_trans with 1; [lia |].
  apply iter_shr_1_lower. rewrite shr_m_of_loc, Z.mul_1_r.
  apply Z.le_trans with (2 ^ (Zdigits2 m - 1)); [| apply Zdigits2_lower, Hm].
  apply Z.pow_le_mono_r; [lia |].
  unfold fexp in Ek. unfold prec in *. lia.
Qed.

Lemma binary_round_aux_nonzero (s : bool) (m e : Z) (l : location) :
  0 < m -> emin prec emax < Zdigits2 m + e ->
  match binary_round_aux prec emax s m e l with
  | S754_zero _ | S754_nan => False
  | _ => True
  end.
Proof.
  intros Hm He. unfold binary_round_aux.
  pose proof (shr_fexp_positive m e l Hm He) as Hpos1.
  pose proof (shr_fexp_bounds m e l ltac:(lia)) as [_ He1].
  destruct (shr_fexp prec emax m e l) as [mrs1 e1]. cbn [fst snd] in *.
  set (m1 := round_nearest_even (shr_m mrs1) (loc_of_shr_record mrs1)).
  pose proof (round_nearest_even_bounds
                (shr_m mrs1) (loc_of_shr_record mrs1)) as Hr.
  fold m1 in Hr.
  assert (Hm1 : 0 < m1) by lia.
  assert (He1' : emin prec emax < Zdigits2 m1 + e1).
  { pose proof (Zdigits2_positive m1 Hm1). subst e1. unfold fexp. lia. }
  pose proof (shr_fexp_positive m1 e1 loc_Exact Hm1 He1') as Hpos2.
  destruct (shr_fexp prec emax m1 e1 loc_Exact) as [mrs2 e2].
  cbn [fst snd] in *.
  destruct (shr_m mrs2) as [| p | p]; try lia.
  destruct (e2 <=? emax - prec); exact I.
Qed.

Lemma SFdiv_core_binary_positive (p q : positive) :
  Zpos p < 2 ^ 64 -> Zpos q < 2 ^ 64 ->
  let '(mz, ez, _) := SFdiv_core_binary prec emax (Zpos p) 0 (Zpos q) 0 in
  0 < mz /\ -116 <= ez.
Proof.
  intros Hp Hq. unfold SFdiv_core_binary.
  assert (Hd1 : 1 <= Zdigits2 (Zpos p) <= 64).
  { split; [cbn; lia | apply Zdigits2_le; lia]. }
  assert (Hd2 : 1 <= Zdigits2 (Zpos q) <= 64).
  { split; [cbn; lia | apply Zdigits2_le; lia]. }
  pose proof (Zdigits2_lower (Zpos p) ltac:(lia)) as Hlow.
  assert (Hup : Zpos q < 2 ^ Zdigits2 (Zpos q)) by apply digits2_pos_upper.
  set (d1 := Zdigits2 (Zpos p)) in *. set (d2 := Zdigits2 (Zpos q)) in *.
  set (e' := Z.min (fexp prec emax (d1 + 0 - (d2 + 0))) (0 - 0)).
  assert (He' : -116 <= e' <= 0 /\ d2 + 53 <= d1 - e').
  { subst e'. unfold fexp, prec, emax, emin. lia. }
  set (m' := match 0 - 0 - e' with
             | 0 => Zpos p
             | Zpos _ => Z.shiftl (Zpos p) (0 - 0 - e')
             | Zneg _ => 0
             end).
  assert (Hm' : Zpos q <= m').
  { assert (Hm'' : m' = Zpos p * 2 ^ (- e')).
    { subst m'. destruct (0 - 0 - e') as [| k | k] eqn:Ek.
      - replace (- e') with 0 by lia. lia.
      - rewrite Z.shiftl_mul_pow2 by lia. f_equal. f_equal. lia.
      - lia. }
    rewrite Hm''.
    assert (H1 : 2 ^ d2 <= 2 ^ (d1 - 1) * 2 ^ (- e')).
    { rewrite <- Z.pow_add_r by lia. apply Z.pow_le_mono_r; lia. }
    assert (0 < 2 ^ (- e')) by (apply Z.pow_pos_nonneg; lia).
    nia. }
  pose proof (Z.div_mod m' (Zpos q)) as Hdm.
  unfold Z.div, Z.modulo in Hdm.
  pose proof (Z.mod_pos_bound m' (Zpos q)) as Hmod.
  unfold Z.modulo in Hmod.
  destruct (Z.div_eucl m' (Zpos q)) as [qz r].
  split; [| lia].
  assert (0 <= r < Zpos q) by (apply Hmod; lia).
  assert (m' = Zpos q * qz + r) by (apply Hdm; lia).
  nia.
Qed.

(** The quotient of two positive stored values is a positive double. *)
Lemma truediv_positive (a b : Z) :
  0 < a < 2 ^ 64 -> 0 < b < 2 ^ 64 ->
  exists m e, truediv a b = Ok (S754_finite false m e).
Proof.
  intros Ha Hb.
  destruct (truediv_ok a b ltac:(lia) Hb) as (f & Hf & Hbound).
  assert (Hs : (a <? 0) = false) by (apply Z.ltb_ge; lia).
  rewrite Hs in Hbound.
  destruct f as [s | s | | s m e]; cbn [bounded_float] in Hbound;
    try contradiction.
  - exfalso. unfold truediv in Hf.
    destruct (Z.eqb_spec b 0) as [| _]; [lia |].
    destruct b as [| q | q]; try lia. destruct a as [| p | p]; try lia.
    cbn [raw_of_int SFdiv xorb] in Hf.
    pose proof (SFdiv_core_binary_positive p q) as Hcore.
    destruct (SFdiv_core_binary prec emax (Zpos p) 0 (Zpos q) 0)
      as [[mz ez] lz].
    destruct Hcore as [Hmz Hez]; [lia | lia |].
    pose proof (binary_round_aux_nonzero false mz ez lz Hmz) as Hnz.
    pose proof (Zdigits2_positive mz Hmz).
    rewrite emin_value in Hnz. specialize (Hnz ltac:(lia)).
    destruct (binary_round_aux prec emax false mz ez lz);
      try discriminate Hf; contradiction.
  - destruct Hbound as [-> _]. exists m, e. exact Hf.
Qed.

(** On a double that is not negative, rounding toward zero and rounding
    down agree. *)
Lemma trunc_floor_nonneg (D E : Z) (f : float) :
  bounded_float false D E f -> trunc f = floor f.
Proof.
  destruct f as [| | | s m e]; cbn [bounded_float trunc floor];
    intros H; try contradiction; try reflexivity.
  destruct H as [-> _]. destruct (0 <=? e); reflexivity.
Qed.

End FloatFacts.

(** * Lists, sorting and the monad *)

Lemma insert_by_created_at_perm (o : WorkOrder.t) (l : list WorkOrder.t) :
  Permutation (insert_by_created_at o l) (o :: l).
Proof.
  induction l as [| x l IH]; cbn [insert_by_created_at].
  - apply Permutation_refl.
  - destruct (WorkOrder.created_at o <=? WorkOrder.created_at x).
    + apply Permutation_refl.
    + eapply perm_trans; [apply perm_skip, IH | apply perm_swap].
Qed.

Lemma order_by_created_at_perm (l : list WorkOrder.t) :
  Permutation (order_by_created_at l) l.
Proof.
  induction l as [| x l IH]; cbn.
  - constructor.
  - eapply perm_trans; [apply insert_by_created_at_perm |].
    apply perm_skip, IH.
Qed.

Lemma insert_by_created_at_sorted (o : WorkOrder.t) (l : list WorkOrder.t) :
  StronglySorted created_le l ->
  StronglySorted created_le (insert_by_created_at o l).
Proof.
  induction 1 as [| x l Hl IH Hx]; cbn [insert_by_created_at].
  - repeat constructor.
  - destruct (Z.leb_spec (WorkOrder.created_at o) (WorkOrder.created_at x))
      as [Hlt | Hge].
    + constructor; [constructor; assumption |].
      constructor; [unfold created_le; lia |].
      eapply Forall_impl; [| exact Hx].
      unfold created_le. intros; lia.
    + constructor; [exact IH |].
      eapply Permutation_Forall;
        [apply Permutation_sym, insert_by_created_at_perm |].
      constructor; [unfold created_le; lia | exact Hx].
Qed.

Lemma order_by_created_at_sorted (l : list WorkOrder.t) :
  StronglySorted created_le (order_by_created_at l).
Proof.
  induction l as [| x l IH]; cbn.
  - constructor.
  - apply insert_by_created_at_sorted, IH.
Qed.

Lemma sorted_head_earliest (x : WorkOrder.t) (l : list WorkOrder.t) :
  StronglySorted created_le (x :: l) -> earliest x (x :: l).
Proof.
  intros H. inversion H as [| ? ? _ Hx]; subst. split; [left; reflexivity |].
  constructor; [lia | exact Hx].
Qed.

Lemma last_default_irrelevant {A} (l : list A) (x d d' : A) :
  last (x :: l) d = last (x :: l) d'.
Proof.
  revert x. induction l as [| y l IH]; intros x; [reflexivity |].
  change (last (y :: l) d = last (y :: l) d'). apply IH.
Qed.

Lemma sorted_last_latest (x : WorkOrder.t) (l : list WorkOrder.t) :
  StronglySorted created_le (x :: l) -> latest (last (x :: l) x) (x :: l).
Proof.
  revert x. induction l as [| y l IH]; intros x H.
  - split; [left; reflexivity |].
    constructor; [cbn; lia | constructor].
  - inversion H as [| ? ? Hl Hx]; subst.
    destruct (IH y Hl) as [Hin Hall].
    assert (Hlast : last (x :: y :: l) x = last (y :: l) y).
    { change (last (y :: l) x = last (y :: l) y).
      apply last_default_irrelevant. }
    rewrite Hlast. split; [right; exact Hin |].
    constructor; [| exact Hall].
    rewrite Forall_forall in Hx. apply (Hx _ Hin).
Qed.

Lemma earliest_perm (v : WorkOrder.t) (l l' : list WorkOrder.t) :
  Permutation l l' -> earliest v l -> earliest v l'.
Proof.
  intros Hp [Hin Hall]. split.
  - eapply Permutation_in; eassumption.
  - eapply Permutation_Forall; eassumption.
Qed.

Lemma latest_perm (v : WorkOrder.t) (l l' : list WorkOrder.t) :
  Permutation l l' -> latest v l -> latest v l'.
Proof.
  intros Hp [Hin Hall]. split.
  - eapply Permutation_in; eassumption.
  - eapply Permutation_Forall; eassumption.
Qed.

Lemma getitem_first {A} (x : A) (l : list A) : getitem (x :: l) 0 = Ok x.
Proof.
  unfold getitem. cbn [List.length Z.ltb Z.compare].
  rewrite Nat2Z.inj_succ.
  destruct (Z.ltb_spec 0 (Z.succ (Z.of_nat (List.length l)))); [| lia].
  reflexivity.
Qed.

Lemma nth_error_last {A} (x : A) (l : list A) :
  nth_error (x :: l) (List.length l) = Some (last (x :: l) x).
Proof.
  revert x. induction l as [| y l IH]; intros x; [reflexivity |].
  cbn [List.length nth_error]. rewrite IH.
  f_equal. change (last (y :: l) y = last (y :: l) x).
  apply last_default_irrelevant.
Qed.

Lemma getitem_last {A} (x : A) (l : list A) :
  getitem (x :: l) (-1) = Ok (last (x :: l) x).
Proof.
  unfold getitem. cbn [List.length]. rewrite Nat2Z.inj_succ.
  change (-1 <? 0) with true. cbv iota.
  replace (-1 + Z.succ (Z.of_nat (List.length l)))
    with (Z.of_nat (List.length l)) by lia.
  rewrite Nat2Z.id.
  destruct (Z.leb_spec 0 (Z.of_nat (List.length l))); [| lia].
  destruct (Z.ltb_spec (Z.of_nat (List.length l))
                       (Z.succ (Z.of_nat (List.length l)))); [| lia].
  cbn [andb]. rewrite nth_error_last. reflexivity.
Qed.

Lemma getitem_nil {A} (i : Z) : getitem (@nil A) i = Raise IndexError.
Proof.
  unfold getitem. cbn [List.length Z.of_nat].
  destruct (i <? 0) eqn:Ei.
  - destruct (Z.leb_spec 0 (i + 0)); [| reflexivity].
    destruct (Z.ltb_spec (i + 0) 0); [| reflexivity].
    apply Z.ltb_lt in Ei. lia.
  - destruct (Z.leb_spec 0 i); [| reflexivity].
    destruct (Z.ltb_spec i 0); [lia | reflexivity].
Qed.

Lemma days_between_bounds (t1 t2 : Z) :
  int64 t1 -> int64 t2 -> t1 <= t2 -> 0 <= days_between t1 t2 < 2 ^ 64.
Proof.
  unfold int64, days_between. intros H1 H2 Hle.
  assert (Hday : 0 < microseconds_per_day) by reflexivity.
  split.
  - apply Z.div_pos; lia.
  - apply Z.div_lt_upper_bound; [assumption |].
    change (2 ^ 63) with 9223372036854775808 in *.
    change (2 ^ 64) with 18446744073709551616.
    unfold microseconds_per_day. lia.
Qed.

Lemma max0_of_nonpositive (a b : Z) (f : float) :
  - 2 ^ 64 < a <= 0 -> 0 < b < 2 ^ 64 ->
  truediv a b = Ok f -> max0 f = Int 0.
Proof.
  intros Ha Hb Hdiv.
  destruct (Z.eq_dec a 0) as [-> | Hneg].
  - unfold truediv in Hdiv. destruct (Z.eqb_spec b 0); [lia |].
    destruct b; try lia. cbn in Hdiv. injection Hdiv as <-. reflexivity.
  - destruct (FloatFacts.truediv_ok a b) as [g [Hg Hbound]]; [lia | lia |].
    rewrite Hg in Hdiv. injection Hdiv as <-.
    assert (Hs : (a <? 0) = true) by (apply Z.ltb_lt; lia).
    rewrite Hs in Hbound.
    destruct g as [s | s | | s m e]; cbn [bounded_float] in Hbound;
      try contradiction.
    + subst s. reflexivity.
    + destruct Hbound as [-> _]. reflexivity.
Qed.

Lemma qualifying_has_mileage (car_id : Z) (o : WorkOrder.t) :
  qualifying car_id o = true ->
  exists m, WorkOrder.mileage_at_intake o = Some m.
Proof.
  unfold qualifying. intros H.
  apply andb_prop in H as [_ H].
  destruct (WorkOrder.mileage_at_intake o) as [m |]; [| discriminate].
  exists m. reflexivity.
Qed.

(** * The rate estimate *)

(** What the estimate is when there are enough visits: the shared core of
    the statements below. *)
Lemma rate_of_visits (settings : Settings) (car_id : Z) (w : World) :
  stored_in_range w ->
  let visits := filter (qualifying car_id) (work_orders w) in
  MIN_VISITS_FOR_PREDICTION settings <= Z.of_nat (List.length visits) ->
  visits <> [] ->
  exists first_visit last_visit first_km last_km,
    earliest first_visit visits
    /\ latest last_visit visits
    /\ WorkOrder.mileage_at_intake first_visit = Some first_km
    /\ WorkOrder.mileage_at_intake last_visit = Some last_km
    /\ let day_delta :=
         days_between (WorkOrder.created_at first_visit)
                      (WorkOrder.created_at last_visit) in
       0 <= day_delta < 2 ^ 64
       /\ - 2 ^ 64 < last_km - first_km < 2 ^ 64
       /\ (day_delta = 0 ->
           calculate_average_km_per_day settings car_id w = (Ok None, w))
       /\ (day_delta <> 0 ->
           exists rate,
             truediv (last_km - first_km) day_delta = Ok rate
             /\ bounded_float (last_km - first_km <? 0) 181 255 rate
             /\ calculate_average_km_per_day settings car_id w
                = (Ok (Some (max0 rate)), w)).
Proof.
  intros Hrange visits Hge Hne.
  pose proof (order_by_created_at_perm visits) as Hperm.
  pose proof (order_by_created_at_sorted visits) as Hsorted.
  assert (Hlen : List.length (order_by_created_at visits)
                 = List.length visits)
    by (apply Permutation_length, Hperm).
  unfold calculate_average_km_per_day, bind, query, qualifying_visits.
  fold visits. rewrite Hlen.
  destruct (Z.ltb_spec (Z.of_nat (List.length visits))
                       (MIN_VISITS_FOR_PREDICTION settings)); [lia |].
  destruct (order_by_created_at visits) as [| x l] eqn:Esorted.
  { apply Permutation_nil in Hperm. contradiction. }
  set (y := last (x :: l) x).
  pose proof (sorted_head_earliest x l Hsorted) as Hfirst.
  pose proof (sorted_last_latest x l Hsorted) as Hlast. fold y in Hlast.
  assert (Hx : In x visits)
    by (eapply Permutation_in; [exact Hperm | apply Hfirst]).
  assert (Hy : In y visits)
    by (eapply Permutation_in; [exact Hperm | apply Hlast]).
  assert (Hqx := Hx). assert (Hqy := Hy).
  unfold visits in Hqx, Hqy.
  apply filter_In in Hqx as [Hwx Hqx], Hqy as [Hwy Hqy].
  destruct (qualifying_has_mileage _ _ Hqx) as [first_km Hkx].
  destruct (qualifying_has_mileage _ _ Hqy) as [last_km Hky].
  unfold stored_in_range in Hrange. rewrite Forall_forall in Hrange.
  pose proof (Hrange _ Hwx) as [Htx Hmx].
  pose proof (Hrange _ Hwy) as [Hty Hmy].
  rewrite Hkx in Hmx. rewrite Hky in Hmy.
  assert (Hxy : WorkOrder.created_at x <= WorkOrder.created_at y).
  { destruct Hfirst as [_ Hall]. rewrite Forall_forall in Hall.
    apply Hall, Hlast. }
  pose proof (days_between_bounds _ _ Htx Hty Hxy) as Hdays.
  assert (Hdiff : - 2 ^ 64 < last_km - first_km < 2 ^ 64).
  { unfold int64 in *. change (2 ^ 63) with 9223372036854775808 in *.
    change (2 ^ 64) with 18446744073709551616. lia. }
  exists x, y, first_km, last_km.
  split; [eapply earliest_perm; eassumption |].
  split; [eapply latest_perm; eassumption |].
  split; [assumption |]. split; [assumption |].
  cbv zeta. split; [lia |]. split; [exact Hdiff |].
  unfold lift. rewrite getitem_first, getitem_last. fold y.
  unfold mileage_sub. rewrite Hkx, Hky. unfold ret.
  set (d := days_between (WorkOrder.created_at x) (WorkOrder.created_at y))
    in *.
  split.
  - intros ->. reflexivity.
  - intros Hd. destruct (Z.eqb_spec d 0); [contradiction |].
    destruct (FloatFacts.truediv_ok (last_km - first_km) d)
      as [rate [Hrate Hbound]]; [exact Hdiff | lia |].
    exists rate. rewrite Hrate. repeat split; assumption.
Qed.

Lemma calculate_below_minimum (settings : Settings) (car_id : Z) (w : World) :
  Z.of_nat (List.length (filter (qualifying car_id) (work_orders w)))
  < MIN_VISITS_FOR_PREDICTION settings ->
  calculate_average_km_per_day settings car_id w = (Ok None, w).
Proof.
  intros Hlt.
  unfold calculate_average_km_per_day, bind, query, qualifying_visits.
  rewrite (Permutation_length (order_by_created_at_perm _)).
  destruct (Z.ltb_spec
              (Z.of_nat (List.length (filter (qualifying car_id)
                                             (work_orders w))))
              (MIN_VISITS_FOR_PREDICTION settings)); [reflexivity | lia].
Qed.

Lemma calculate_no_visit (settings : Settings) (car_id : Z) (w : World) :
  MIN_VISITS_FOR_PREDICTION settings <= 0 ->
  filter (qualifying car_id) (work_orders w) = [] ->
  calculate_average_km_per_day settings car_id w = (Raise IndexError, w).
Proof.
  intros Hmin Hnil.
  unfold calculate_average_km_per_day, bind, query, qualifying_visits.
  rewrite Hnil. cbn [order_by_created_at fold_right List.length Z.of_nat].
  destruct (Z.ltb_spec 0 (MIN_VISITS_FOR_PREDICTION settings)); [lia |].
  unfold lift. rewrite getitem_nil. reflexivity.
Qed.

(** The filter of the query, written out. *)
Lemma qualifying_spelled_out (car_id : Z) (l : list WorkOrder.t) :
  filter (qualifying car_id) l
  = filter (fun o =>
              (WorkOrder.car_id o =? car_id)
              && match WorkOrder.status o with
                 | WorkOrderStatus.DONE => true
                 | _ => false
                 end
              && match WorkOrder.mileage_at_intake o with
                 | Some _ => true
                 | None => false
                 end) l.
Proof.
  apply filter_ext. intros o. unfold qualifying, is_some.
  destruct (WorkOrder.status o); reflexivity.
Qed.

Lemma max0_positive (m : positive) (e : Z) :
  max0 (S754_finite false m e) = Float (S754_finite false m e).
Proof. reflexivity. Qed.

(** C1. [calculate_average_km_per_day] returns [None] when the vehicle has
    fewer qualifying visits (this vehicle, status done, an odometer
    reading present) than the configured minimum, or when the whole-day
    difference between the earliest and the latest qualifying visit is 0.
    Otherwise the result is determined by the earliest and the latest
    qualifying visit alone: it is the [int] 0 when the odometer did not
    advance between them, and otherwise the double
    [(latest odometer - earliest odometer) / day delta], which is positive. *)
Theorem calculate_average_km_per_day_correct
        (settings : Settings) (car_id : Z) (w : World) :
  stored_in_range w ->
  let visits :=
    filter (fun o =>
              (WorkOrder.car_id o =? car_id)
              && match WorkOrder.status o with
                 | WorkOrderStatus.DONE => true
                 | _ => false
                 end
              && match WorkOrder.mileage_at_intake o with
                 | Some _ => true
                 | None => false
                 end)
           (work_orders w) in
  let count := Z.of_nat (List.length visits) in
  (count < MIN_VISITS_FOR_PREDICTION settings ->
   calculate_average_km_per_day settings car_id w = (Ok None, w))
  /\ (MIN_VISITS_FOR_PREDICTION settings <= count -> visits <> [] ->
      exists first_visit last_visit first_km last_km,
        earliest first_visit visits
        /\ latest last_visit visits
        /\ WorkOrder.mileage_at_intake first_visit = Some first_km
        /\ WorkOrder.mileage_at_intake last_visit = Some last_km
        /\ let day_delta :=
             (WorkOrder.created_at last_visit
              - WorkOrder.created_at first_visit) / 86400000000 in
           0 <= day_delta
           /\ (day_delta = 0 ->
               calculate_average_km_per_day settings car_id w = (Ok None, w))
           /\ (day_delta <> 0 -> last_km <= first_km ->
               calculate_average_km_per_day settings car_id w
               = (Ok (Some (Int 0)), w))
           /\ (day_delta <> 0 -> first_km < last_km ->
               exists m e,
                 truediv (last_km - first_km) day_delta
                 = Ok (S754_finite false m e)
                 /\ calculate_average_km_per_day settings car_id w
                    = (Ok (Some (Float (S754_finite false m e))), w))).
Proof.
  intros Hrange. rewrite <- qualifying_spelled_out. intros visits count.
  split.
  - apply calculate_below_minimum.
  - intros Hge Hne.
    destruct (rate_of_visits settings car_id w Hrange Hge Hne)
      as (x & y & first_km & last_km & Hx & Hy & Hkx & Hky & H).
    cbv zeta in H. destruct H as (Hd & Hdiff & Hzero & Hrate).
    exists x, y, first_km, last_km.
    repeat (split; [assumption |]).
    change ((WorkOrder.created_at y - WorkOrder.created_at x) / 86400000000)
      with (days_between (WorkOrder.created_at x) (WorkOrder.created_at y)).
    cbv zeta. split; [lia |]. split; [exact Hzero |]. split.
    + intros Hnz Hregress.
      destruct (Hrate Hnz) as (rate & Hdiv & _ & Hcalc).
      rewrite Hcalc.
      assert (Ha : - 2 ^ 64 < last_km - first_km <= 0) by lia.
      assert (Hb : 0 < days_between (WorkOrder.created_at x)
                                    (WorkOrder.created_at y) < 2 ^ 64) by lia.
      rewrite (max0_of_nonpositive _ _ rate Ha Hb Hdiv). reflexivity.
    + intros Hnz Hadvance.
      destruct (Hrate Hnz) as (rate & Hdiv & _ & Hcalc).
      destruct (FloatFacts.truediv_positive
                  (last_km - first_km)
                  (days_between (WorkOrder.created_at x)
                                (WorkOrder.created_at y)))
        as (m & e & Hpos); [lia | lia |].
      exists m, e. split; [exact Hpos |].
      rewrite Hcalc. rewrite Hpos in Hdiv. injection Hdiv as <-.
      reflexivity.
Qed.

(** ** The three estimator methods only read *)

Create HintDb readonly.

Lemma readonly_ret {A} (a : A) : readonly (ret a).
Proof. intros w. reflexivity. Qed.

Lemma readonly_raise {A} (e : exn) : readonly (@raise A e).
Proof. intros w. reflexivity. Qed.

Lemma readonly_lift {A} (r : result A) : readonly (lift r).
Proof. intros w. reflexivity. Qed.

Lemma readonly_query {A} (f : World -> A) : readonly (query f).
Proof. intros w. reflexivity. Qed.

Lemma readonly_bind {A B} (m : M A) (k : A -> M B) :
  readonly m -> (forall a, readonly (k a)) -> readonly (bind m k).
Proof.
  intros Hm Hk w. unfold bind. specialize (Hm w).
  destruct (m w) as [[a | e] w']; cbn [snd] in *; subst.
  - apply Hk.
  - reflexivity.
Qed.

#[local] Hint Resolve readonly_ret readonly_raise readonly_lift readonly_query
  readonly_bind : readonly.

Lemma readonly_calculate (settings : Settings) (car_id : Z) :
  readonly (calculate_average_km_per_day settings car_id).
Proof.
  unfold calculate_average_km_per_day.
  apply readonly_bind; [auto with readonly |]. intros l.
  destruct (_ <? _); [auto with readonly |].
  repeat (apply readonly_bind; [auto with readonly |]; intros ?).
  destruct (_ =? _); auto with readonly.
Qed.

Lemma readonly_predict (settings : Settings) (car_id days_ahead : Z) :
  readonly (predict_mileage settings car_id days_ahead).
Proof.
  unfold predict_mileage, get_car.
  apply readonly_bind; [auto with readonly |]. intros [car |];
    [| auto with readonly].
  apply readonly_bind; [apply readonly_calculate |]. intros [rate |];
    [| auto with readonly].
  repeat (apply readonly_bind; [auto with readonly |]; intros ?).
  destruct (Car.current_mileage car); auto with readonly.
Qed.

Lemma readonly_needs (settings : Settings) (car_id : Z) :
  readonly (needs_service_reminder settings car_id).
Proof.
  unfold needs_service_reminder, get_car.
  apply readonly_bind; [auto with readonly |]. intros [car |];
    [| auto with readonly].
  apply readonly_bind; [apply readonly_predict |]. intros [p |];
    [| auto with readonly].
  destruct (Car.current_mileage car); auto with readonly.
Qed.

(** ** The estimate is a small non-negative number *)

Lemma max0_bounded (s : bool) (D E : Z) (f : float) :
  bounded_float s D E f ->
  max0 f = Int 0 \/ (max0 f = Float f /\ bounded_float false D E f).
Proof.
  destruct f as [s' | s' | | s' m e]; cbn [bounded_float]; intros H;
    try contradiction.
  - left. destruct s'; reflexivity.
  - destruct H as [-> H]. destruct s.
    + left. reflexivity.
    + right. split; [reflexivity | split; [reflexivity | exact H]].
Qed.

Lemma calculate_result_in_range
      (settings : Settings) (car_id : Z) (w w' : World) (rate : num) :
  stored_in_range w ->
  calculate_average_km_per_day settings car_id w = (Ok (Some rate), w') ->
  rate_in_range rate.
Proof.
  intros Hrange Hcalc.
  set (visits := filter (qualifying car_id) (work_orders w)).
  destruct (Z_lt_ge_dec (Z.of_nat (List.length visits))
                        (MIN_VISITS_FOR_PREDICTION settings)) as [Hlt | Hge].
  - rewrite (calculate_below_minimum _ _ _ Hlt) in Hcalc. discriminate.
  - destruct visits as [| v vs] eqn:Ev.
    + rewrite calculate_no_visit in Hcalc; [discriminate | | exact Ev].
      cbn in Hge. lia.
    + destruct (rate_of_visits settings car_id w Hrange) as
        (x & y & first_km & last_km & _ & _ & _ & _ & H).
      { fold visits. rewrite Ev. lia. }
      { fold visits. rewrite Ev. discriminate. }
      cbv zeta in H. destruct H as (_ & _ & Hzero & Hrate).
      destruct (Z.eq_dec (days_between (WorkOrder.created_at x)
                                       (WorkOrder.created_at y)) 0)
        as [Hz | Hnz].
      * rewrite (Hzero Hz) in Hcalc. discriminate.
      * destruct (Hrate Hnz) as (q & _ & Hbound & Hq).
        rewrite Hq in Hcalc. injection Hcalc as <- _.
        destruct (max0_bounded _ _ _ _ Hbound) as [-> | [-> Hb]].
        -- left. reflexivity.
        -- right. exists q. split; [reflexivity | exact Hb].
Qed.

Lemma calculate_total (settings : Settings) (car_id : Z) (w : World) :
  stored_in_range w ->
  1 <= MIN_VISITS_FOR_PREDICTION settings ->
  exists r, calculate_average_km_per_day settings car_id w = (Ok r, w).
Proof.
  intros Hrange Hmin.
  set (visits := filter (qualifying car_id) (work_orders w)).
  destruct (Z_lt_ge_dec (Z.of_nat (List.length visits))
                        (MIN_VISITS_FOR_PREDICTION settings)) as [Hlt | Hge].
  - exists None. apply calculate_below_minimum. exact Hlt.
  - destruct (rate_of_visits settings car_id w Hrange) as
      (x & y & first_km & last_km & _ & _ & _ & _ & H).
    { fold visits. lia. }
    { fold visits. destruct visits; [cbn in Hge; lia | discriminate]. }
    cbv zeta in H. destruct H as (_ & _ & Hzero & Hrate).
    destruct (Z.eq_dec (days_between (WorkOrder.created_at x)
                                     (WorkOrder.created_at y)) 0)
      as [Hz | Hnz].
    + exists None. apply Hzero, Hz.
    + destruct (Hrate Hnz) as (q & _ & _ & Hq). eexists. exact Hq.
Qed.

Lemma mul_int_total (rate : num) (days_ahead : Z) :
  rate_in_range rate -> - 2 ^ 64 < days_ahead < 2 ^ 64 ->
  exists product,
    mul_int rate days_ahead = Ok product
    /\ int product = Ok (num_trunc product)
    /\ (0 <= days_ahead -> num_trunc product = num_floor product).
Proof.
  intros [-> | (f & -> & Hf)] Hdays.
  - eexists. split; [reflexivity |]. split; reflexivity.
  - destruct (FloatFacts.float_of_int_ok days_ahead Hdays) as (g & Hg & Hgb).
    pose proof (FloatFacts.SFmul_bounded _ _ _ _ Hf Hgb) as Hprod.
    exists (Float (SFmul prec emax f g)).
    cbn [mul_int int num_trunc num_floor]. rewrite Hg.
    split; [reflexivity |]. split.
    + eapply FloatFacts.int_of_float_bounded. exact Hprod.
    + intros Hpos.
      assert (Hs : (days_ahead <? 0) = false) by (apply Z.ltb_ge; lia).
      rewrite Hs in Hprod. cbn [xorb] in Hprod.
      eapply FloatFacts.trunc_floor_nonneg. exact Hprod.
Qed.

(** What [predict_mileage] does once the car and the rate are known. *)
Lemma predict_mileage_unfold
      (settings : Settings) (car_id days_ahead : Z) (w : World) :
  predict_mileage settings car_id days_ahead w
  = match find (fun c => Car.id c =? car_id) (cars w) with
    | None => (Ok None, w)
    | Some car =>
        match calculate_average_km_per_day settings car_id w with
        | (Ok None, w') => (Ok None, w')
        | (Ok (Some rate), w') =>
            match mul_int rate days_ahead with
            | Ok product =>
                match int product with
                | Ok increase =>
                    match Car.current_mileage car with
                    | Some current => (Ok (Some (current + increase)), w')
                    | None => (Raise TypeError, w')
                    end
                | Raise e => (Raise e, w')
                end
            | Raise e => (Raise e, w')
            end
        | (Raise e, w') => (Raise e, w')
        end
    end.
Proof.
  unfold predict_mileage, get_car, bind, query, lift, ret, raise.
  destruct (find _ (cars w)) as [car |]; [| reflexivity].
  destruct (calculate_average_km_per_day settings car_id w)
    as [[[rate |] | e] w']; try reflexivity.
  destruct (mul_int rate days_ahead); [| reflexivity].
  destruct (int _); [| reflexivity].
  destruct (Car.current_mileage car); reflexivity.
Qed.

(** A projection that is returned comes from a stored odometer. *)
Lemma predicted_has_odometer
      (settings : Settings) (car_id days_ahead : Z) (w w' : World)
      (car : Car.t) (predicted : Z) :
  find (fun c => Car.id c =? car_id) (cars w) = Some car ->
  predict_mileage settings car_id days_ahead w = (Ok (Some predicted), w') ->
  exists current, Car.current_mileage car = Some current.
Proof.
  intros Hfind. rewrite predict_mileage_unfold, Hfind.
  destruct (calculate_average_km_per_day settings car_id w)
    as [[[rate |] | e] w1]; try discriminate.
  destruct (mul_int rate days_ahead); [| discriminate].
  destruct (int _); [| discriminate].
  destruct (Car.current_mileage car) as [current |]; [| discriminate].
  intros _. exists current. reflexivity.
Qed.

Lemma predict_total (settings : Settings) (car_id days_ahead : Z) (w : World) :
  stored_in_range w ->
  1 <= MIN_VISITS_FOR_PREDICTION settings ->
  - 2 ^ 64 < days_ahead < 2 ^ 64 ->
  (forall car, find (fun c => Car.id c =? car_id) (cars w) = Some car ->
               Car.current_mileage car <> None) ->
  exists r, predict_mileage settings car_id days_ahead w = (Ok r, w).
Proof.
  intros Hrange Hmin Hdays Hodometer. rewrite predict_mileage_unfold.
  destruct (find _ (cars w)) as [car |]; [| eexists; reflexivity].
  specialize (Hodometer car eq_refl).
  destruct (calculate_total settings car_id w Hrange Hmin) as [r Hr].
  pose proof Hr as Hr'. rewrite Hr.
  destruct r as [rate |]; [| eexists; reflexivity].
  pose proof (calculate_result_in_range _ _ _ _ _ Hrange Hr') as Hin.
  destruct (mul_int_total rate days_ahead Hin Hdays) as (p & Hp & Hi & _).
  rewrite Hp, Hi.
  destruct (Car.current_mileage car); [eexists; reflexivity | contradiction].
Qed.

(** What [needs_service_reminder] does once the car and the projection
    are known. *)
Lemma needs_service_reminder_unfold
      (settings : Settings) (car_id : Z) (w : World) :
  needs_service_reminder settings car_id w
  = match find (fun c => Car.id c =? car_id) (cars w) with
    | None => (Ok (false, None, None), w)
    | Some car =>
        match predict_mileage settings car_id
                              (SERVICE_REMINDER_DAYS_AHEAD settings) w with
        | (Ok None, w') => (Ok (false, None, None), w')
        | (Ok (Some predicted), w') =>
            match Car.current_mileage car with
            | None => (Raise TypeError, w')
            | Some current =>
                match mod_ current (Car.service_interval_km car) with
                | Ok remainder =>
                    let due := current - remainder
                               + Car.service_interval_km car in
                    (Ok (predicted >=? due, Some predicted, Some due), w')
                | Raise e => (Raise e, w')
                end
            end
        | (Raise e, w') => (Raise e, w')
        end
    end.
Proof.
  unfold needs_service_reminder, get_car, bind, query, lift, ret, raise.
  destruct (find _ (cars w)) as [car |]; [| reflexivity].
  destruct (predict_mileage settings car_id _ w) as [[[p |] | e] w'];
    try reflexivity.
  destruct (Car.current_mileage car) as [current |]; [| reflexivity].
  destruct (mod_ current _); reflexivity.
Qed.

Ltac in_int64 :=
  unfold int64; vm_compute; split; [intros Hcmp; discriminate Hcmp | reflexivity].

Ltac visits_in_range :=
  unfold stored_in_range; cbn [work_orders];
  repeat (apply Forall_cons; [split; in_int64 |]); apply Forall_nil.

(** The vehicle of [ex_world]: 85000 at day 0 and 95000 at day 60 give
    10000 / 60, the double nearest to 166.67. *)
Lemma calculate_average_km_per_day_correct_witness :
  stored_in_range (ex_world 95000)
  /\ calculate_average_km_per_day default_settings 1 (ex_world 95000)
     = (Ok (Some (Float (S754_finite false 5864062014805333 (-45)))),
        ex_world 95000).
Proof.
  assert (Hrange : stored_in_range (ex_world 95000)) by visits_in_range.
  split; [exact Hrange |].
  destruct (calculate_average_km_per_day_correct
              default_settings 1 (ex_world 95000) Hrange) as [_ H].
  destruct H as (x & y & a & b & Hx & Hy & Ha & Hb & _ & _ & _ & Hrate).
  - vm_compute. intros Hcmp; discriminate Hcmp.
  - discriminate.
  - destruct Hx as [Hx Hfirst], Hy as [Hy Hlast].
    cbn in Hx, Hy, Hfirst, Hlast.
    apply Forall_cons_iff in Hfirst as [Hfirst _].
    apply Forall_cons_iff in Hlast as [_ Hlast].
    apply Forall_cons_iff in Hlast as [Hlast _].
    destruct Hx as [<- | [<- | []]];
      [| exfalso; vm_compute in Hfirst; apply Hfirst; reflexivity].
    destruct Hy as [<- | [<- | []]];
      [exfalso; vm_compute in Hlast; apply Hlast; reflexivity |].
    cbn in Ha, Hb. injection Ha as <-. injection Hb as <-.
    destruct Hrate as (m & e & Hdiv & Hcalc).
    + vm_compute. discriminate.
    + vm_compute. reflexivity.
    + rewrite Hcalc. vm_compute in Hdiv. injection Hdiv as <- <-.
      reflexivity.
Defined.

(** * The projection and the due test *)

(** C3, as the code has it.  For a day count in the 64-bit range (and
    stored values in range), [predict_mileage] returns [None] when the
    vehicle is not found or when the rate estimate is [None]; otherwise it
    returns the current odometer plus the integer part of the
    double-precision product [rate * days_ahead], rounded toward zero by
    [int()].  For [days_ahead >= 0] that integer part is the floor of the
    product.  (A vehicle whose odometer column is NULL has no current
    odometer: the sum raises [TypeError].) *)
Theorem predict_mileage_correct
        (settings : Settings) (car_id days_ahead : Z) (w : World) :
  stored_in_range w ->
  int64 days_ahead ->
  (find (fun c => Car.id c =? car_id) (cars w) = None ->
   predict_mileage settings car_id days_ahead w = (Ok None, w))
  /\ (forall car,
         find (fun c => Car.id c =? car_id) (cars w) = Some car ->
         (calculate_average_km_per_day settings car_id w = (Ok None, w) ->
          predict_mileage settings car_id days_ahead w = (Ok None, w))
         /\ (forall rate,
                calculate_average_km_per_day settings car_id w
                = (Ok (Some rate), w) ->
                exists product,
                  mul_int rate days_ahead = Ok product
                  /\ match Car.current_mileage car with
                     | Some current =>
                         predict_mileage settings car_id days_ahead w
                         = (Ok (Some (current + num_trunc product)), w)
                         /\ (0 <= days_ahead ->
                             predict_mileage settings car_id days_ahead w
                             = (Ok (Some (current + num_floor product)), w))
                     | None =>
                         predict_mileage settings car_id days_ahead w
                         = (Raise TypeError, w)
                     end)).
Proof.
  intros Hrange Hdays. split.
  - intros Hfind. rewrite predict_mileage_unfold, Hfind. reflexivity.
  - intros car Hfind. split.
    + intros Hcalc. rewrite predict_mileage_unfold, Hfind, Hcalc.
      reflexivity.
    + intros rate Hcalc.
      pose proof (calculate_result_in_range _ _ _ _ _ Hrange Hcalc) as Hin.
      destruct (mul_int_total rate days_ahead Hin) as (p & Hp & Hi & Hfl).
      { unfold int64 in Hdays.
        change (2 ^ 63) with 9223372036854775808 in Hdays.
        change (2 ^ 64) with 18446744073709551616. lia. }
      exists p. split; [exact Hp |].
      rewrite predict_mileage_unfold, Hfind, Hcalc, Hp, Hi.
      destruct (Car.current_mileage car) as [current |]; [| reflexivity].
      split; [reflexivity |].
      intros Hpos. rewrite (Hfl Hpos). reflexivity.
Qed.

Lemma predict_mileage_correct_witness :
  stored_in_range (ex_world 95000)
  /\ int64 14
  /\ predict_mileage default_settings 1 14 (ex_world 95000)
     = (Ok (Some 97333), ex_world 95000).
Proof.
  assert (Hrange : stored_in_range (ex_world 95000)) by visits_in_range.
  assert (Hdays : int64 14) by in_int64.
  split; [exact Hrange |]. split; [exact Hdays |].
  destruct (predict_mileage_correct default_settings 1 14 (ex_world 95000)
                                    Hrange Hdays) as [_ H].
  destruct (H (ex_car 95000) eq_refl) as [_ Hrate].
  destruct (Hrate (Float (S754_finite false 5864062014805333 (-45))))
    as (product & Hprod & Hsum).
  - vm_compute. reflexivity.
  - cbn [Car.current_mileage ex_car] in Hsum. destruct Hsum as [_ Hfloor].
    rewrite Hfloor by (vm_compute; intros Hcmp; discriminate Hcmp).
    vm_compute in Hprod. injection Hprod as <-. reflexivity.
Defined.

(** C3 as stated fails for a negative day count: with a rate of 0.5 per
    day and [days_ahead = -1] the product is -0.5, whose floor is -1, but
    [int()] rounds it to 0. *)
Lemma predict_mileage_floor_counterexample :
  exists car current rate product,
    find (fun c => Car.id c =? 1) (cars ex_slow_world) = Some car
    /\ Car.current_mileage car = Some current
    /\ calculate_average_km_per_day default_settings 1 ex_slow_world
       = (Ok (Some rate), ex_slow_world)
    /\ mul_int rate (-1) = Ok product
    /\ num_floor product = -1
    /\ predict_mileage default_settings 1 (-1) ex_slow_world
       = (Ok (Some current), ex_slow_world)
    /\ fst (predict_mileage default_settings 1 (-1) ex_slow_world)
       <> Ok (Some (current + num_floor product)).
Proof.
  exists (ex_car 85001), 85001,
         (Float (S754_finite false 4503599627370496 (-53))),
         (Float (S754_finite true 4503599627370496 (-53))).
  repeat split; try (vm_compute; reflexivity).
  vm_compute. intros H. discriminate H.
Qed.

(** C2. For a vehicle with a positive service interval,
    [needs_service_reminder] returns [(False, None, None)] when the vehicle
    is not found or when the projection is [None]; otherwise the threshold
    is [(current - current mod interval) + interval], the projection is
    the one for the configured horizon, and the vehicle is due exactly
    when the projection has reached the threshold. *)
Theorem needs_service_reminder_correct
        (settings : Settings) (car_id : Z) (w : World) :
  (find (fun c => Car.id c =? car_id) (cars w) = None ->
   needs_service_reminder settings car_id w = (Ok (false, None, None), w))
  /\ (forall car,
         find (fun c => Car.id c =? car_id) (cars w) = Some car ->
         0 < Car.service_interval_km car ->
         (predict_mileage settings car_id
                          (SERVICE_REMINDER_DAYS_AHEAD settings) w
          = (Ok None, w) ->
          needs_service_reminder settings car_id w
          = (Ok (false, None, None), w))
         /\ (forall predicted,
                predict_mileage settings car_id
                                (SERVICE_REMINDER_DAYS_AHEAD settings) w
                = (Ok (Some predicted), w) ->
                exists current,
                  Car.current_mileage car = Some current
                  /\ let threshold :=
                       current - current mod Car.service_interval_km car
                       + Car.service_interval_km car in
                     exists due,
                       needs_service_reminder settings car_id w
                       = (Ok (due, Some predicted, Some threshold), w)
                       /\ (due = true <-> predicted >= threshold))).
Proof.
  split.
  - intros Hfind. rewrite needs_service_reminder_unfold, Hfind. reflexivity.
  - intros car Hfind Hpos. split.
    + intros Hp. rewrite needs_service_reminder_unfold, Hfind, Hp.
      reflexivity.
    + intros predicted Hp.
      destruct (predicted_has_odometer _ _ _ _ _ _ _ Hfind Hp)
        as [current Hcurrent].
      exists current. split; [exact Hcurrent |]. intros threshold.
      exists (predicted >=? threshold). split.
      * rewrite needs_service_reminder_unfold, Hfind, Hp, Hcurrent.
        unfold mod_.
        destruct (Z.eqb_spec (Car.service_interval_km car) 0); [lia |].
        reflexivity.
      * rewrite Z.geb_le. lia.
Qed.

Lemma needs_service_reminder_correct_witness :
  0 < Car.service_interval_km (ex_car 99000)
  /\ needs_service_reminder default_settings 1 (ex_world 99000)
     = (Ok (true, Some 101333, Some 100000), ex_world 99000).
Proof.
  assert (Hpos : 0 < Car.service_interval_km (ex_car 99000)) by reflexivity.
  split; [exact Hpos |].
  destruct (needs_service_reminder_correct default_settings 1
                                           (ex_world 99000)) as [_ H].
  destruct (H (ex_car 99000) eq_refl Hpos) as [_ Hdue].
  destruct (Hdue 101333) as (current & Hcurrent & due & Hneeds & Hiff).
  - vm_compute. reflexivity.
  - injection Hcurrent as <-. rewrite Hneeds.
    assert (Hd : due = true)
      by (apply Hiff; vm_compute; intros Hcmp; discriminate Hcmp).
    rewrite Hd. reflexivity.
Defined.

(** ** When the estimator raises, and when it does not *)

Lemma needs_total (settings : Settings) (car_id : Z) (w : World) :
  stored_in_range w ->
  1 <= MIN_VISITS_FOR_PREDICTION settings ->
  int64 (SERVICE_REMINDER_DAYS_AHEAD settings) ->
  (forall car, find (fun c => Car.id c =? car_id) (cars w) = Some car ->
               0 < Car.service_interval_km car
               /\ Car.current_mileage car <> None) ->
  exists r, needs_service_reminder settings car_id w = (Ok r, w).
Proof.
  intros Hrange Hmin Hhorizon Hcar.
  rewrite needs_service_reminder_unfold.
  destruct (find _ (cars w)) as [car |] eqn:Hfind;
    [| eexists; reflexivity].
  destruct (Hcar car eq_refl) as [Hinterval Hodometer].
  destruct (predict_total settings car_id
              (SERVICE_REMINDER_DAYS_AHEAD settings) w Hrange Hmin)
    as [r Hr].
  { unfold int64 in Hhorizon.
    change (2 ^ 63) with 9223372036854775808 in Hhorizon.
    change (2 ^ 64) with 18446744073709551616. lia. }
  { intros car0 Hcar0. rewrite Hfind in Hcar0. injection Hcar0 as <-.
    exact Hodometer. }
  rewrite Hr. destruct r as [p |]; [| eexists; reflexivity].
  destruct (Car.current_mileage car) as [current |]; [| contradiction].
  unfold mod_.
  destruct (Z.eqb_spec (Car.service_interval_km car) 0); [lia |].
  eexists; reflexivity.
Qed.

(** C8.  The claim does not hold of the code.  A vehicle with a positive
    service interval and two completed visits, whose odometer column is
    NULL (an update request with [current_mileage] null stores that), has
    a rate estimate, but [predict_mileage] and [needs_service_reminder]
    raise [TypeError] on it instead of returning [None]; and with a
    configured minimum of 0 a vehicle without visits makes
    [calculate_average_km_per_day] raise [IndexError]. *)
Theorem estimator_raises_on_null_odometer :
  (exists car rate,
      find (fun c => Car.id c =? 1) (cars ex_null_odometer_world) = Some car
      /\ 0 < Car.service_interval_km car
      /\ Car.current_mileage car = None
      /\ calculate_average_km_per_day default_settings 1
                                      ex_null_odometer_world
         = (Ok (Some rate), ex_null_odometer_world))
  /\ predict_mileage default_settings 1 14 ex_null_odometer_world
     = (Raise TypeError, ex_null_odometer_world)
  /\ needs_service_reminder default_settings 1 ex_null_odometer_world
     = (Raise TypeError, ex_null_odometer_world)
  /\ calculate_average_km_per_day ex_settings_no_minimum 1 ex_no_visit_world
     = (Raise IndexError, ex_no_visit_world).
Proof.
  split; [| repeat split; vm_compute; reflexivity].
  eexists. eexists. repeat split; vm_compute; reflexivity.
Qed.

(** * Single-row updates *)

Lemma update_first_none {A} (p : A -> bool) (f : A -> A) (l : list A) :
  find p l = None -> update_first p f l = l.
Proof.
  induction l as [| x l IH]; cbn [find update_first]; [reflexivity |].
  destruct (p x); [discriminate |]. intros H. rewrite IH by exact H.
  reflexivity.
Qed.

Lemma update_first_some {A} (p : A -> bool) (f : A -> A) (l : list A)
      (r : A) :
  find p l = Some r ->
  exists before after,
    l = before ++ r :: after
    /\ Forall (fun x => p x = false) before
    /\ p r = true
    /\ update_first p f l = before ++ f r :: after.
Proof.
  induction l as [| x l IH]; cbn [find update_first]; [discriminate |].
  destruct (p x) eqn:Epx.
  - intros H. injection H as <-. exists [], l. repeat split; auto.
  - intros H. destruct (IH H) as (before & after & -> & Hb & Hr & Hu).
    exists (x :: before), after. rewrite Hu. repeat split; auto.
Qed.

(** C10. [mark_reminder_sent] with an id that matches no stored record
    changes nothing and raises nothing; with a matching record it sets that
    record's sent flag and sent timestamp and leaves the record's other
    fields, all other records and all other tables as they were. *)
Theorem mark_reminder_sent_frame (reminder_id : Z) (w : World) :
  (find (fun r => ServiceReminder.id r =? reminder_id) (service_reminders w)
   = None ->
   mark_reminder_sent reminder_id w = (Ok tt, w))
  /\ (forall r,
         find (fun r => ServiceReminder.id r =? reminder_id)
              (service_reminders w) = Some r ->
         exists before after r',
           service_reminders w = before ++ r :: after
           /\ Forall (fun x => ServiceReminder.id x <> reminder_id) before
           /\ mark_reminder_sent reminder_id w
              = (Ok tt, set_service_reminders (before ++ r' :: after) w)
           /\ ServiceReminder.reminder_sent r' = true
           /\ ServiceReminder.reminder_sent_at r' = Some (clock w)
           /\ ServiceReminder.id r' = ServiceReminder.id r
           /\ ServiceReminder.car_id r' = ServiceReminder.car_id r
           /\ ServiceReminder.customer_id r' = ServiceReminder.customer_id r
           /\ ServiceReminder.predicted_mileage r'
              = ServiceReminder.predicted_mileage r
           /\ ServiceReminder.service_due_mileage r'
              = ServiceReminder.service_due_mileage r
           /\ ServiceReminder.created_at r' = ServiceReminder.created_at r).
Proof.
  unfold mark_reminder_sent, bind, utcnow, query, update, ret. split.
  - intros Hfind. rewrite Hfind. reflexivity.
  - intros r Hfind. rewrite Hfind.
    destruct (update_first_some _ (set_sent (clock w)) _ _ Hfind)
      as (before & after & Hsplit & Hbefore & _ & Hupd).
    exists before, after, (set_sent (clock w) r).
    split; [exact Hsplit |]. split.
    { eapply Forall_impl; [| exact Hbefore]. cbv beta.
      intros x Hx Heq. rewrite Heq, Z.eqb_refl in Hx. discriminate. }
    cbv beta. rewrite Hupd. repeat split; reflexivity.
Qed.

Lemma storable_int64 (z : Z) : storable z = true <-> int64 z.
Proof.
  unfold storable, int64. rewrite andb_true_iff, Z.leb_le, Z.ltb_lt.
  reflexivity.
Qed.

Lemma storable_not_int64 (z : Z) : storable z = false <-> ~ int64 z.
Proof.
  rewrite <- storable_int64. destruct (storable z); split; intros H.
  - discriminate.
  - exfalso. apply H. reflexivity.
  - discriminate.
  - reflexivity.
Qed.

(** [update_car_mileage], case by case. *)
Lemma update_car_mileage_unfold (car_id new_mileage : Z) (w : World) :
  update_car_mileage car_id new_mileage w
  = match find (fun c => Car.id c =? car_id) (cars w) with
    | None => (Ok tt, w)
    | Some car =>
        match Car.current_mileage car with
        | None => (Raise TypeError, w)
        | Some current =>
            if current <? new_mileage
            then if storable new_mileage
                 then (Ok tt,
                       set_cars
                         (update_first (fun c => Car.id c =? car_id)
                                       (set_mileage new_mileage (clock w))
                                       (cars w)) w)
                 else (Raise OverflowError, w)
            else (Ok tt, w)
        end
    end.
Proof.
  unfold update_car_mileage, get_car, bind, query, lift, gt_optional, utcnow,
    commit, update, raise, ret.
  destruct (find _ (cars w)) as [car |]; [| reflexivity].
  destruct (Car.current_mileage car) as [current |]; [| reflexivity].
  destruct (current <? new_mileage); [| reflexivity].
  cbn [forallb]. destruct (storable new_mileage); reflexivity.
Qed.

Lemma odometer_le_refl (l : list Car.t) :
  Forall2 (fun c c' =>
             Car.id c' = Car.id c
             /\ odometer_le (Car.current_mileage c) (Car.current_mileage c'))
          l l.
Proof.
  induction l as [| c l IH]; constructor; [| exact IH].
  split; [reflexivity |]. unfold odometer_le.
  destruct (Car.current_mileage c); [lia | exact I].
Qed.

(** C9. [update_car_mileage] never lowers a stored odometer reading: it
    changes the vehicle only when the reported value is strictly greater
    than the stored one (and the store can hold it), and otherwise leaves
    everything as it was, whether it returns or raises. *)
Theorem update_car_mileage_monotone (car_id new_mileage : Z) (w : World) :
  let run := update_car_mileage car_id new_mileage w in
  Forall2 (fun c c' =>
             Car.id c' = Car.id c
             /\ odometer_le (Car.current_mileage c) (Car.current_mileage c'))
          (cars w) (cars (snd run))
  /\ (find (fun c => Car.id c =? car_id) (cars w) = None -> run = (Ok tt, w))
  /\ (forall car,
         find (fun c => Car.id c =? car_id) (cars w) = Some car ->
         match Car.current_mileage car with
         | None => run = (Raise TypeError, w)
         | Some current =>
             (new_mileage <= current -> run = (Ok tt, w))
             /\ (current < new_mileage -> ~ int64 new_mileage ->
                 run = (Raise OverflowError, w))
             /\ (current < new_mileage -> int64 new_mileage ->
                 exists before after car',
                   cars w = before ++ car :: after
                   /\ Forall (fun x => Car.id x <> car_id) before
                   /\ run = (Ok tt, set_cars (before ++ car' :: after) w)
                   /\ Car.current_mileage car' = Some new_mileage
                   /\ Car.updated_at car' = clock w
                   /\ Car.id car' = Car.id car
                   /\ Car.shop_id car' = Car.shop_id car
                   /\ Car.owner_id car' = Car.owner_id car
                   /\ Car.make car' = Car.make car
                   /\ Car.model car' = Car.model car
                   /\ Car.license_plate car' = Car.license_plate car
                   /\ Car.service_interval_km car'
                      = Car.service_interval_km car)
         end).
Proof.
  cbv zeta. rewrite update_car_mileage_unfold.
  destruct (find (fun c => Car.id c =? car_id) (cars w)) as [car |] eqn:Hfind.
  2: { split; [apply odometer_le_refl |]. split; [reflexivity |].
       intros car0 Hcar0. discriminate. }
  destruct (Car.current_mileage car) as [current |] eqn:Hcurrent.
  2: { split; [apply odometer_le_refl |]. split; [discriminate |].
       intros car0 Hcar0. injection Hcar0 as <-. rewrite Hcurrent.
       reflexivity. }
  destruct (Z.ltb_spec current new_mileage) as [Hlt | Hge].
  2: { split; [apply odometer_le_refl |]. split; [discriminate |].
       intros car0 Hcar0. injection Hcar0 as <-. rewrite Hcurrent.
       split; [reflexivity |]. split; intros; lia. }
  destruct (storable new_mileage) eqn:Hfits.
  - apply storable_int64 in Hfits.
    destruct (update_first_some _ (set_mileage new_mileage (clock w)) _ _
                                Hfind)
      as (before & after & Hsplit & Hbefore & _ & Hupd).
    rewrite Hupd. cbn [snd cars set_cars]. split.
    { rewrite Hsplit at 1.
      apply Forall2_app; [apply odometer_le_refl |].
      constructor; [| apply odometer_le_refl].
      cbn. rewrite Hcurrent. split; [reflexivity | cbn; lia]. }
    split; [discriminate |].
    intros car0 Hcar0. injection Hcar0 as <-. rewrite Hcurrent.
    split; [intros; lia |]. split; [intros _ Hno; contradiction |].
    intros _ _. exists before, after, (set_mileage new_mileage (clock w) car).
    split; [exact Hsplit |]. split.
    { eapply Forall_impl; [| exact Hbefore]. cbv beta.
      intros x Hx Heq. rewrite Heq, Z.eqb_refl in Hx. discriminate. }
    repeat split; reflexivity.
  - apply storable_not_int64 in Hfits.
    split; [apply odometer_le_refl |]. split; [discriminate |].
    intros car0 Hcar0. injection Hcar0 as <-. rewrite Hcurrent.
    split; [intros; lia |]. split; [reflexivity |].
    intros _ Hyes. contradiction.
Qed.

(** * The sweep of a shop *)

Lemma set_service_reminders_same (w : World) :
  set_service_reminders (service_reminders w) w = w.
Proof. destruct w; reflexivity. Qed.

(** The loop body, case by case. *)
Lemma reminder_loop_body_unfold
      (settings : Settings) (car : Car.t) (acc : list ReminderItem)
      (w : World) :
  reminder_loop_body settings car acc w
  = match find (recently_sent (Car.id car) (clock w))
               (service_reminders w) with
    | Some _ => (Ok acc, w)
    | None =>
        match fst (needs_service_reminder settings (Car.id car) w) with
        | Raise e => (Raise e, w)
        | Ok (false, _, _) => (Ok acc, w)
        | Ok (true, predicted_km, service_due_km) =>
            match find (unsent_for (Car.id car)) (service_reminders w) with
            | Some reminder =>
                (Ok (acc ++ [mkItem car (owner_of car w) predicted_km
                                    service_due_km
                                    (ServiceReminder.id reminder)]), w)
            | None =>
                match predicted_km, service_due_km with
                | Some p, Some d =>
                    if storable p && storable d
                    then
                      (Ok (acc ++ [mkItem car (owner_of car w) predicted_km
                                          service_due_km
                                          (ServiceReminder.id
                                             (new_reminder car p d w))]),
                       set_service_reminders
                         (service_reminders w ++ [new_reminder car p d w]) w)
                    else (Raise OverflowError, w)
                | _, _ => (Raise IntegrityError, w)
                end
            end
        end
    end.
Proof.
  unfold reminder_loop_body, bind, utcnow, query.
  destruct (find (recently_sent _ _) _); [reflexivity |].
  pose proof (readonly_needs settings (Car.id car) w) as Hro.
  destruct (needs_service_reminder settings (Car.id car) w)
    as [[[[needs p] d] | e] w1].
  2: { cbn [fst snd] in *. subst. reflexivity. }
  cbn [fst snd] in *. subst w1. destruct needs; [| reflexivity].
  destruct (find (unsent_for _) _); [reflexivity |].
  destruct p as [p |]; [| reflexivity].
  destruct d as [d |]; [| reflexivity].
  unfold add_reminder, bind, utcnow, query, commit, update, raise, ret.
  cbn [forallb]. rewrite andb_true_r.
  destruct (storable p && storable d); reflexivity.
Qed.

(** What one turn of the loop does to the world: nothing, or it appends
    one unsent record for a vehicle that had none. *)
Lemma reminder_loop_body_effect
      (settings : Settings) (car : Car.t) (acc : list ReminderItem)
      (w : World) :
  snd (reminder_loop_body settings car acc w) = w
  \/ exists r,
       snd (reminder_loop_body settings car acc w)
       = set_service_reminders (service_reminders w ++ [r]) w
       /\ unsent_for (Car.id car) r = true
       /\ find (unsent_for (Car.id car)) (service_reminders w) = None.
Proof.
  rewrite reminder_loop_body_unfold.
  destruct (find (recently_sent _ _) _); [left; reflexivity |].
  destruct (fst (needs_service_reminder settings (Car.id car) w))
    as [[[[|] p] d] | e]; try (left; reflexivity).
  destruct (find (unsent_for _) _) eqn:Hfind; [left; reflexivity |].
  destruct p as [p |]; [| left; reflexivity].
  destruct d as [d |]; [| left; reflexivity].
  destruct (storable p && storable d); [| left; reflexivity].
  right. exists (new_reminder car p d w). cbn [snd].
  split; [reflexivity |]. split; [| reflexivity].
  unfold unsent_for, new_reminder. cbn. rewrite Z.eqb_refl. reflexivity.
Qed.

Lemma for_each_invariant {A B} (P : World -> Prop) (body : A -> B -> M B) :
  (forall x acc w, P w -> P (snd (body x acc w))) ->
  forall xs acc w, P w -> P (snd (for_each xs body acc w)).
Proof.
  intros Hbody. induction xs as [| x xs IH]; intros acc w Hw;
    cbn [for_each].
  - exact Hw.
  - unfold bind. specialize (Hbody x acc w Hw).
    destruct (body x acc w) as [[acc' | e] w']; cbn [snd] in *.
    + apply IH, Hbody.
    + exact Hbody.
Qed.

Lemma for_each_result {A B} (I : B -> World -> Prop) (body : A -> B -> M B) :
  (forall x acc w acc' w',
      I acc w -> body x acc w = (Ok acc', w') -> I acc' w') ->
  forall xs acc w r w',
    I acc w -> for_each xs body acc w = (Ok r, w') -> I r w'.
Proof.
  intros Hbody. induction xs as [| x xs IH]; intros acc w r w' Hacc Hrun;
    cbn [for_each] in Hrun.
  - unfold ret in Hrun. injection Hrun as <- <-. exact Hacc.
  - unfold bind in Hrun.
    destruct (body x acc w) as [[acc' | e] w1] eqn:Hb; [| discriminate].
    eapply IH; [| exact Hrun]. eapply Hbody; eassumption.
Qed.

Lemma find_none_filter {A} (p : A -> bool) (l : list A) :
  find p l = None -> filter p l = [].
Proof.
  induction l as [| x l IH]; cbn [find filter]; [reflexivity |].
  destruct (p x); [discriminate | exact IH].
Qed.

Lemma find_some_filter {A} (p : A -> bool) (l : list A) (x : A) :
  find p l = Some x -> exists tl, filter p l = x :: tl.
Proof.
  induction l as [| y l IH]; cbn [find filter]; [discriminate |].
  destruct (p y) eqn:Ey.
  - intros H. injection H as <-. eexists; reflexivity.
  - exact IH.
Qed.

Lemma find_app_some {A} (p : A -> bool) (l l' : list A) (x : A) :
  find p l = Some x -> find p (l ++ l') = Some x.
Proof.
  induction l as [| y l IH]; cbn [find app]; [discriminate |].
  destruct (p y); [trivial | exact IH].
Qed.

Lemma find_In_some {A} (p : A -> bool) (l : list A) (x : A) :
  In x l -> p x = true -> exists y, find p l = Some y.
Proof.
  induction l as [| z l IH]; cbn [find In]; [contradiction |].
  intros [-> | Hin] Hp.
  - rewrite Hp. eexists; reflexivity.
  - destruct (p z); [eexists; reflexivity | apply IH; assumption].
Qed.

Lemma unsent_for_car (c : Z) (r : ServiceReminder.t) :
  unsent_for c r = true ->
  ServiceReminder.car_id r = c /\ ServiceReminder.reminder_sent r = false.
Proof.
  unfold unsent_for. intros H. apply andb_prop in H as [Hc Hs].
  apply Z.eqb_eq in Hc. apply negb_true_iff in Hs. split; assumption.
Qed.

Lemma unsent_for_other (c c' : Z) (r : ServiceReminder.t) :
  unsent_for c r = true -> c' <> c -> unsent_for c' r = false.
Proof.
  intros H Hne. apply unsent_for_car in H as [Hc _].
  unfold unsent_for. destruct (Z.eqb_spec (ServiceReminder.car_id r) c');
    [congruence | reflexivity].
Qed.

(** Appending an unsent record for a vehicle that had none keeps the
    invariant. *)
Lemma at_most_one_unsent_append (w : World) (c : Z) (r : ServiceReminder.t) :
  at_most_one_unsent w ->
  unsent_for c r = true ->
  find (unsent_for c) (service_reminders w) = None ->
  at_most_one_unsent (set_service_reminders (service_reminders w ++ [r]) w).
Proof.
  intros Hinv Hr Hnone c'. cbn [service_reminders set_service_reminders].
  rewrite filter_app, length_app. cbn [filter].
  destruct (Z.eq_dec c' c) as [-> | Hne].
  - rewrite (find_none_filter _ _ Hnone), Hr. cbn. lia.
  - rewrite (unsent_for_other _ _ _ Hr Hne). cbn [List.length].
    specialize (Hinv c'). lia.
Qed.

Lemma reminder_loop_body_keeps_invariant
      (settings : Settings) (car : Car.t) (acc : list ReminderItem)
      (w : World) :
  at_most_one_unsent w ->
  at_most_one_unsent (snd (reminder_loop_body settings car acc w)).
Proof.
  intros Hinv.
  destruct (reminder_loop_body_effect settings car acc w)
    as [-> | (r & -> & Hr & Hnone)]; [exact Hinv |].
  eapply at_most_one_unsent_append; eassumption.
Qed.

Lemma sweep_keeps_invariant (settings : Settings) (shop_id : Z) (w : World) :
  at_most_one_unsent w ->
  at_most_one_unsent (snd (check_all_cars_for_reminders settings shop_id w)).
Proof.
  intros Hinv. unfold check_all_cars_for_reminders, bind, query.
  apply for_each_invariant; [| exact Hinv].
  intros x acc w0. apply reminder_loop_body_keeps_invariant.
Qed.

Lemma set_sent_not_unsent (c now : Z) (r : ServiceReminder.t) :
  unsent_for c (set_sent now r) = false.
Proof. unfold unsent_for. cbn. apply andb_false_r. Qed.

Lemma mark_keeps_invariant (reminder_id : Z) (w : World) :
  at_most_one_unsent w ->
  at_most_one_unsent (snd (mark_reminder_sent reminder_id w)).
Proof.
  intros Hinv.
  unfold mark_reminder_sent, bind, utcnow, query, update, ret.
  destruct (find _ (service_reminders w)) as [r |] eqn:Hfind;
    [| exact Hinv].
  cbn [snd].
  destruct (update_first_some _ (set_sent (clock w)) _ _ Hfind)
    as (before & after & Hsplit & _ & _ & Hupd).
  rewrite Hupd. intros c. specialize (Hinv c). rewrite Hsplit in Hinv.
  cbn [service_reminders set_service_reminders].
  rewrite filter_app, length_app in *. cbn [filter] in *.
  rewrite set_sent_not_unsent.
  destruct (unsent_for c r); cbn [List.length] in *; lia.
Qed.

Lemma find_app_none {A} (p : A -> bool) (l l' : list A) :
  find p (l ++ l') = None -> find p l = None.
Proof.
  intros H. destruct (find p l) as [x |] eqn:E; [| reflexivity].
  rewrite (find_app_some _ _ l' _ E) in H. discriminate.
Qed.

Lemma find_app_new {A} (p : A -> bool) (l : list A) (x : A) :
  find p l = None -> p x = true -> find p (l ++ [x]) = Some x.
Proof.
  induction l as [| y l IH]; cbn [find app]; intros Hnone Hx.
  - rewrite Hx. reflexivity.
  - destruct (p y); [discriminate | apply IH; assumption].
Qed.

(** What one turn of the loop adds to [cars_needing_reminders]. *)
Lemma reminder_loop_body_item
      (settings : Settings) (car : Car.t) (acc acc' : list ReminderItem)
      (w w' : World) :
  reminder_loop_body settings car acc w = (Ok acc', w') ->
  acc' = acc
  \/ exists it r,
       acc' = acc ++ [it]
       /\ item_car it = car
       /\ item_reminder_id it = ServiceReminder.id r
       /\ find (recently_sent (Car.id car) (clock w)) (service_reminders w)
          = None
       /\ fst (needs_service_reminder settings (Car.id car) w)
          = Ok (true, item_predicted_mileage it, item_service_due_mileage it)
       /\ find (unsent_for (Car.id car)) (service_reminders w') = Some r
       /\ (forall r0,
              find (unsent_for (Car.id car)) (service_reminders w) = Some r0 ->
              r0 = r /\ w' = w).
Proof.
  rewrite reminder_loop_body_unfold.
  destruct (find (recently_sent _ _) _) eqn:Hrecent.
  { intros H. injection H as <- <-. left. reflexivity. }
  destruct (fst (needs_service_reminder settings (Car.id car) w))
    as [[[[|] p] d] | e] eqn:Hneeds; try discriminate.
  2: { intros H. injection H as <- <-. left. reflexivity. }
  destruct (find (unsent_for _) _) as [rem |] eqn:Hfind.
  - intros H. injection H as <- <-. right.
    eexists. exists rem. split; [reflexivity |].
    cbn [item_car item_reminder_id item_predicted_mileage
                  item_service_due_mileage].
    repeat (split; [reflexivity || assumption |]).
    intros r0 Hr0. injection Hr0 as <-. split; reflexivity.
  - destruct p as [p |]; [| discriminate].
    destruct d as [d |]; [| discriminate].
    destruct (storable p && storable d); [| discriminate].
    intros H. injection H as <- <-. right.
    eexists. exists (new_reminder car p d w). split; [reflexivity |].
    cbn [item_car item_reminder_id item_predicted_mileage
                  item_service_due_mileage].
    repeat (split; [reflexivity |]).
    split; [| discriminate].
    cbn [service_reminders set_service_reminders].
    apply find_app_new; [exact Hfind |].
    unfold unsent_for, new_reminder. cbn. rewrite Z.eqb_refl. reflexivity.
Qed.

(** A sweep only appends to the reminder table. *)
Lemma sweep_appends (settings : Settings) (shop_id : Z) (w : World) :
  exists new,
    snd (check_all_cars_for_reminders settings shop_id w)
    = set_service_reminders (service_reminders w ++ new) w.
Proof.
  unfold check_all_cars_for_reminders, bind, query.
  apply (for_each_invariant
           (fun wc => exists new,
                wc = set_service_reminders (service_reminders w ++ new) w)).
  - intros x acc wc [new ->].
    destruct (reminder_loop_body_effect
                settings x acc
                (set_service_reminders (service_reminders w ++ new) w))
      as [-> | (r & -> & _)].
    + exists new. reflexivity.
    + exists (new ++ [r]). cbn [service_reminders set_service_reminders].
      rewrite <- app_assoc. reflexivity.
  - exists []. rewrite app_nil_r, set_service_reminders_same. reflexivity.
Qed.

(** After a sweep that started from the invariant, every returned item
    names the one unsent record of its vehicle. *)
Lemma sweep_items_unsent
      (settings : Settings) (shop_id : Z) (w w' : World)
      (items : list ReminderItem) :
  at_most_one_unsent w ->
  check_all_cars_for_reminders settings shop_id w = (Ok items, w') ->
  at_most_one_unsent w'
  /\ forall it, In it items ->
       exists r,
         filter (unsent_for (Car.id (item_car it))) (service_reminders w')
         = [r]
         /\ item_reminder_id it = ServiceReminder.id r.
Proof.
  intros Hinv Hrun. unfold check_all_cars_for_reminders, bind, query in Hrun.
  refine (for_each_result
            (fun acc wc =>
               at_most_one_unsent wc
               /\ forall it, In it acc ->
                    exists r,
                      filter (unsent_for (Car.id (item_car it)))
                             (service_reminders wc) = [r]
                      /\ item_reminder_id it = ServiceReminder.id r)
            (reminder_loop_body settings) _ _ _ _ _ _ _ Hrun).
  - clear. intros x acc wc acc' wc' [Hinv Hacc] Hbody.
    assert (Hinv' : at_most_one_unsent wc').
    { pose proof (reminder_loop_body_keeps_invariant settings x acc wc Hinv)
        as H. rewrite Hbody in H. exact H. }
    split; [exact Hinv' |].
    pose proof (reminder_loop_body_effect settings x acc wc) as Heff.
    rewrite Hbody in Heff. cbn [snd] in Heff.
    assert (Hold : forall it, In it acc ->
               exists r,
                 filter (unsent_for (Car.id (item_car it)))
                        (service_reminders wc') = [r]
                 /\ item_reminder_id it = ServiceReminder.id r).
    { intros it Hit. destruct (Hacc it Hit) as (r & Hr & Hid).
      destruct Heff as [-> | (nr & -> & Hnr & Hnone)].
      - exists r. split; assumption.
      - exists r. split; [| exact Hid].
        cbn [service_reminders set_service_reminders].
        rewrite filter_app, Hr. cbn [filter].
        destruct (Z.eq_dec (Car.id (item_car it)) (Car.id x)) as [Heq | Hne].
        + rewrite Heq in Hr. rewrite (find_none_filter _ _ Hnone) in Hr.
          discriminate.
        + rewrite (unsent_for_other _ _ _ Hnr Hne). reflexivity. }
    destruct (reminder_loop_body_item _ _ _ _ _ _ Hbody)
      as [-> | (it & r & -> & Hcar & Hid & _ & _ & Hfind & _)];
      [exact Hold |].
    intros it' Hin. apply in_app_or in Hin as [Hin | [<- | []]];
      [apply Hold, Hin |].
    exists r. split; [| exact Hid]. rewrite Hcar.
    destruct (find_some_filter _ _ _ Hfind) as [tl Htl].
    specialize (Hinv' (Car.id x)). rewrite Htl in *.
    destruct tl; [reflexivity | cbn in Hinv'; lia].
  - split; [exact Hinv | intros it []].
Qed.

Lemma at_most_one_unsent_same_table (w w' : World) :
  service_reminders w' = service_reminders w ->
  at_most_one_unsent w -> at_most_one_unsent w'.
Proof. intros Hsame Hinv c. rewrite Hsame. apply Hinv. Qed.

Lemma send_reminder_keeps_invariant
      (settings : Settings)
      (gateway : World -> string -> option string -> string -> TwilioOutcome)
      (shop : Shop.t) (item : ReminderItem) (w : World) :
  at_most_one_unsent w ->
  at_most_one_unsent (snd (send_reminder settings gateway shop item w)).
Proof.
  intros Hinv. unfold send_reminder.
  destruct (item_customer item) as [customer |]; [| exact Hinv].
  unfold send_service_reminder_sms, send_sms, _log_sms, bind, query, update,
    ret, raise.
  destruct (negb (client_configured settings)); [exact Hinv |].
  match goal with
  | |- context [gateway ?a ?b ?c ?d] => destruct (gateway a b c d)
  end; try exact Hinv.
  apply mark_keeps_invariant.
  eapply at_most_one_unsent_same_table; [| exact Hinv]. reflexivity.
Qed.

Lemma job_keeps_invariant
      (settings : Settings)
      (gateway : World -> string -> option string -> string -> TwilioOutcome)
      (w : World) :
  at_most_one_unsent w ->
  at_most_one_unsent (snd (check_service_reminders settings gateway w)).
Proof.
  intros Hinv.
  assert (Hshop : forall shop w0,
             at_most_one_unsent w0 ->
             at_most_one_unsent (snd (sweep_shop settings gateway shop w0))).
  { intros shop w0 H0. unfold sweep_shop, bind.
    pose proof (sweep_keeps_invariant settings (Shop.id shop) w0 H0) as H1.
    destruct (check_all_cars_for_reminders settings (Shop.id shop) w0)
      as [[items | e] w1]; cbn [snd] in H1; [| exact H1].
    apply for_each_invariant; [| exact H1].
    intros item [] w2. apply send_reminder_keeps_invariant. }
  unfold check_service_reminders, try_except, bind, query.
  pose proof (for_each_invariant at_most_one_unsent
                (fun shop (_ : unit) => sweep_shop settings gateway shop)
                (fun shop _ w0 => Hshop shop w0)
                (filter (fun s => Shop.is_active s && Shop.sms_enabled s)
                        (shops w)) tt w Hinv) as H.
  destruct (for_each _ _ tt w) as [[[] | e] w']; exact H.
Qed.

(** * The reminder table *)

(** C4. The invariant "no vehicle has two unsent records" is kept by every
    sweep, by every marking of a record, by every run of the job and by
    everything that leaves the reminder table alone; and when a vehicle is flagged on one sweep, its
    record stays unsent (the sink failed), and it is flagged again on the
    next sweep, there is exactly one unsent record for the vehicle, the
    one both sweeps returned. *)
Theorem at_most_one_unsent_reminder (settings : Settings) :
  (forall w w',
      at_most_one_unsent w -> reachable settings w w' ->
      at_most_one_unsent w')
  /\ (forall shop_id w0 items1 w1 w1' items2 w2 it1 it2,
         at_most_one_unsent w0 ->
         check_all_cars_for_reminders settings shop_id w0 = (Ok items1, w1) ->
         In it1 items1 ->
         service_reminders w1' = service_reminders w1 ->
         check_all_cars_for_reminders settings shop_id w1' = (Ok items2, w2) ->
         In it2 items2 ->
         Car.id (item_car it2) = Car.id (item_car it1) ->
         exists r,
           filter (unsent_for (Car.id (item_car it1))) (service_reminders w2)
           = [r]
           /\ item_reminder_id it1 = ServiceReminder.id r
           /\ item_reminder_id it2 = ServiceReminder.id r).
Proof.
  split.
  - intros w w' Hinv Hreach.
    induction Hreach as [w | w w' w'' _ IH Hstep]; [exact Hinv |].
    specialize (IH Hinv).
    destruct Hstep as [shop_id w' | reminder_id w' | gateway w'
                       | w' w'' Hsame].
    + apply sweep_keeps_invariant, IH.
    + apply mark_keeps_invariant, IH.
    + apply job_keeps_invariant, IH.
    + eapply at_most_one_unsent_same_table; eassumption.
  - intros shop_id w0 items1 w1 w1' items2 w2 it1 it2
           Hinv Hrun1 Hin1 Hsame Hrun2 Hin2 Hcar.
    destruct (sweep_items_unsent _ _ _ _ _ Hinv Hrun1) as [Hinv1 Hitems1].
    assert (Hinv1' : at_most_one_unsent w1')
      by (intros c; rewrite Hsame; apply Hinv1).
    destruct (sweep_items_unsent _ _ _ _ _ Hinv1' Hrun2) as [Hinv2 Hitems2].
    destruct (Hitems1 it1 Hin1) as (r1 & Hr1 & Hid1).
    destruct (Hitems2 it2 Hin2) as (r2 & Hr2 & Hid2).
    rewrite Hcar in Hr2.
    destruct (sweep_appends settings shop_id w1') as [new Hnew].
    rewrite Hrun2 in Hnew. cbn [snd] in Hnew.
    rewrite Hnew in Hr2. cbn [service_reminders set_service_reminders] in Hr2.
    rewrite Hsame, filter_app, Hr1 in Hr2. cbn [app] in Hr2.
    injection Hr2 as <- Hrest.
    exists r1. split; [| split; assumption].
    rewrite Hnew. cbn [service_reminders set_service_reminders].
    rewrite Hsame, filter_app, Hr1, Hrest. reflexivity.
Qed.

Lemma at_most_one_unsent_reminder_witness :
  at_most_one_unsent (ex_world 99000)
  /\ exists r,
       filter (unsent_for 1)
              (service_reminders
                 (snd (check_all_cars_for_reminders
                         default_settings 1
                         (snd (check_all_cars_for_reminders
                                 default_settings 1 (ex_world 99000))))))
       = [r].
Proof.
  assert (Hinv : at_most_one_unsent (ex_world 99000)).
  { intros c. cbn. apply Nat.le_0_l. }
  split; [exact Hinv |].
  destruct (at_most_one_unsent_reminder default_settings) as [_ H].
  set (w1 := snd (check_all_cars_for_reminders default_settings 1
                                               (ex_world 99000))).
  set (w2 := snd (check_all_cars_for_reminders default_settings 1 w1)).
  assert (Hrun1 : exists it,
             check_all_cars_for_reminders default_settings 1 (ex_world 99000)
             = (Ok [it], w1)
             /\ Car.id (item_car it) = 1).
  { vm_compute. eexists. split; reflexivity. }
  assert (Hrun2 : exists it,
             check_all_cars_for_reminders default_settings 1 w1
             = (Ok [it], w2)
             /\ Car.id (item_car it) = 1).
  { vm_compute. eexists. split; reflexivity. }
  destruct Hrun1 as (it1 & Hrun1 & Hc1).
  destruct Hrun2 as (it2 & Hrun2 & Hc2).
  destruct (H 1 (ex_world 99000) [it1] w1 w1 [it2] w2 it1 it2 Hinv Hrun1
              (or_introl eq_refl) eq_refl Hrun2 (or_introl eq_refl))
    as (r & Hr & _).
  - congruence.
  - exists r. rewrite <- Hc1. exact Hr.
Defined.

(** The estimate does not look at the reminder table. *)
Lemma needs_ignores_reminders
      (settings : Settings) (car_id : Z) (rs : list ServiceReminder.t)
      (w : World) :
  fst (needs_service_reminder settings car_id (set_service_reminders rs w))
  = fst (needs_service_reminder settings car_id w).
Proof.
  rewrite !needs_service_reminder_unfold, !predict_mileage_unfold.
  cbn [cars set_service_reminders].
  destruct (find _ (cars w)) as [car |]; [| reflexivity].
  assert (Hcalc :
            calculate_average_km_per_day settings car_id
                                         (set_service_reminders rs w)
            = (fst (calculate_average_km_per_day settings car_id w),
               set_service_reminders rs w)).
  { unfold calculate_average_km_per_day, bind, query, lift, ret,
      qualifying_visits. cbn [work_orders set_service_reminders].
    destruct (_ <? _); [reflexivity |].
    destruct (getitem _ 0); [| reflexivity].
    destruct (getitem _ (-1)); [| reflexivity].
    destruct (mileage_sub _ _); [| reflexivity].
    destruct (_ =? 0); [reflexivity |].
    destruct (truediv _ _); reflexivity. }
  rewrite Hcalc.
  pose proof (readonly_calculate settings car_id w) as Hro.
  destruct (calculate_average_km_per_day settings car_id w)
    as [[[rate |] | e] w1]; cbn [fst snd] in *; subst; try reflexivity.
  destruct (mul_int rate _); [| reflexivity].
  destruct (int _); [| reflexivity].
  destruct (Car.current_mileage car); [| reflexivity].
  destruct (mod_ _ _); reflexivity.
Qed.

(** What a sweep returns, item by item, in terms of the world it started
    from. *)
Lemma sweep_items
      (settings : Settings) (shop_id : Z) (w w' : World)
      (items : list ReminderItem) :
  check_all_cars_for_reminders settings shop_id w = (Ok items, w') ->
  forall it, In it items ->
    find (recently_sent (Car.id (item_car it)) (clock w))
         (service_reminders w) = None
    /\ fst (needs_service_reminder settings (Car.id (item_car it)) w)
       = Ok (true, item_predicted_mileage it, item_service_due_mileage it)
    /\ (forall r, find (unsent_for (Car.id (item_car it)))
                       (service_reminders w) = Some r ->
                  item_reminder_id it = ServiceReminder.id r).
Proof.
  intros Hrun. unfold check_all_cars_for_reminders, bind, query in Hrun.
  refine (proj2
            (for_each_result
               (fun acc wc =>
                  (exists new,
                      wc = set_service_reminders
                             (service_reminders w ++ new) w)
                  /\ forall it, In it acc ->
                       find (recently_sent (Car.id (item_car it)) (clock w))
                            (service_reminders w) = None
                       /\ fst (needs_service_reminder
                                 settings (Car.id (item_car it)) w)
                          = Ok (true, item_predicted_mileage it,
                                item_service_due_mileage it)
                       /\ (forall r,
                              find (unsent_for (Car.id (item_car it)))
                                   (service_reminders w) = Some r ->
                              item_reminder_id it = ServiceReminder.id r))
               (reminder_loop_body settings) _ _ _ _ _ _ _ Hrun)).
  - clear. intros x acc wc acc' wc' [[new ->] Hacc] Hbody. split.
    + pose proof (reminder_loop_body_effect
                    settings x acc
                    (set_service_reminders (service_reminders w ++ new) w))
        as Heff.
      rewrite Hbody in Heff. cbn [snd] in Heff.
      destruct Heff as [-> | (r & -> & _)].
      * exists new. reflexivity.
      * exists (new ++ [r]). cbn [service_reminders set_service_reminders].
        rewrite <- app_assoc. reflexivity.
    + destruct (reminder_loop_body_item _ _ _ _ _ _ Hbody)
        as [-> | (it & r & -> & Hcar & Hid & Hrecent & Hneeds & Hfind & Hold)];
        [exact Hacc |].
      intros it' Hin. apply in_app_or in Hin as [Hin | [<- | []]];
        [apply Hacc, Hin |].
      rewrite Hcar.
      cbn [service_reminders set_service_reminders clock] in Hrecent, Hold.
      split; [eapply find_app_none; exact Hrecent |].
      split; [rewrite <- needs_ignores_reminders with
                (rs := service_reminders w ++ new); exact Hneeds |].
      intros r0 Hr0.
      destruct (Hold r0 (find_app_some _ _ new _ Hr0)) as [-> _].
      exact Hid.
  - split; [| intros it []].
    exists []. rewrite app_nil_r, set_service_reminders_same. reflexivity.
Qed.

(** C5. Once a record of a vehicle has been marked sent at time [T], a
    sweep whose evaluation time is within 30 days of [T] skips the vehicle
    before evaluating it, whatever has happened to the fleet in between:
    the loop body returns at once, and the vehicle is not among the
    vehicles the sweep returns for notification. *)
Theorem sent_reminder_suppresses
        (settings : Settings) (reminder_id : Z) (w : World)
        (r : ServiceReminder.t) :
  find (fun x => ServiceReminder.id x =? reminder_id) (service_reminders w)
  = Some r ->
  let sent := set_sent (clock w) r in
  In sent (service_reminders (snd (mark_reminder_sent reminder_id w)))
  /\ forall w2,
       In sent (service_reminders w2) ->
       clock w2 - timedelta_days 30 <= clock w ->
       (forall car acc,
           Car.id car = ServiceReminder.car_id r ->
           reminder_loop_body settings car acc w2 = (Ok acc, w2))
       /\ (forall shop_id items w3,
              check_all_cars_for_reminders settings shop_id w2
              = (Ok items, w3) ->
              forall it, In it items ->
                Car.id (item_car it) <> ServiceReminder.car_id r).
Proof.
  intros Hfind sent. split.
  - unfold mark_reminder_sent, bind, utcnow, query, update, ret.
    rewrite Hfind. cbn [snd service_reminders set_service_reminders].
    destruct (update_first_some _ (set_sent (clock w)) _ _ Hfind)
      as (before & after & _ & _ & _ & ->).
    apply in_or_app. right. left. reflexivity.
  - intros w2 Hin Hwindow.
    assert (Hrecent : exists y,
               find (recently_sent (ServiceReminder.car_id r) (clock w2))
                    (service_reminders w2) = Some y).
    { apply (find_In_some _ _ sent Hin).
      unfold recently_sent, sent. cbn. rewrite Z.eqb_refl. cbn.
      apply Z.leb_le. exact Hwindow. }
    destruct Hrecent as [y Hy]. split.
    + intros car acc Hcar. rewrite reminder_loop_body_unfold, Hcar, Hy.
      reflexivity.
    + intros shop_id items w3 Hrun it Hit Heq.
      destruct (sweep_items _ _ _ _ _ Hrun it Hit) as [Hnone _].
      rewrite Heq, Hy in Hnone. discriminate.
Qed.

(** C6, as the code has it.  A sweep leaves every stored reminder record
    as it was and only appends new ones.  When a vehicle is flagged due
    and an unsent record of it exists, the sweep returns that record's id:
    the record is reused, it is still the vehicle's unsent record after
    the sweep with its stored projection and threshold unchanged, and the
    newly computed values travel in the returned item only. *)
Theorem sweep_reuses_unsent_record
        (settings : Settings) (shop_id : Z) (w w' : World)
        (items : list ReminderItem) :
  check_all_cars_for_reminders settings shop_id w = (Ok items, w') ->
  (exists new, w' = set_service_reminders (service_reminders w ++ new) w)
  /\ forall it r,
       In it items ->
       find (unsent_for (Car.id (item_car it))) (service_reminders w)
       = Some r ->
       item_reminder_id it = ServiceReminder.id r
       /\ find (unsent_for (Car.id (item_car it))) (service_reminders w')
          = Some r
       /\ fst (needs_service_reminder settings (Car.id (item_car it)) w)
          = Ok (true, item_predicted_mileage it, item_service_due_mileage it).
Proof.
  intros Hrun.
  destruct (sweep_appends settings shop_id w) as [new Hnew].
  rewrite Hrun in Hnew. cbn [snd] in Hnew.
  split; [exists new; exact Hnew |].
  intros it r Hit Hr.
  destruct (sweep_items _ _ _ _ _ Hrun it Hit) as (_ & Hneeds & Hid).
  split; [apply Hid, Hr |]. split; [| exact Hneeds].
  rewrite Hnew. cbn [service_reminders set_service_reminders].
  apply find_app_some, Hr.
Qed.

Lemma sent_reminder_suppresses_witness :
  find (fun x => ServiceReminder.id x =? 1) (service_reminders ex_stale_world)
  = Some ex_stale_reminder
  /\ forall items w3,
       check_all_cars_for_reminders
         default_settings 1
         (set_clock (day 70) (snd (mark_reminder_sent 1 ex_stale_world)))
       = (Ok items, w3) ->
       forall it, In it items -> Car.id (item_car it) <> 1.
Proof.
  assert (Hfind : find (fun x => ServiceReminder.id x =? 1)
                       (service_reminders ex_stale_world)
                  = Some ex_stale_reminder) by reflexivity.
  split; [exact Hfind |].
  destruct (sent_reminder_suppresses default_settings 1 ex_stale_world
                                     ex_stale_reminder Hfind) as [Hin H].
  destruct (H (set_clock (day 70) (snd (mark_reminder_sent 1 ex_stale_world))))
    as [_ Hitems].
  - exact Hin.
  - vm_compute. intros Hcmp; discriminate Hcmp.
  - intros items w3 Hrun. exact (Hitems 1 items w3 Hrun).
Defined.

Lemma sweep_reuses_unsent_record_witness :
  exists it,
    check_all_cars_for_reminders default_settings 1 ex_stale_world
    = (Ok [it], ex_stale_world)
    /\ item_reminder_id it = ServiceReminder.id ex_stale_reminder
    /\ find (unsent_for 1) (service_reminders ex_stale_world)
       = Some ex_stale_reminder.
Proof.
  assert (Hrun : exists it,
             check_all_cars_for_reminders default_settings 1 ex_stale_world
             = (Ok [it], ex_stale_world)
             /\ Car.id (item_car it) = 1).
  { vm_compute. eexists. split; reflexivity. }
  destruct Hrun as (it & Hrun & Hcar).
  exists it. split; [exact Hrun |].
  destruct (sweep_reuses_unsent_record default_settings 1 ex_stale_world
                                       ex_stale_world [it] Hrun) as [_ H].
  destruct (H it ex_stale_reminder (or_introl eq_refl)) as (Hid & Hkept & _).
  - rewrite Hcar. reflexivity.
  - split; [exact Hid |]. rewrite Hcar in Hkept. exact Hkept.
Defined.

(** C6 as stated fails: the vehicle is flagged due with a newly computed
    projection of 101333, its unsent record (projection 100500) is reused,
    and the stored projection is not updated. *)
Lemma sweep_does_not_refresh_counterexample :
  exists it r,
    check_all_cars_for_reminders default_settings 1 ex_stale_world
    = (Ok [it], ex_stale_world)
    /\ find (unsent_for (Car.id (item_car it)))
            (service_reminders ex_stale_world) = Some r
    /\ item_reminder_id it = ServiceReminder.id r
    /\ item_predicted_mileage it = Some 101333
    /\ ServiceReminder.predicted_mileage r = 100500
    /\ Some (ServiceReminder.predicted_mileage r)
       <> item_predicted_mileage it.
Proof.
  eexists. exists ex_stale_reminder.
  split; [vm_compute; reflexivity |].
  repeat split; try reflexivity.
  cbn. intros H. discriminate H.
Qed.

(** * The reminder job *)




Section JobFacts.

Variable settings : Settings.
Variable gateway : World -> string -> option string -> string -> TwilioOutcome.

(** [send_sms], outcome by outcome. *)
Lemma send_sms_unfold
      (shop_id : Z) (phone body mtype : string) (w : World) :
  send_sms settings gateway shop_id phone body mtype w
  = if negb (client_configured settings)
    then (Ok false,
          logged shop_id
                 (SMSLog.mk shop_id phone mtype body None "failed"
                            (Some "SMS service not configured"%string)) w)
    else match gateway w body (TWILIO_PHONE_NUMBER settings) phone with
         | Created sid =>
             (Ok true,
              logged shop_id
                     (SMSLog.mk shop_id phone mtype body (Some sid) "sent"
                                None) w)
         | TwilioRestException msg =>
             (Ok false,
              logged shop_id
                     (SMSLog.mk shop_id phone mtype body None "failed"
                                (Some msg)) w)
         | OtherException => (Raise ExternalError, w)
         end.
Proof.
  unfold send_sms, _log_sms, logged, bind, utcnow, query, update, ret, raise.
  destruct (negb (client_configured settings)); [reflexivity |].
  destruct (gateway w body (TWILIO_PHONE_NUMBER settings) phone);
    reflexivity.
Qed.





End JobFacts.



(** * The examples of the specification, run on the model *)

(** No visit at all: insufficient data. *)
Example insufficient_data_without_visits :
  fst (calculate_average_km_per_day default_settings 1 ex_no_visit_world)
  = Ok None.
Proof. reflexivity. Qed.

(** Two visits less than a day apart, with different readings:
    insufficient data, no division by zero. *)
Example zero_elapsed_days_guard :
  fst (calculate_average_km_per_day default_settings 1
                                    (ex_history 80000 70000 0 80000 0 23))
  = Ok None.
Proof. vm_compute. reflexivity. Qed.

(** 70000 at day 0 and 80000 at day 100: the rate is the double 100.0. *)
Example rate_of_100_per_day :
  fst (calculate_average_km_per_day default_settings 1
                                    (ex_history 80000 70000 0 80000 100 0))
  = Ok (Some (Float (S754_finite false (100 * 2 ^ 46) (-46)))).
Proof. vm_compute. reflexivity. Qed.

(** A regressing odometer: the rate is 0, not negative. *)
Example regressing_odometer_gives_zero :
  fst (calculate_average_km_per_day default_settings 1
                                    (ex_history 80000 80000 0 70000 50 0))
  = Ok (Some (Int 0)).
Proof. vm_compute. reflexivity. Qed.

(** Current odometer 90000, rate 100 per day, 14 days: 91400. *)
Example projection_of_91400 :
  fst (predict_mileage default_settings 1 14
                       (ex_history 90000 70000 0 80000 100 0))
  = Ok (Some 91400).
Proof. vm_compute. reflexivity. Qed.

(** Current odometer 97000, interval 10000: the threshold is 100000 and
    the projection 98400 does not reach it. *)
Example not_due_below_threshold :
  fst (needs_service_reminder default_settings 1
                              (ex_history 97000 70000 0 80000 100 0))
  = Ok (false, Some 98400, Some 100000).
Proof. vm_compute. reflexivity. Qed.

(** The end-to-end scenario: at 95000 the vehicle is not due and the sweep
    creates nothing; at 99000 it is due and the sweep creates one unsent
    record. *)
Example end_to_end_not_due :
  check_all_cars_for_reminders default_settings 1 (ex_world 95000)
  = (Ok [], ex_world 95000).
Proof. vm_compute. reflexivity. Qed.

Example end_to_end_due :
  exists it,
    check_all_cars_for_reminders default_settings 1 (ex_world 99000)
    = (Ok [it],
       set_service_reminders
         [ServiceReminder.mk 1 1 1 101333 100000 false None (day 60)]
         (ex_world 99000))
    /\ item_predicted_mileage it = Some 101333
    /\ item_service_due_mileage it = Some 100000
    /\ item_reminder_id it = 1.
Proof. eexists. vm_compute. repeat split; reflexivity. Qed.

(** The double-precision product is what is truncated: one forty-ninth
    per day over 49 days projects no kilometre, because the product is the
    double just below 1. *)
Example rounding_of_the_product :
  fst (predict_mileage default_settings 1 49
                       (ex_history 80001 80000 0 80001 49 0))
  = Ok (Some 80001).
Proof. vm_compute. reflexivity. Qed.

(** * Further properties of the estimator *)

(** X1. The service threshold [needs_service_reminder] computes is the
    smallest multiple of the service interval that is strictly greater
    than the current odometer: a vehicle standing exactly on a multiple is
    given the next one. *)
Theorem service_due_is_next_multiple
        (settings : Settings) (car_id : Z) (w : World) (car : Car.t)
        (predicted : Z) :
  find (fun c => Car.id c =? car_id) (cars w) = Some car ->
  0 < Car.service_interval_km car ->
  predict_mileage settings car_id (SERVICE_REMINDER_DAYS_AHEAD settings) w
  = (Ok (Some predicted), w) ->
  exists current due threshold,
    Car.current_mileage car = Some current
    /\ needs_service_reminder settings car_id w
       = (Ok (due, Some predicted, Some threshold), w)
    /\ threshold mod Car.service_interval_km car = 0
    /\ current < threshold <= current + Car.service_interval_km car
    /\ forall k, k mod Car.service_interval_km car = 0 ->
                 current < k -> threshold <= k.
Proof.
  intros Hfind Hpos Hp.
  destruct (predicted_has_odometer _ _ _ _ _ _ _ Hfind Hp) as [cur Hcur].
  set (i := Car.service_interval_km car) in *.
  exists cur, (predicted >=? cur - cur mod i + i), (cur - cur mod i + i).
  split; [exact Hcur |]. split.
  { rewrite needs_service_reminder_unfold, Hfind, Hp, Hcur. unfold mod_.
    fold i. destruct (Z.eqb_spec i 0); [lia | reflexivity]. }
  pose proof (Z.div_mod cur i ltac:(lia)) as Hdm.
  pose proof (Z.mod_pos_bound cur i Hpos) as Hmod.
  assert (Hthr : cur - cur mod i + i = (cur / i + 1) * i) by lia.
  split; [rewrite Hthr; apply Z.mod_mul; lia |].
  split; [lia |].
  intros k Hk Hlt.
  pose proof (Z.div_mod k i ltac:(lia)) as Hkdm. rewrite Hk in Hkdm.
  rewrite Hthr. assert (cur / i < k / i) by nia. nia.
Qed.

Lemma service_due_is_next_multiple_witness :
  0 < Car.service_interval_km (ex_car 90000)
  /\ fst (needs_service_reminder default_settings 1
                                 (ex_history 90000 70000 0 80000 100 0))
     = Ok (false, Some 91400, Some 100000).
Proof.
  assert (Hpos : 0 < Car.service_interval_km (ex_car 90000)) by reflexivity.
  split; [exact Hpos |].
  destruct (service_due_is_next_multiple
              default_settings 1 (ex_history 90000 70000 0 80000 100 0)
              (ex_car 90000) 91400 eq_refl Hpos)
    as (current & due & threshold & _ & Hneeds & Hmod & Hrange & _).
  - vm_compute. reflexivity.
  - rewrite Hneeds. cbn [fst]. vm_compute in Hneeds.
    injection Hneeds as <- <-. reflexivity.
Defined.

Lemma binary_round_aux_sign (s : bool) (m e : Z) (l : location) :
  match binary_round_aux prec emax s m e l with
  | S754_zero s' | S754_infinity s' | S754_finite s' _ _ => s' = s
  | S754_nan => True
  end.
Proof.
  unfold binary_round_aux.
  destruct (shr_fexp prec emax m e l) as [mrs1 e1].
  destruct (shr_fexp prec emax _ e1 loc_Exact) as [mrs2 e2].
  destruct (shr_m mrs2); [reflexivity | | exact I].
  destruct (e2 <=? emax - prec); reflexivity.
Qed.

(** A double that is not negative: a zero or a finite or infinite value
    with a clear sign bit. *)
Lemma float_of_int_sign (n : Z) (g : float) :
  0 <= n -> float_of_int n = Ok g ->
  match g with
  | S754_zero s | S754_finite s _ _ => s = false
  | _ => False
  end.
Proof.
  intros Hn. unfold float_of_int, binary_normalize.
  destruct n as [| p | p]; [| | lia].
  - intros H. injection H as <-. reflexivity.
  - unfold binary_round.
    destruct (shl_align p 0 _) as [mz ez].
    pose proof (binary_round_aux_sign false (Zpos mz) ez loc_Exact) as Hs.
    destruct (binary_round_aux prec emax false (Zpos mz) ez loc_Exact);
      try discriminate; intros H; injection H as <-; exact Hs.
Qed.

Lemma max0_float (q f : float) :
  max0 q = Float f ->
  f = q /\ match q with
           | S754_finite s _ _ | S754_infinity s => s = false
           | _ => False
           end.
Proof.
  unfold max0. destruct (SFltb (S754_zero false) q) eqn:E; [| discriminate].
  intros H. injection H as <-. split; [reflexivity |].
  destruct q as [[|] | [|] | | [|] m e]; try discriminate E; reflexivity.
Qed.

Lemma trunc_nonneg (m : positive) (e : Z) :
  0 <= trunc (S754_finite false m e).
Proof.
  cbn [trunc cond_Zopp]. destruct (0 <=? e) eqn:E.
  - apply Z.leb_le in E.
    assert (0 <= 2 ^ e) by (apply Z.pow_nonneg; lia). nia.
  - apply Z.div_pos; [lia |]. apply Z.pow_pos_nonneg; [lia |].
    apply Z.leb_gt in E. lia.
Qed.

(** The rate [calculate_average_km_per_day] returns is a value of
    [max(0, _)]. *)
Lemma calculate_result_shape
      (settings : Settings) (car_id : Z) (w w' : World) (rate : num) :
  calculate_average_km_per_day settings car_id w = (Ok (Some rate), w') ->
  exists q, rate = max0 q.
Proof.
  unfold calculate_average_km_per_day, bind, query, lift, ret.
  destruct (_ <? _); [discriminate |].
  destruct (getitem _ 0); [| discriminate].
  destruct (getitem _ (-1)); [| discriminate].
  destruct (mileage_sub _ _); [| discriminate].
  destruct (_ =? 0); [discriminate |].
  destruct (truediv _ _) as [q |]; [| discriminate].
  intros H. injection H as <- _. exists q. reflexivity.
Qed.

Lemma increase_nonneg (rate : num) (days_ahead : Z) (product : num)
      (increase : Z) :
  (exists q, rate = max0 q) -> 0 <= days_ahead ->
  mul_int rate days_ahead = Ok product -> int product = Ok increase ->
  0 <= increase.
Proof.
  intros [q ->] Hdays Hmul Hint.
  destruct (max0 q) as [z | f] eqn:Emax.
  - unfold max0 in Emax. destruct (SFltb _ q); [discriminate |].
    injection Emax as <-. cbn in Hmul. injection Hmul as <-.
    cbn in Hint. injection Hint as <-. lia.
  - apply max0_float in Emax as [-> Hq].
    cbn [mul_int] in Hmul.
    destruct (float_of_int days_ahead) as [g |] eqn:Eg; [| discriminate].
    pose proof (float_of_int_sign _ _ Hdays Eg) as Hg.
    injection Hmul as <-. cbn [int] in Hint.
    destruct q as [| sq | | sq mq eq]; try contradiction; subst sq;
      destruct g as [sg | | | sg mg eg]; try contradiction; subst sg;
      cbn [SFmul xorb int_of_float] in Hint; try discriminate.
    + injection Hint as <-. cbn. lia.
    + pose proof (binary_round_aux_sign false (Zpos (mq * mg)) (eq + eg)
                                        loc_Exact) as Hs.
      destruct (binary_round_aux prec emax false (Zpos (mq * mg)) (eq + eg)
                                 loc_Exact) as [s | s | | s m e];
        cbn [int_of_float] in Hint; try discriminate;
        injection Hint as <-; subst s; [cbn; lia | apply trunc_nonneg].
Qed.

(** X2. For a horizon that is not negative, a projection [predict_mileage]
    returns is never below the vehicle's current odometer. *)
Theorem projection_not_below_current
        (settings : Settings) (car_id days_ahead : Z) (w w' : World)
        (predicted : Z) :
  0 <= days_ahead ->
  predict_mileage settings car_id days_ahead w = (Ok (Some predicted), w') ->
  exists car current,
    find (fun c => Car.id c =? car_id) (cars w) = Some car
    /\ Car.current_mileage car = Some current
    /\ current <= predicted.
Proof.
  intros Hdays. rewrite predict_mileage_unfold.
  destruct (find _ (cars w)) as [car |]; [| discriminate].
  destruct (calculate_average_km_per_day settings car_id w)
    as [[[rate |] | e] w1] eqn:Hcalc; try discriminate.
  destruct (mul_int rate days_ahead) as [product |] eqn:Hmul;
    [| discriminate].
  destruct (int product) as [increase |] eqn:Hint; [| discriminate].
  destruct (Car.current_mileage car) as [current |] eqn:Hcurrent;
    [| discriminate].
  intros H. injection H as <- _. exists car, current.
  split; [reflexivity |]. split; [exact Hcurrent |].
  pose proof (increase_nonneg rate days_ahead product increase
                (calculate_result_shape _ _ _ _ _ Hcalc) Hdays Hmul Hint).
  lia.
Qed.

Lemma projection_not_below_current_witness :
  0 <= 14
  /\ predict_mileage default_settings 1 14 (ex_world 95000)
     = (Ok (Some 97333), ex_world 95000)
  /\ 95000 <= 97333.
Proof.
  assert (Hdays : 0 <= 14) by (intros Hcmp; discriminate Hcmp).
  assert (Hrun : predict_mileage default_settings 1 14 (ex_world 95000)
                 = (Ok (Some 97333), ex_world 95000))
    by (vm_compute; reflexivity).
  split; [exact Hdays |]. split; [exact Hrun |].
  destruct (projection_not_below_current default_settings 1 14
              (ex_world 95000) (ex_world 95000) 97333 Hdays Hrun)
    as (car & current & Hfind & Hcurrent & Hle).
  cbn in Hfind. injection Hfind as <-. injection Hcurrent as <-. exact Hle.
Defined.

(** X17. The three estimator methods never change the stored state,
    whatever they return or raise.  On stored values in range, with a
    configured minimum of at least one visit, day counts in the 64-bit
    range and a vehicle that has a positive service interval and a stored
    odometer, none of them raises: the divisions by the day delta and by
    the service interval never see a zero divisor, and missing data shows
    only as a [None] result. *)
Theorem estimator_reads_and_never_raises
        (settings : Settings) (car_id days_ahead : Z) (w : World) :
  stored_in_range w ->
  1 <= MIN_VISITS_FOR_PREDICTION settings ->
  int64 days_ahead ->
  int64 (SERVICE_REMINDER_DAYS_AHEAD settings) ->
  (forall car, find (fun c => Car.id c =? car_id) (cars w) = Some car ->
               0 < Car.service_interval_km car
               /\ Car.current_mileage car <> None) ->
  (readonly (calculate_average_km_per_day settings car_id)
   /\ readonly (predict_mileage settings car_id days_ahead)
   /\ readonly (needs_service_reminder settings car_id))
  /\ (exists r, calculate_average_km_per_day settings car_id w = (Ok r, w))
  /\ (exists r, predict_mileage settings car_id days_ahead w = (Ok r, w))
  /\ (exists r, needs_service_reminder settings car_id w = (Ok r, w)).
Proof.
  intros Hrange Hmin Hdays Hhorizon Hcar.
  split; [| split; [| split]].
  - split; [apply readonly_calculate |].
    split; [apply readonly_predict | apply readonly_needs].
  - apply calculate_total; assumption.
  - apply predict_total; try assumption.
    + unfold int64 in Hdays.
      change (2 ^ 63) with 9223372036854775808 in Hdays.
      change (2 ^ 64) with 18446744073709551616. lia.
    + intros car Hfind. apply (Hcar car Hfind).
  - apply needs_total; assumption.
Qed.

Lemma estimator_reads_and_never_raises_witness :
  stored_in_range (ex_world 99000)
  /\ 1 <= MIN_VISITS_FOR_PREDICTION default_settings
  /\ int64 14
  /\ int64 (SERVICE_REMINDER_DAYS_AHEAD default_settings)
  /\ exists r, needs_service_reminder default_settings 1 (ex_world 99000)
               = (Ok r, ex_world 99000).
Proof.
  assert (Hrange : stored_in_range (ex_world 99000)) by visits_in_range.
  assert (Hmin : 1 <= MIN_VISITS_FOR_PREDICTION default_settings)
    by (vm_compute; intros Hcmp; discriminate Hcmp).
  assert (Hdays : int64 14) by in_int64.
  assert (Hhorizon : int64 (SERVICE_REMINDER_DAYS_AHEAD default_settings))
    by in_int64.
  repeat (split; [assumption |]).
  apply (estimator_reads_and_never_raises
           default_settings 1 14 (ex_world 99000) Hrange Hmin Hdays Hhorizon).
  intros car Hfind. cbn in Hfind. injection Hfind as <-.
  split; [reflexivity | discriminate].
Defined.

(** * Further properties of the single-row updates *)

Lemma update_first_twice {A} (p : A -> bool) (f g : A -> A) (l : list A) :
  (forall x, p x = true -> p (g x) = true) ->
  update_first p f (update_first p g l)
  = update_first p (fun x => f (g x)) l.
Proof.
  intros Hg. induction l as [| x l IH]; cbn [update_first]; [reflexivity |].
  destruct (p x) eqn:E; cbn [update_first].
  - rewrite (Hg x E). reflexivity.
  - rewrite E, IH. reflexivity.
Qed.

Lemma find_update_first {A} (p : A -> bool) (g : A -> A) (l : list A) :
  (forall x, p x = true -> p (g x) = true) ->
  find p (update_first p g l) = option_map g (find p l).
Proof.
  intros Hg. induction l as [| x l IH]; cbn [update_first find];
    [reflexivity |].
  destruct (p x) eqn:E; cbn [find].
  - rewrite (Hg x E). reflexivity.
  - rewrite E. exact IH.
Qed.

Lemma update_first_ext {A} (p : A -> bool) (f g : A -> A) (l : list A) :
  (forall x, f x = g x) -> update_first p f l = update_first p g l.
Proof.
  intros H. induction l as [| x l IH]; cbn [update_first]; [reflexivity |].
  rewrite H, IH. reflexivity.
Qed.

Lemma Forall2_update_first {A} (R : A -> A -> Prop) (p : A -> bool)
      (f g : A -> A) (l : list A) :
  (forall x, R x x) -> (forall x, R (f x) (g x)) ->
  Forall2 R (update_first p f l) (update_first p g l).
Proof.
  intros Hrefl Hfg. induction l as [| x l IH]; cbn [update_first];
    [constructor |].
  destruct (p x).
  - constructor; [apply Hfg |].
    clear IH. induction l; constructor; [apply Hrefl | assumption].
  - constructor; [apply Hrefl | exact IH].
Qed.

Lemma update_first_id {A} (p : A -> bool) (l : list A) :
  update_first p (fun x => x) l = l.
Proof.
  induction l as [| x l IH]; cbn [update_first]; [reflexivity |].
  destruct (p x); [reflexivity |]. rewrite IH. reflexivity.
Qed.

(** What one report leaves in the vehicle table: the first vehicle with
    the id has gone through [raise_to]. *)
Lemma update_car_mileage_cars
      (car_id new_mileage : Z) (w : World) (car : Car.t) (current : Z) :
  int64 new_mileage ->
  find (fun c => Car.id c =? car_id) (cars w) = Some car ->
  Car.current_mileage car = Some current ->
  update_car_mileage car_id new_mileage w
  = (Ok tt,
     set_cars (update_first (fun c => Car.id c =? car_id)
                            (raise_to current new_mileage (clock w))
                            (cars w)) w).
Proof.
  intros Hfits Hfind Hcurrent. apply storable_int64 in Hfits.
  rewrite update_car_mileage_unfold, Hfind, Hcurrent, Hfits.
  unfold raise_to. destruct (current <? new_mileage).
  - reflexivity.
  - rewrite update_first_id. destruct w; reflexivity.
Qed.

Lemma raise_to_keeps_id (car_id current new_mileage now : Z) (c : Car.t) :
  (Car.id c =? car_id) = true ->
  (Car.id (raise_to current new_mileage now c) =? car_id) = true.
Proof. unfold raise_to. destruct (_ <? _); intros H; exact H. Qed.

(** X3. For a reported value the store can hold and a vehicle with a
    stored reading, [update_car_mileage] returns, and the vehicle the
    lookup then finds carries the maximum of its stored reading and the
    reported one.  Its other columns are as before, except [updated_at],
    which is the time of the call when the reading went up and is as
    before otherwise. *)
Theorem update_car_mileage_is_max
        (car_id new_mileage : Z) (w : World) (car : Car.t) (current : Z) :
  int64 new_mileage ->
  find (fun c => Car.id c =? car_id) (cars w) = Some car ->
  Car.current_mileage car = Some current ->
  exists w' car',
    update_car_mileage car_id new_mileage w = (Ok tt, w')
    /\ find (fun c => Car.id c =? car_id) (cars w') = Some car'
    /\ Car.current_mileage car' = Some (Z.max current new_mileage)
    /\ Car.updated_at car'
       = (if current <? new_mileage then clock w else Car.updated_at car)
    /\ Car.id car' = Car.id car
    /\ Car.shop_id car' = Car.shop_id car
    /\ Car.owner_id car' = Car.owner_id car
    /\ Car.make car' = Car.make car
    /\ Car.model car' = Car.model car
    /\ Car.license_plate car' = Car.license_plate car
    /\ Car.service_interval_km car' = Car.service_interval_km car.
Proof.
  intros Hfits Hfind Hcurrent.
  rewrite (update_car_mileage_cars _ _ _ _ _ Hfits Hfind Hcurrent).
  eexists. exists (raise_to current new_mileage (clock w) car).
  split; [reflexivity |]. cbn [cars set_cars].
  split.
  { rewrite find_update_first, Hfind by apply raise_to_keeps_id.
    reflexivity. }
  unfold raise_to.
  destruct (Z.ltb_spec current new_mileage) as [Hlt | Hge];
    cbn [set_mileage Car.current_mileage Car.updated_at Car.id Car.shop_id
         Car.owner_id Car.make Car.model Car.license_plate
         Car.service_interval_km].
  - split; [f_equal; lia |]. repeat split.
  - split; [rewrite Hcurrent; f_equal; lia |]. repeat split.
Qed.

Lemma update_car_mileage_is_max_witness :
  int64 96000
  /\ exists w' car',
       update_car_mileage 1 96000 (ex_world 95000) = (Ok tt, w')
       /\ find (fun c => Car.id c =? 1) (cars w') = Some car'
       /\ Car.current_mileage car' = Some 96000
       /\ Car.updated_at car' = day 60.
Proof.
  assert (Hfits : int64 96000) by in_int64.
  split; [exact Hfits |].
  destruct (update_car_mileage_is_max 1 96000 (ex_world 95000)
                                      (ex_car 95000) 95000 Hfits eq_refl
                                      eq_refl)
    as (w' & car' & Hrun & Hfind & Hmileage & Hstamp & _).
  exists w', car'. repeat (split; [assumption |]). exact Hstamp.
Defined.

(** X4. Two reports for the same vehicle, the first at time [t1] and the
    second at time [t2], leave the maximum of the stored reading and the
    two reported ones, whichever of the two comes first: the two orders
    end in vehicle tables that agree in every column but [updated_at],
    and in the same other tables. *)
Theorem update_car_mileage_composes
        (car_id a b t1 t2 : Z) (w : World) (car : Car.t) (current : Z) :
  int64 a -> int64 b ->
  find (fun c => Car.id c =? car_id) (cars w) = Some car ->
  Car.current_mileage car = Some current ->
  let reported x y :=
    snd (update_car_mileage
           car_id y
           (set_clock t2
                      (snd (update_car_mileage car_id x (set_clock t1 w))))) in
  Forall2 same_but_updated_at (cars (reported a b)) (cars (reported b a))
  /\ set_cars [] (reported a b) = set_cars [] (reported b a)
  /\ exists car',
       find (fun c => Car.id c =? car_id) (cars (reported a b)) = Some car'
       /\ Car.current_mileage car' = Some (Z.max current (Z.max a b)).
Proof.
  intros Ha Hb Hfind Hcurrent.
  assert (Hstep : forall x y,
             int64 x -> int64 y ->
             snd (update_car_mileage
                    car_id y
                    (set_clock t2
                               (snd (update_car_mileage car_id x
                                                        (set_clock t1 w)))))
             = set_cars
                 (update_first
                    (fun c => Car.id c =? car_id)
                    (fun c => raise_to (Z.max current x) y t2
                                       (raise_to current x t1 c))
                    (cars w))
                 (set_clock t2 w)).
  { intros x y Hx Hy.
    rewrite (update_car_mileage_cars car_id x (set_clock t1 w) car current
                                     Hx Hfind Hcurrent).
    cbn [snd].
    rewrite (update_car_mileage_cars
               car_id y _ (raise_to current x t1 car) (Z.max current x) Hy).
    - cbn [snd cars set_cars set_clock clock].
      rewrite update_first_twice by apply raise_to_keeps_id. reflexivity.
    - cbn [cars set_cars set_clock clock].
      rewrite find_update_first, Hfind by apply raise_to_keeps_id.
      reflexivity.
    - unfold raise_to. destruct (Z.ltb_spec current x);
        cbn [set_mileage Car.current_mileage];
        [| rewrite Hcurrent]; f_equal; lia. }
  cbv beta zeta. rewrite (Hstep a b Ha Hb), (Hstep b a Hb Ha).
  cbn [cars set_cars]. split; [| split; [reflexivity |]].
  - apply Forall2_update_first.
    + intros c. repeat split.
    + intros c. unfold raise_to, same_but_updated_at.
      destruct (Z.ltb_spec current a), (Z.ltb_spec current b);
        destruct (Z.ltb_spec (Z.max current a) b),
                 (Z.ltb_spec (Z.max current b) a);
        try lia;
        cbn [set_mileage Car.current_mileage Car.id Car.shop_id Car.owner_id
             Car.make Car.model Car.license_plate Car.service_interval_km];
        repeat split; f_equal; lia.
  - eexists. rewrite find_update_first, Hfind.
    2: { intros c Hc. apply raise_to_keeps_id, raise_to_keeps_id, Hc. }
    split; [reflexivity |]. cbn [option_map]. unfold raise_to.
    destruct (Z.ltb_spec current a), (Z.ltb_spec (Z.max current a) b);
      cbn [set_mileage Car.current_mileage];
      try rewrite Hcurrent; f_equal; lia.
Qed.

Lemma update_car_mileage_composes_witness :
  int64 96000 /\ int64 97000
  /\ let reported x y :=
       snd (update_car_mileage
              1 y
              (set_clock (day 62)
                         (snd (update_car_mileage
                                 1 x (set_clock (day 61) (ex_world 95000))))))
     in
     map Car.current_mileage (cars (reported 96000 97000)) = [Some 97000]
     /\ map Car.current_mileage (cars (reported 97000 96000)) = [Some 97000]
     /\ map Car.updated_at (cars (reported 96000 97000)) = [day 62]
     /\ map Car.updated_at (cars (reported 97000 96000)) = [day 61].
Proof.
  assert (Ha : int64 96000) by in_int64.
  assert (Hb : int64 97000) by in_int64.
  split; [exact Ha |]. split; [exact Hb |].
  destruct (update_car_mileage_composes
              1 96000 97000 (day 61) (day 62) (ex_world 95000)
              (ex_car 95000) 95000 Ha Hb eq_refl eq_refl)
    as (Hsame & _ & _).
  cbv beta zeta in *. inversion Hsame as [| c c' l l' Hrow _ Hleft Hright].
  repeat split; vm_compute; reflexivity.
Defined.

Lemma mark_reminder_sent_unfold (reminder_id : Z) (w : World) :
  mark_reminder_sent reminder_id w
  = (Ok tt,
     match find (fun r => ServiceReminder.id r =? reminder_id)
                (service_reminders w) with
     | Some _ =>
         set_service_reminders
           (update_first (fun r => ServiceReminder.id r =? reminder_id)
                         (set_sent (clock w)) (service_reminders w)) w
     | None => w
     end).
Proof.
  unfold mark_reminder_sent, bind, utcnow, query, update, ret.
  destruct (find _ (service_reminders w)); reflexivity.
Qed.

(** X5. Marking a record a second time, at a later clock, leaves exactly
    what marking it once at that later clock would: the sent timestamp is
    overwritten, so the suppression window starts again. *)
Theorem mark_reminder_sent_again (reminder_id t : Z) (w : World) :
  snd (mark_reminder_sent reminder_id
                          (set_clock t (snd (mark_reminder_sent reminder_id
                                                                w))))
  = snd (mark_reminder_sent reminder_id (set_clock t w)).
Proof.
  rewrite !mark_reminder_sent_unfold. cbn [snd].
  destruct (find (fun r => ServiceReminder.id r =? reminder_id)
                 (service_reminders w)) as [r |] eqn:Hfind.
  - cbn [service_reminders set_service_reminders set_clock clock].
    rewrite find_update_first by (intros; assumption).
    rewrite Hfind. cbn [option_map].
    rewrite update_first_twice by (intros; assumption).
    reflexivity.
  - cbn [service_reminders set_clock]. rewrite Hfind. reflexivity.
Qed.

(** * Further properties of the SMS service *)

Section SmsFacts.

Variable settings : Settings.
Variable gateway : World -> string -> option string -> string -> TwilioOutcome.

(** X6. Every call of [send_sms] that returns has appended exactly one row
    to the SMS log, for the shop, recipient, type and body it was given;
    it returns [True] exactly when that row has status "sent" and carries
    a gateway identifier; without a configured client it returns [False]
    whatever the gateway would do; and it touches no table other than the
    SMS log and the shops. *)
Theorem send_sms_logs_every_attempt
        (shop_id : Z) (phone body mtype : string) (w w' : World) (b : bool) :
  send_sms settings gateway shop_id phone body mtype w = (Ok b, w') ->
  (exists sid status err,
      sms_logs w'
      = sms_logs w ++ [SMSLog.mk shop_id phone mtype body sid status err]
      /\ (b = true <-> status = "sent"%string)
      /\ (b = true <-> sid <> None))
  /\ (client_configured settings = false -> b = false)
  /\ cars w' = cars w
  /\ work_orders w' = work_orders w
  /\ service_reminders w' = service_reminders w
  /\ customers w' = customers w
  /\ clock w' = clock w.
Proof.
  rewrite send_sms_unfold.
  destruct (client_configured settings); cbn [negb].
  - destruct (gateway w body (TWILIO_PHONE_NUMBER settings) phone)
      as [sid | msg |]; try discriminate;
      intros H; injection H as <- <-;
      (split; [do 3 eexists; split; [reflexivity |] |]).
    + split; split; intros; (reflexivity || discriminate).
    + split; [discriminate |]. repeat split; reflexivity.
    + split; split; intros H; try discriminate H. contradiction.
    + split; [discriminate |]. repeat split; reflexivity.
  - intros H; injection H as <- <-.
    split; [do 3 eexists; split; [reflexivity |] |].
    + split; split; intros H; try discriminate H. contradiction.
    + repeat split; reflexivity.
Qed.

(** X7. When [send_sms] raises, nothing at all has been written: the
    attempt leaves no row in the SMS log and is not counted; and it raises
    only with a configured client whose gateway call raised something
    other than the gateway's REST exception. *)
Theorem send_sms_raise_leaves_no_trace
        (shop_id : Z) (phone body mtype : string) (w w' : World) (e : exn) :
  send_sms settings gateway shop_id phone body mtype w = (Raise e, w') ->
  w' = w
  /\ client_configured settings = true
  /\ gateway w body (TWILIO_PHONE_NUMBER settings) phone = OtherException.
Proof.
  rewrite send_sms_unfold.
  destruct (client_configured settings); cbn [negb]; [| discriminate].
  destruct (gateway w body (TWILIO_PHONE_NUMBER settings) phone);
    try discriminate.
  intros H. injection H as _ <-. repeat split.
Qed.

(** X8. The usage counter counts attempts, not deliveries: after any call
    of [send_sms] that returns, delivered or failed, the first shop with
    the given id has a counter one higher and its [updated_at] set to the
    time of the call, its other columns being as before, and every other
    shop is as it was; when no shop has that id the shops table is
    unchanged (the log row is written all the same). *)
Theorem send_sms_counts_every_attempt
        (shop_id : Z) (phone body mtype : string) (w w' : World) (b : bool) :
  send_sms settings gateway shop_id phone body mtype w = (Ok b, w') ->
  match find (fun s => Shop.id s =? shop_id) (shops w) with
  | None => shops w' = shops w
  | Some shop =>
      exists before after shop',
        shops w = before ++ shop :: after
        /\ shops w' = before ++ shop' :: after
        /\ Forall (fun s => Shop.id s <> shop_id) before
        /\ Shop.sms_usage_count shop' = Shop.sms_usage_count shop + 1
        /\ Shop.updated_at shop' = clock w
        /\ Shop.id shop' = Shop.id shop
        /\ Shop.name shop' = Shop.name shop
        /\ Shop.website shop' = Shop.website shop
        /\ Shop.sms_enabled shop' = Shop.sms_enabled shop
        /\ Shop.is_active shop' = Shop.is_active shop
  end.
Proof.
  intros Hsend.
  assert (Hshops : shops w'
                   = update_first (fun s => Shop.id s =? shop_id)
                                  (bump_usage (clock w)) (shops w)).
  { rewrite send_sms_unfold in Hsend.
    destruct (negb (client_configured settings)).
    - injection Hsend as _ <-. reflexivity.
    - destruct (gateway w body (TWILIO_PHONE_NUMBER settings) phone);
        try discriminate; injection Hsend as _ <-; reflexivity. }
  destruct (find _ (shops w)) as [shop |] eqn:Hfind.
  - destruct (update_first_some _ (bump_usage (clock w)) _ _ Hfind)
      as (before & after & Hsplit & Hbefore & _ & Hupd).
    exists before, after, (bump_usage (clock w) shop).
    split; [exact Hsplit |]. split; [rewrite Hshops; exact Hupd |].
    split.
    { eapply Forall_impl; [| exact Hbefore]. cbv beta.
      intros s Hs Heq. rewrite Heq, Z.eqb_refl in Hs. discriminate. }
    repeat split; reflexivity.
  - rewrite Hshops. apply update_first_none, Hfind.
Qed.

End SmsFacts.

Lemma send_sms_logs_every_attempt_witness :
  exists w',
    send_sms ex_sms_settings ex_gateway_rejecting_first 1 "+359888000001"%string
             "hello"%string "generic"%string ex_two_shops = (Ok false, w')
    /\ List.length (sms_logs w') = 1%nat
    /\ cars w' = cars ex_two_shops
    /\ service_reminders w' = service_reminders ex_two_shops.
Proof.
  exists (snd (send_sms ex_sms_settings ex_gateway_rejecting_first 1
                        "+359888000001"%string "hello"%string "generic"%string ex_two_shops)).
  assert (Hsend : send_sms ex_sms_settings ex_gateway_rejecting_first 1
                           "+359888000001"%string "hello"%string "generic"%string ex_two_shops
                  = (Ok false,
                     snd (send_sms ex_sms_settings ex_gateway_rejecting_first
                                   1 "+359888000001"%string "hello"%string "generic"%string
                                   ex_two_shops)))
    by (vm_compute; reflexivity).
  split; [exact Hsend |].
  destruct (send_sms_logs_every_attempt
              ex_sms_settings ex_gateway_rejecting_first 1 "+359888000001"%string
              "hello"%string "generic"%string ex_two_shops _ false Hsend)
    as ((sid & status & err & Hlog & _) & _ & Hcars & _ & Hrecords & _).
  split; [rewrite Hlog; reflexivity |].
  split; [exact Hcars | exact Hrecords].
Defined.

Lemma send_sms_raise_leaves_no_trace_witness :
  send_sms ex_sms_settings ex_gateway_down_for_first 1 "+359888000001"%string
           "hello"%string "generic"%string ex_two_shops = (Raise ExternalError, ex_two_shops)
  /\ client_configured ex_sms_settings = true
  /\ ex_gateway_down_for_first ex_two_shops "hello"%string
                               (TWILIO_PHONE_NUMBER ex_sms_settings)
                               "+359888000001"%string = OtherException.
Proof.
  assert (Hsend : send_sms ex_sms_settings ex_gateway_down_for_first 1
                           "+359888000001"%string "hello"%string "generic"%string ex_two_shops
                  = (Raise ExternalError, ex_two_shops))
    by (vm_compute; reflexivity).
  split; [exact Hsend |].
  destruct (send_sms_raise_leaves_no_trace
              ex_sms_settings ex_gateway_down_for_first 1 "+359888000001"%string
              "hello"%string "generic"%string ex_two_shops ex_two_shops ExternalError Hsend)
    as (_ & Hclient & Hgateway).
  split; [exact Hclient | exact Hgateway].
Defined.

Lemma send_sms_counts_every_attempt_witness :
  exists w',
    send_sms ex_sms_settings ex_gateway_rejecting_first 2 "+359888000001"%string
             "hello"%string "generic"%string ex_two_shops = (Ok false, w')
    /\ map Shop.sms_usage_count (shops w') = [0; 1].
Proof.
  exists (snd (send_sms ex_sms_settings ex_gateway_rejecting_first 2
                        "+359888000001"%string "hello"%string "generic"%string ex_two_shops)).
  assert (Hsend : send_sms ex_sms_settings ex_gateway_rejecting_first 2
                           "+359888000001"%string "hello"%string "generic"%string ex_two_shops
                  = (Ok false,
                     snd (send_sms ex_sms_settings ex_gateway_rejecting_first
                                   2 "+359888000001"%string "hello"%string "generic"%string
                                   ex_two_shops)))
    by (vm_compute; reflexivity).
  split; [exact Hsend |].
  pose proof (send_sms_counts_every_attempt
                ex_sms_settings ex_gateway_rejecting_first 2 "+359888000001"%string
                "hello"%string "generic"%string ex_two_shops _ false Hsend) as Hcount.
  cbn [find shops ex_two_shops Shop.id Z.eqb Pos.eqb] in Hcount.
  destruct Hcount as (before & after & shop' & _ & _).
  vm_compute. reflexivity.
Defined.

(** * Further properties of the sweep *)

Lemma subseq_In {A} (l l' : list A) (x : A) :
  subseq l l' -> In x l -> In x l'.
Proof.
  induction 1 as [| y l l' _ IH | y l l' _ IH]; cbn [In]; intros Hin.
  - exact Hin.
  - right. apply IH, Hin.
  - destruct Hin as [-> | Hin]; [left; reflexivity | right; apply IH, Hin].
Qed.

Lemma subseq_map {A B} (f : A -> B) (l l' : list A) :
  subseq l l' -> subseq (map f l) (map f l').
Proof.
  induction 1; cbn [map];
    [apply subseq_nil | apply subseq_skip | apply subseq_keep]; assumption.
Qed.

Lemma subseq_NoDup {A} (l l' : list A) :
  subseq l l' -> NoDup l' -> NoDup l.
Proof.
  induction 1 as [| y l l' _ IH | y l l' Hsub IH]; intros Hnd.
  - exact Hnd.
  - inversion Hnd; subst. apply IH. assumption.
  - inversion Hnd as [| ? ? Hnotin Hnd']; subst. constructor.
    + intros Hin. apply Hnotin. eapply subseq_In; eassumption.
    + apply IH, Hnd'.
Qed.

Lemma subseq_filter {A} (p : A -> bool) (l : list A) :
  subseq (filter p l) l.
Proof.
  induction l as [| x l IH]; cbn [filter]; [constructor |].
  destruct (p x); [apply subseq_keep | apply subseq_skip]; assumption.
Qed.

Lemma subseq_trans {A} (l1 l2 l3 : list A) :
  subseq l1 l2 -> subseq l2 l3 -> subseq l1 l3.
Proof.
  intros H12 H23. revert l1 H12.
  induction H23 as [| x l2 l3 _ IH | x l2 l3 _ IH]; intros l1 H12.
  - exact H12.
  - constructor. apply IH, H12.
  - inversion H12; subst.
    + apply subseq_skip. apply IH. assumption.
    + apply subseq_keep. apply IH. assumption.
Qed.

(** The vehicles the loop adds to its accumulator, in order. *)
Lemma reminder_loop_cars
      (settings : Settings) (xs : list Car.t) (acc r : list ReminderItem)
      (w w' : World) :
  for_each xs (reminder_loop_body settings) acc w = (Ok r, w') ->
  exists l, r = acc ++ l /\ subseq (map item_car l) xs.
Proof.
  revert acc w. induction xs as [| x xs IH]; intros acc w Hrun;
    cbn [for_each] in Hrun.
  - unfold ret in Hrun. injection Hrun as <- _. exists [].
    rewrite app_nil_r. split; [reflexivity | constructor].
  - unfold bind in Hrun.
    destruct (reminder_loop_body settings x acc w) as [[acc1 | e] w1] eqn:Hb;
      [| discriminate].
    destruct (IH _ _ Hrun) as (l & -> & Hsub).
    destruct (reminder_loop_body_item _ _ _ _ _ _ Hb)
      as [-> | (it & _ & -> & Hcar & _)].
    + exists l. split; [reflexivity | apply subseq_skip; exact Hsub].
    + exists (it :: l). rewrite <- app_assoc. split; [reflexivity |].
      cbn [map]. rewrite Hcar. apply subseq_keep. exact Hsub.
Qed.

(** A vehicle that is reported due has a projection and a threshold, and
    the projection has reached the threshold. *)
Lemma needs_result_shape
      (settings : Settings) (car_id : Z) (w : World)
      (p d : option Z) :
  fst (needs_service_reminder settings car_id w) = Ok (true, p, d) ->
  exists predicted threshold,
    p = Some predicted /\ d = Some threshold /\ threshold <= predicted.
Proof.
  rewrite needs_service_reminder_unfold.
  destruct (find _ (cars w)) as [car |]; [| discriminate].
  destruct (predict_mileage settings car_id _ w) as [[[pv |] | e] w1];
    try discriminate.
  destruct (Car.current_mileage car) as [current |]; [| discriminate].
  destruct (mod_ _ _) as [r |]; [| discriminate].
  cbn [fst]. intros H. injection H as Hdue <- <-.
  do 2 eexists. split; [reflexivity |]. split; [reflexivity |].
  apply Z.geb_le in Hdue. exact Hdue.
Qed.

(** X9. What a sweep returns is sound: the returned vehicles are vehicles
    of the swept shop with a positive service interval, they come in table
    order with no vehicle row returned twice, and each of them carries a
    projection that has reached its threshold. *)
Theorem sweep_returns_due_cars_of_the_shop
        (settings : Settings) (shop_id : Z) (w w' : World)
        (items : list ReminderItem) :
  check_all_cars_for_reminders settings shop_id w = (Ok items, w') ->
  subseq (map item_car items) (swept_cars shop_id w)
  /\ (unique_car_ids w ->
      NoDup (map (fun it => Car.id (item_car it)) items))
  /\ forall it, In it items ->
       In (item_car it) (cars w)
       /\ Car.shop_id (item_car it) = shop_id
       /\ 0 < Car.service_interval_km (item_car it)
       /\ exists predicted threshold,
            item_predicted_mileage it = Some predicted
            /\ item_service_due_mileage it = Some threshold
            /\ threshold <= predicted.
Proof.
  intros Hrun.
  assert (Hsub : subseq (map item_car items) (swept_cars shop_id w)).
  { unfold check_all_cars_for_reminders, bind, query in Hrun.
    destruct (reminder_loop_cars _ _ _ _ _ _ Hrun) as (l & -> & Hsub).
    exact Hsub. }
  split; [exact Hsub |]. split.
  - intros Hnd. unfold unique_car_ids in Hnd.
    rewrite <- (map_map item_car Car.id).
    eapply subseq_NoDup; [| exact Hnd].
    apply subseq_map.
    eapply subseq_trans; [exact Hsub | apply subseq_filter].
  - intros it Hit.
    assert (Hin : In (item_car it) (swept_cars shop_id w)).
    { eapply subseq_In; [exact Hsub |]. apply in_map, Hit. }
    apply filter_In in Hin as [Hin Hf]. apply andb_prop in Hf as [Hs Hi].
    apply Z.eqb_eq in Hs. apply Z.ltb_lt in Hi.
    repeat (split; [assumption |]).
    destruct (sweep_items _ _ _ _ _ Hrun it Hit) as (_ & Hneeds & _).
    eapply needs_result_shape. exact Hneeds.
Qed.

Lemma sweep_returns_due_cars_of_the_shop_witness :
  exists it,
    check_all_cars_for_reminders default_settings 1 (ex_world 99000)
    = (Ok [it], snd (check_all_cars_for_reminders default_settings 1
                                                  (ex_world 99000)))
    /\ Car.shop_id (item_car it) = 1
    /\ 0 < Car.service_interval_km (item_car it).
Proof.
  assert (Hrun : exists it,
             check_all_cars_for_reminders default_settings 1 (ex_world 99000)
             = (Ok [it], snd (check_all_cars_for_reminders
                                default_settings 1 (ex_world 99000))))
    by (vm_compute; eexists; reflexivity).
  destruct Hrun as [it Hrun]. exists it. split; [exact Hrun |].
  destruct (sweep_returns_due_cars_of_the_shop _ _ _ _ _ Hrun)
    as (_ & _ & H).
  destruct (H it (or_introl eq_refl)) as (_ & Hshop & Hpos & _).
  split; assumption.
Defined.

(** The estimate reads the vehicles and the visits, nothing else. *)
Lemma calculate_reads_visits
      (settings : Settings) (car_id : Z) (w w' : World) :
  work_orders w' = work_orders w ->
  fst (calculate_average_km_per_day settings car_id w')
  = fst (calculate_average_km_per_day settings car_id w).
Proof.
  intros Hwo.
  unfold calculate_average_km_per_day, bind, query, lift, ret,
    qualifying_visits.
  rewrite Hwo.
  destruct (_ <? _); [reflexivity |].
  destruct (getitem _ 0); [| reflexivity].
  destruct (getitem _ (-1)); [| reflexivity].
  destruct (mileage_sub _ _); [| reflexivity].
  destruct (_ =? 0); [reflexivity |].
  destruct (truediv _ _); reflexivity.
Qed.

Lemma needs_reads_fleet
      (settings : Settings) (car_id : Z) (w w' : World) :
  cars w' = cars w -> work_orders w' = work_orders w ->
  fst (needs_service_reminder settings car_id w')
  = fst (needs_service_reminder settings car_id w).
Proof.
  intros Hc Hwo.
  rewrite !needs_service_reminder_unfold, !predict_mileage_unfold, Hc.
  destruct (find _ (cars w)) as [car |]; [| reflexivity].
  pose proof (calculate_reads_visits settings car_id w w' Hwo) as Hcalc.
  destruct (calculate_average_km_per_day settings car_id w')
    as [[[rate' |] | e'] w1'];
    destruct (calculate_average_km_per_day settings car_id w)
      as [[[rate |] | e] w1];
    cbn [fst] in Hcalc; try discriminate Hcalc; try reflexivity.
  - injection Hcalc as ->.
    destruct (mul_int rate _); [| reflexivity].
    destruct (int _); [| reflexivity].
    destruct (Car.current_mileage car); [| reflexivity].
    destruct (mod_ _ _); reflexivity.
  - injection Hcalc as ->. reflexivity.
Qed.

Lemma find_unique_car (w : World) (car : Car.t) :
  unique_car_ids w -> In car (cars w) ->
  find (fun c => Car.id c =? Car.id car) (cars w) = Some car.
Proof.
  unfold unique_car_ids. induction (cars w) as [| x l IH]; cbn [map find In];
    intros Hnd Hin; [contradiction |].
  inversion Hnd as [| ? ? Hnotin Hnd']; subst.
  destruct Hin as [-> | Hin].
  - rewrite Z.eqb_refl. reflexivity.
  - destruct (Z.eqb_spec (Car.id x) (Car.id car)) as [Heq | _].
    + exfalso. apply Hnotin. rewrite Heq. apply in_map, Hin.
    + apply IH; assumption.
Qed.

(** On stored values in range the evaluation of a vehicle with a positive
    interval raises in one case only: the vehicle has no stored odometer. *)
Lemma needs_raises_without_odometer
      (settings : Settings) (car_id : Z) (w : World) (car : Car.t) (e : exn) :
  stored_in_range w ->
  1 <= MIN_VISITS_FOR_PREDICTION settings ->
  int64 (SERVICE_REMINDER_DAYS_AHEAD settings) ->
  find (fun c => Car.id c =? car_id) (cars w) = Some car ->
  0 < Car.service_interval_km car ->
  fst (needs_service_reminder settings car_id w) = Raise e ->
  e = TypeError /\ Car.current_mileage car = None.
Proof.
  intros Hrange Hmin Hhorizon Hfind Hpos.
  destruct (Car.current_mileage car) as [current |] eqn:Hcurrent.
  - destruct (needs_total settings car_id w Hrange Hmin Hhorizon) as [r Hr].
    + intros car0 Hcar0. rewrite Hfind in Hcar0. injection Hcar0 as <-.
      split; [exact Hpos |]. rewrite Hcurrent. discriminate.
    + rewrite Hr. discriminate.
  - rewrite needs_service_reminder_unfold, predict_mileage_unfold, Hfind,
      Hcurrent.
    destruct (calculate_total settings car_id w Hrange Hmin) as [r Hr].
    pose proof Hr as Hr'. rewrite Hr.
    destruct r as [rate |]; [| discriminate].
    pose proof (calculate_result_in_range _ _ _ _ _ Hrange Hr') as Hin.
    destruct (mul_int_total rate (SERVICE_REMINDER_DAYS_AHEAD settings) Hin)
      as (p & Hp & Hi & _).
    { unfold int64 in Hhorizon.
      change (2 ^ 63) with 9223372036854775808 in Hhorizon.
      change (2 ^ 64) with 18446744073709551616. lia. }
    rewrite Hp, Hi. cbn [fst]. intros H. injection H as <-.
    split; reflexivity.
Qed.

(** The ways in which one turn of the loop can raise. *)
Lemma reminder_loop_body_raises
      (settings : Settings) (car : Car.t) (acc : list ReminderItem)
      (w w' : World) (e : exn) :
  stored_in_range w ->
  1 <= MIN_VISITS_FOR_PREDICTION settings ->
  int64 (SERVICE_REMINDER_DAYS_AHEAD settings) ->
  unique_car_ids w ->
  In car (cars w) -> 0 < Car.service_interval_km car ->
  reminder_loop_body settings car acc w = (Raise e, w') ->
  raises_because settings w car e.
Proof.
  intros Hrange Hmin Hhorizon Hunique Hin Hpos.
  pose proof (find_unique_car w car Hunique Hin) as Hfind.
  rewrite reminder_loop_body_unfold. unfold raises_because.
  destruct (find (recently_sent _ _) _); [discriminate |].
  pose proof (needs_raises_without_odometer
                settings (Car.id car) w car) as Hraise.
  pose proof (needs_result_shape settings (Car.id car) w) as Hshape.
  destruct (fst (needs_service_reminder settings (Car.id car) w))
    as [[[[|] p] d] | e0]; try discriminate.
  - destruct (find (unsent_for _) _); [discriminate |].
    destruct (Hshape p d eq_refl) as (pv & dv & -> & -> & _).
    destruct (storable pv && storable dv) eqn:Hfits; [discriminate |].
    intros H. injection H as <- _. right. split; [reflexivity |].
    exists pv, dv. split; [reflexivity |].
    intros [Hp Hd]. apply storable_int64 in Hp, Hd.
    rewrite Hp, Hd in Hfits. discriminate.
  - intros H. injection H as <- _. left.
    apply (Hraise e0 Hrange Hmin Hhorizon Hfind Hpos eq_refl).
Qed.

(** X10. On stored values in range, with unique vehicle ids, a configured
    minimum of at least one visit and a horizon in the 64-bit range, a
    sweep raises in two cases only: [TypeError], because a vehicle of the
    shop with a positive interval has no stored odometer (its column is
    NULL), and [OverflowError], because such a vehicle is due with a
    projection or a threshold that the store cannot hold, so that the
    insert of its record fails.  In particular the sweep never divides by
    zero and never indexes an empty list of visits. *)
Theorem sweep_raises_in_two_cases_only
        (settings : Settings) (shop_id : Z) (w w' : World) (e : exn) :
  stored_in_range w ->
  1 <= MIN_VISITS_FOR_PREDICTION settings ->
  int64 (SERVICE_REMINDER_DAYS_AHEAD settings) ->
  unique_car_ids w ->
  check_all_cars_for_reminders settings shop_id w = (Raise e, w') ->
  exists car,
    In car (cars w)
    /\ Car.shop_id car = shop_id
    /\ 0 < Car.service_interval_km car
    /\ ((e = TypeError /\ Car.current_mileage car = None)
        \/ (e = OverflowError
            /\ exists predicted threshold,
                 fst (needs_service_reminder settings (Car.id car) w)
                 = Ok (true, Some predicted, Some threshold)
                 /\ ~ (int64 predicted /\ int64 threshold))).
Proof.
  intros Hrange Hmin Hhorizon Hunique.
  unfold check_all_cars_for_reminders, bind, query.
  fold (swept_cars shop_id w).
  assert (Hloop : forall xs acc w1,
             (forall x, In x xs -> In x (swept_cars shop_id w)) ->
             cars w1 = cars w -> work_orders w1 = work_orders w ->
             for_each xs (reminder_loop_body settings) acc w1
             = (Raise e, w') ->
             exists car, In car (swept_cars shop_id w)
                         /\ raises_because settings w car e).
  { induction xs as [| x xs IH]; intros acc w1 Hxs Hc Hwo Hrun;
      cbn [for_each] in Hrun; [discriminate |].
    unfold bind in Hrun.
    destruct (reminder_loop_body settings x acc w1) as [[acc1 | e1] w2]
      eqn:Hb.
    - pose proof (reminder_loop_body_effect settings x acc w1) as Heff.
      rewrite Hb in Heff. cbn [snd] in Heff.
      apply (IH acc1 w2); [| | | exact Hrun].
      + intros y Hy. apply Hxs. right. exact Hy.
      + destruct Heff as [-> | (r & -> & _)]; assumption.
      + destruct Heff as [-> | (r & -> & _)]; assumption.
    - injection Hrun as -> _.
      assert (Hx : In x (swept_cars shop_id w))
        by (apply Hxs; left; reflexivity).
      exists x. split; [exact Hx |].
      apply filter_In in Hx as [Hx Hf].
      apply andb_prop in Hf as [_ Hi]. apply Z.ltb_lt in Hi.
      assert (Hcause : raises_because settings w1 x e).
      { eapply reminder_loop_body_raises; try eassumption.
        - unfold stored_in_range. rewrite Hwo. exact Hrange.
        - unfold unique_car_ids. rewrite Hc. exact Hunique.
        - rewrite Hc. exact Hx. }
      unfold raises_because in *.
      rewrite (needs_reads_fleet settings (Car.id x) w w1 Hc Hwo) in Hcause.
      exact Hcause. }
  intros Hrun.
  destruct (Hloop _ _ _ (fun x Hx => Hx) eq_refl eq_refl Hrun)
    as (car & Hcar & Hcause).
  exists car. apply filter_In in Hcar as [Hin Hf].
  apply andb_prop in Hf as [Hs Hi].
  apply Z.eqb_eq in Hs. apply Z.ltb_lt in Hi.
  repeat (split; [assumption |]). exact Hcause.
Qed.

Lemma sweep_raises_in_two_cases_only_witness :
  stored_in_range ex_overflow_fleet
  /\ unique_car_ids ex_overflow_fleet
  /\ check_all_cars_for_reminders default_settings 1 ex_overflow_fleet
     = (Raise OverflowError, ex_overflow_fleet)
  /\ exists car,
       In car (cars ex_overflow_fleet)
       /\ ~ Car.current_mileage car = None.
Proof.
  assert (Hrange : stored_in_range ex_overflow_fleet) by visits_in_range.
  assert (Hunique : unique_car_ids ex_overflow_fleet).
  { unfold unique_car_ids. cbn.
    repeat (constructor;
            [cbn; intros H;
             repeat (destruct H as [H | H]; [discriminate H |]); exact H |]).
    constructor. }
  assert (Hrun : check_all_cars_for_reminders default_settings 1
                                              ex_overflow_fleet
                 = (Raise OverflowError, ex_overflow_fleet))
    by (vm_compute; reflexivity).
  split; [exact Hrange |]. split; [exact Hunique |]. split; [exact Hrun |].
  destruct (sweep_raises_in_two_cases_only
              default_settings 1 ex_overflow_fleet ex_overflow_fleet
              OverflowError Hrange)
    as (car & Hin & _ & _ & [[Hno _] | [_ (p & d & Hneeds & _)]]);
    try assumption.
  - vm_compute. intros Hcmp. discriminate Hcmp.
  - in_int64.
  - discriminate Hno.
  - exists car. split; [exact Hin |]. intros Hnone.
    rewrite needs_service_reminder_unfold in Hneeds.
    pose proof (find_unique_car _ car Hunique Hin) as Hfind.
    rewrite Hfind in Hneeds.
    destruct (predict_mileage default_settings (Car.id car) _ _)
      as [[[pv |] | e0] w1]; try discriminate Hneeds.
    rewrite Hnone in Hneeds. discriminate Hneeds.
Defined.

(** * Primary keys of the reminder table *)

Lemma next_id_fresh (ids : list Z) (i : Z) : In i ids -> i < next_id ids.
Proof.
  unfold next_id. induction ids as [| j ids IH]; cbn [In fold_right];
    [contradiction |].
  intros [-> | Hin]; [lia |]. specialize (IH Hin). lia.
Qed.

Lemma map_id_update_first_set_sent
      (p : ServiceReminder.t -> bool) (now : Z)
      (l : list ServiceReminder.t) :
  map ServiceReminder.id (update_first p (set_sent now) l)
  = map ServiceReminder.id l.
Proof.
  induction l as [| x l IH]; cbn [update_first map]; [reflexivity |].
  destruct (p x); cbn [map]; [reflexivity | rewrite IH; reflexivity].
Qed.

Lemma reminder_loop_body_keeps_unique_ids
      (settings : Settings) (car : Car.t) (acc : list ReminderItem)
      (w : World) :
  unique_reminder_ids w ->
  unique_reminder_ids (snd (reminder_loop_body settings car acc w)).
Proof.
  intros Hnd. rewrite reminder_loop_body_unfold.
  destruct (find (recently_sent _ _) _); [exact Hnd |].
  destruct (fst (needs_service_reminder settings (Car.id car) w))
    as [[[[|] p] d] | e]; try exact Hnd.
  destruct (find (unsent_for _) _); [exact Hnd |].
  destruct p as [p |]; [| exact Hnd]. destruct d as [d |]; [| exact Hnd].
  destruct (storable p && storable d); [| exact Hnd].
  unfold unique_reminder_ids in *.
  cbn [snd service_reminders set_service_reminders].
  rewrite map_app. cbn [map new_reminder ServiceReminder.id].
  apply NoDup_app; [exact Hnd | repeat constructor; intros [] |].
  intros i Hi [<- | []].
  apply next_id_fresh in Hi. lia.
Qed.

Lemma sweep_keeps_unique_ids (settings : Settings) (shop_id : Z) (w : World) :
  unique_reminder_ids w ->
  unique_reminder_ids (snd (check_all_cars_for_reminders settings shop_id w)).
Proof.
  intros Hnd. unfold check_all_cars_for_reminders, bind, query.
  apply for_each_invariant; [| exact Hnd].
  intros x acc w0. apply reminder_loop_body_keeps_unique_ids.
Qed.

Lemma mark_keeps_unique_ids (reminder_id : Z) (w : World) :
  unique_reminder_ids w ->
  unique_reminder_ids (snd (mark_reminder_sent reminder_id w)).
Proof.
  intros Hnd. rewrite mark_reminder_sent_unfold. cbn [snd].
  destruct (find _ (service_reminders w)); [| exact Hnd].
  unfold unique_reminder_ids.
  cbn [service_reminders set_service_reminders].
  rewrite map_id_update_first_set_sent. exact Hnd.
Qed.

Lemma send_reminder_keeps_unique_ids
      (settings : Settings)
      (gateway : World -> string -> option string -> string -> TwilioOutcome)
      (shop : Shop.t) (item : ReminderItem) (w : World) :
  unique_reminder_ids w ->
  unique_reminder_ids (snd (send_reminder settings gateway shop item w)).
Proof.
  intros Hnd. unfold send_reminder.
  destruct (item_customer item) as [customer |]; [| exact Hnd].
  unfold send_service_reminder_sms, bind. rewrite send_sms_unfold.
  destruct (negb (client_configured settings)); [exact Hnd |].
  match goal with
  | |- context [gateway ?a ?b ?c ?d] => destruct (gateway a b c d)
  end; try exact Hnd.
  apply mark_keeps_unique_ids. exact Hnd.
Qed.

Lemma sweep_shop_keeps_unique_ids
      (settings : Settings)
      (gateway : World -> string -> option string -> string -> TwilioOutcome)
      (shop : Shop.t) (w : World) :
  unique_reminder_ids w ->
  unique_reminder_ids (snd (sweep_shop settings gateway shop w)).
Proof.
  intros Hnd. unfold sweep_shop, bind.
  pose proof (sweep_keeps_unique_ids settings (Shop.id shop) w Hnd) as H1.
  destruct (check_all_cars_for_reminders settings (Shop.id shop) w)
    as [[items | e] w1]; cbn [snd] in H1; [| exact H1].
  apply for_each_invariant; [| exact H1].
  intros item [] w2. apply send_reminder_keeps_unique_ids.
Qed.

(** The ids of the reminder records stay unique under every operation
    of the engine: a sweep (which gives a new record an id above every
    stored one), the marking of a record, and a whole run of the job. *)
Lemma reminder_ids_stay_unique
        (settings : Settings)
        (gateway : World -> string -> option string -> string
                   -> TwilioOutcome)
        (w : World) :
  unique_reminder_ids w ->
  (forall shop_id,
      unique_reminder_ids
        (snd (check_all_cars_for_reminders settings shop_id w)))
  /\ (forall reminder_id,
         unique_reminder_ids (snd (mark_reminder_sent reminder_id w)))
  /\ unique_reminder_ids (snd (check_service_reminders settings gateway w)).
Proof.
  intros Hnd. split; [| split].
  - intros shop_id. apply sweep_keeps_unique_ids, Hnd.
  - intros reminder_id. apply mark_keeps_unique_ids, Hnd.
  - unfold check_service_reminders, try_except, bind, query.
    pose proof (for_each_invariant unique_reminder_ids
                  (fun shop (_ : unit) => sweep_shop settings gateway shop)
                  (fun shop _ w0 =>
                     sweep_shop_keeps_unique_ids settings gateway shop w0)
                  (filter (fun s => Shop.is_active s && Shop.sms_enabled s)
                          (shops w)) tt w Hnd) as H.
    destruct (for_each _ _ tt w) as [[[] | e] w']; exact H.
Qed.

(** * What a run of the job can change *)

Lemma for_each_invariant_in {A B} (P : World -> Prop) (body : A -> B -> M B)
      (xs : list A) :
  (forall x acc w, In x xs -> P w -> P (snd (body x acc w))) ->
  forall acc w, P w -> P (snd (for_each xs body acc w)).
Proof.
  induction xs as [| x xs IH]; intros Hbody acc w Hw; cbn [for_each].
  - exact Hw.
  - unfold bind.
    pose proof (Hbody x acc w (or_introl eq_refl) Hw) as Hx.
    destruct (body x acc w) as [[acc' | e] w']; cbn [snd] in *.
    + apply IH; [| exact Hx].
      intros y acc0 w0 Hy. apply Hbody. right. exact Hy.
    + exact Hx.
Qed.

Lemma marked_or_same_refl (now : Z) (l : list ServiceReminder.t) :
  Forall2 (marked_or_same now) l l.
Proof. induction l; constructor; [left; reflexivity | assumption]. Qed.

Lemma marked_or_same_trans (now : Z) (l1 l2 l3 : list ServiceReminder.t) :
  Forall2 (marked_or_same now) l1 l2 ->
  Forall2 (marked_or_same now) l2 l3 ->
  Forall2 (marked_or_same now) l1 l3.
Proof.
  intros H12. revert l3.
  induction H12 as [| x y l1 l2 Hxy _ IH]; intros l3 H23;
    inversion H23 as [| ? z ? l3' Hyz H23']; subst; constructor.
  - destruct Hxy as [-> | ->]; [exact Hyz |].
    destruct Hyz as [-> | ->]; right; reflexivity.
  - apply IH, H23'.
Qed.

Lemma marked_or_same_update_first
      (p : ServiceReminder.t -> bool) (now : Z)
      (l : list ServiceReminder.t) :
  Forall2 (marked_or_same now) l (update_first p (set_sent now) l).
Proof.
  induction l as [| x l IH]; cbn [update_first]; [constructor |].
  destruct (p x); constructor;
    [right; reflexivity | apply marked_or_same_refl
     | left; reflexivity | exact IH].
Qed.

Lemma map_profile_bump (p : Shop.t -> bool) (now : Z) (l : list Shop.t) :
  map shop_profile (update_first p (bump_usage now) l) = map shop_profile l.
Proof.
  induction l as [| x l IH]; cbn [update_first map]; [reflexivity |].
  destruct (p x); cbn [map]; [reflexivity | rewrite IH; reflexivity].
Qed.

Section FrameFacts.

Variable P : ServiceReminder.t -> Prop.
Hypothesis P_marked : forall now r, P r -> P (set_sent now r).

Lemma job_frame_refl (w : World) : job_frame P w w.
Proof.
  unfold job_frame. repeat (split; [reflexivity |]).
  split; [exists []; rewrite app_nil_r; reflexivity |].
  split; [reflexivity |].
  exists (service_reminders w), []. rewrite app_nil_r.
  split; [reflexivity |]. split; [apply marked_or_same_refl | constructor].
Qed.

Lemma job_frame_trans (w1 w2 w3 : World) :
  job_frame P w1 w2 -> job_frame P w2 w3 -> job_frame P w1 w3.
Proof.
  intros (Hc & Hwo & Hcu & Hcl & [logs Hl] & Hs & old & new & Hr & Hold & Hnew)
         (Hc' & Hwo' & Hcu' & Hcl' & [logs' Hl'] & Hs' & old' & new' & Hr'
          & Hold' & Hnew').
  unfold job_frame.
  split; [congruence |]. split; [congruence |]. split; [congruence |].
  split; [congruence |].
  split; [exists (logs ++ logs'); rewrite Hl', Hl, app_assoc; reflexivity |].
  split; [congruence |].
  rewrite Hr in Hold'.
  apply Forall2_app_inv_l in Hold' as (a & b & Ha & Hb & ->).
  exists a, (b ++ new'). rewrite Hr', <- app_assoc.
  split; [reflexivity |]. split.
  - rewrite Hcl in Ha. eapply marked_or_same_trans; eassumption.
  - apply Forall_app. split; [| exact Hnew'].
    clear - Hnew Hb P_marked. revert b Hb.
    induction Hnew as [| x new Hx _ IH]; intros b Hb;
      inversion Hb as [| ? y ? b' Hxy Hb']; subst; constructor.
    + destruct Hxy as [-> | ->]; [exact Hx | apply P_marked, Hx].
    + apply IH, Hb'.
Qed.

Lemma job_frame_append (w : World) (r : ServiceReminder.t) :
  P r ->
  job_frame P w (set_service_reminders (service_reminders w ++ [r]) w).
Proof.
  intros Hr. unfold job_frame.
  cbn [cars work_orders customers clock sms_logs shops service_reminders
            set_service_reminders].
  repeat (split; [reflexivity |]).
  split; [exists []; rewrite app_nil_r; reflexivity |].
  split; [reflexivity |].
  exists (service_reminders w), [r].
  split; [reflexivity |].
  split; [apply marked_or_same_refl | constructor; [exact Hr | constructor]].
Qed.

Lemma job_frame_mark (reminder_id : Z) (w : World) :
  job_frame P w (snd (mark_reminder_sent reminder_id w)).
Proof.
  rewrite mark_reminder_sent_unfold. cbn [snd].
  destruct (find _ (service_reminders w)); [| apply job_frame_refl].
  unfold job_frame.
  cbn [cars work_orders customers clock sms_logs shops service_reminders
            set_service_reminders].
  repeat (split; [reflexivity |]).
  split; [exists []; rewrite app_nil_r; reflexivity |].
  split; [reflexivity |].
  eexists. exists []. rewrite app_nil_r.
  split; [reflexivity |].
  split; [apply marked_or_same_update_first | constructor].
Qed.

Lemma job_frame_logged (w : World) (shop_id : Z) (entry : SMSLog.t) :
  job_frame P w (logged shop_id entry w).
Proof.
  unfold job_frame, logged.
  cbn [cars work_orders customers clock sms_logs shops service_reminders
            set_shops set_sms_logs].
  repeat (split; [reflexivity |]).
  split; [exists [entry]; reflexivity |].
  split; [apply map_profile_bump |].
  exists (service_reminders w), []. rewrite app_nil_r.
  split; [reflexivity |]. split; [apply marked_or_same_refl | constructor].
Qed.

Variable settings : Settings.
Variable gateway : World -> string -> option string -> string -> TwilioOutcome.

Lemma job_frame_body (car : Car.t) (acc : list ReminderItem) (w : World) :
  (forall r, ServiceReminder.car_id r = Car.id car -> P r) ->
  job_frame P w (snd (reminder_loop_body settings car acc w)).
Proof.
  intros Hcar.
  destruct (reminder_loop_body_effect settings car acc w)
    as [-> | (r & -> & Hr & _)]; [apply job_frame_refl |].
  apply job_frame_append, Hcar. apply unsent_for_car in Hr. apply Hr.
Qed.

Lemma job_frame_sweep (shop_id : Z) (w0 w : World) :
  (forall car r, In car (swept_cars shop_id w) ->
                 ServiceReminder.car_id r = Car.id car -> P r) ->
  job_frame P w0 w ->
  job_frame P w0 (snd (check_all_cars_for_reminders settings shop_id w)).
Proof.
  intros Hcars Hw. unfold check_all_cars_for_reminders, bind, query.
  apply (for_each_invariant_in (job_frame P w0)); [| exact Hw].
  intros x acc wc Hx Hwc. eapply job_frame_trans; [exact Hwc |].
  apply job_frame_body. intros r. apply Hcars. exact Hx.
Qed.

Lemma job_frame_send (shop : Shop.t) (item : ReminderItem) (w : World) :
  job_frame P w (snd (send_reminder settings gateway shop item w)).
Proof.
  unfold send_reminder.
  destruct (item_customer item) as [customer |]; [| apply job_frame_refl].
  unfold send_service_reminder_sms, bind. rewrite send_sms_unfold.
  destruct (negb (client_configured settings)); [apply job_frame_logged |].
  match goal with
  | |- context [gateway ?a ?b ?c ?d] => destruct (gateway a b c d)
  end; cbn [snd]; [| apply job_frame_logged | apply job_frame_refl].
  eapply job_frame_trans; [apply job_frame_logged | apply job_frame_mark].
Qed.

Lemma job_frame_sweep_shop (shop : Shop.t) (w0 w : World) :
  (forall car r, In car (swept_cars (Shop.id shop) w) ->
                 ServiceReminder.car_id r = Car.id car -> P r) ->
  job_frame P w0 w ->
  job_frame P w0 (snd (sweep_shop settings gateway shop w)).
Proof.
  intros Hcars Hw. unfold sweep_shop, bind.
  pose proof (job_frame_sweep (Shop.id shop) w0 w Hcars Hw) as H1.
  destruct (check_all_cars_for_reminders settings (Shop.id shop) w)
    as [[items | e] w1]; cbn [snd] in H1; [| exact H1].
  apply (for_each_invariant (job_frame P w0)); [| exact H1].
  intros item [] w2 Hw2. eapply job_frame_trans; [exact Hw2 |].
  apply job_frame_send.
Qed.

End FrameFacts.

Lemma created_for_eligible_marked (w : World) (now : Z)
      (r : ServiceReminder.t) :
  created_for_eligible w r -> created_for_eligible w (set_sent now r).
Proof. intros H. exact H. Qed.

Lemma job_frame_job
      (settings : Settings)
      (gateway : World -> string -> option string -> string -> TwilioOutcome)
      (w : World) :
  job_frame (created_for_eligible w) w
            (snd (check_service_reminders settings gateway w)).
Proof.
  unfold check_service_reminders, try_except, bind, query.
  pose proof (for_each_invariant_in
                (job_frame (created_for_eligible w) w)
                (fun shop (_ : unit) => sweep_shop settings gateway shop)
                (filter (fun s => Shop.is_active s && Shop.sms_enabled s)
                        (shops w))) as H.
  specialize (H ltac:(
    intros shop acc wc Hshop Hwc;
    apply (job_frame_sweep_shop _ (created_for_eligible_marked w));
      [| exact Hwc];
    intros car r Hcar Hr;
    unfold swept_cars in Hcar; apply filter_In in Hcar as [Hin Hf];
    apply andb_prop in Hf as [Hs Hi];
    apply Z.eqb_eq in Hs; apply Z.ltb_lt in Hi;
    destruct Hwc as (Hc & _); rewrite Hc in Hin;
    exists car, shop; repeat split; assumption)
    tt w (job_frame_refl _ w)).
  destruct (for_each _ _ tt w) as [[[] | e] w']; exact H.
Qed.

(** X11. A run of the job never touches the vehicles, the visits, the
    customers or the clock; it only appends to the SMS log; it changes
    nothing of a shop but its usage counter and its [updated_at]; and it
    never deletes or
    rewrites a stored reminder record: every record that was there is
    still there, in place, as it was or marked sent at the clock. *)
Theorem job_changes_only_its_own_tables
        (settings : Settings)
        (gateway : World -> string -> option string -> string
                   -> TwilioOutcome)
        (w : World) :
  let w' := snd (check_service_reminders settings gateway w) in
  cars w' = cars w
  /\ work_orders w' = work_orders w
  /\ customers w' = customers w
  /\ clock w' = clock w
  /\ (exists logs, sms_logs w' = sms_logs w ++ logs)
  /\ map shop_profile (shops w') = map shop_profile (shops w)
  /\ exists old new,
       service_reminders w' = old ++ new
       /\ Forall2 (marked_or_same (clock w)) (service_reminders w) old.
Proof.
  cbv zeta.
  destruct (job_frame_job settings gateway w)
    as (Hc & Hwo & Hcu & Hcl & Hl & Hs & old & new & Hr & Hold & _).
  repeat (split; [assumption |]).
  exists old, new. split; assumption.
Qed.

(** X12. Every reminder record a run of the job creates belongs to a
    vehicle with a positive service interval of a shop that is active and
    has SMS enabled: vehicles of other shops get no record. *)
Theorem job_creates_records_for_eligible_shops_only
        (settings : Settings)
        (gateway : World -> string -> option string -> string
                   -> TwilioOutcome)
        (w : World) :
  exists old new,
    service_reminders (snd (check_service_reminders settings gateway w))
    = old ++ new
    /\ List.length old = List.length (service_reminders w)
    /\ Forall (created_for_eligible w) new.
Proof.
  destruct (job_frame_job settings gateway w)
    as (_ & _ & _ & _ & _ & _ & old & new & Hr & Hold & Hnew).
  exists old, new. split; [exact Hr |]. split; [| exact Hnew].
  symmetry. eapply Forall2_length. exact Hold.
Qed.

(** * From a notification to the suppression of the vehicle *)

(** Every item a sweep returns names a stored record of its vehicle. *)
Lemma sweep_items_record
      (settings : Settings) (shop_id : Z) (w w' : World)
      (items : list ReminderItem) :
  check_all_cars_for_reminders settings shop_id w = (Ok items, w') ->
  forall it, In it items ->
    exists r, In r (service_reminders w')
              /\ ServiceReminder.id r = item_reminder_id it
              /\ ServiceReminder.car_id r = Car.id (item_car it).
Proof.
  intros Hrun. unfold check_all_cars_for_reminders, bind, query in Hrun.
  refine (for_each_result
            (fun acc wc =>
               forall it, In it acc ->
                 exists r, In r (service_reminders wc)
                           /\ ServiceReminder.id r = item_reminder_id it
                           /\ ServiceReminder.car_id r
                              = Car.id (item_car it))
            (reminder_loop_body settings) _ _ _ _ _ _ _ Hrun).
  - clear. intros x acc wc acc' wc' Hacc Hbody.
    pose proof (reminder_loop_body_effect settings x acc wc) as Heff.
    rewrite Hbody in Heff. cbn [snd] in Heff.
    assert (Hold : forall it, In it acc ->
               exists r, In r (service_reminders wc')
                         /\ ServiceReminder.id r = item_reminder_id it
                         /\ ServiceReminder.car_id r
                            = Car.id (item_car it)).
    { intros it Hit. destruct (Hacc it Hit) as (r & Hr & Hid & Hcar).
      exists r. split; [| split; assumption].
      destruct Heff as [-> | (nr & -> & _)]; [exact Hr |].
      cbn [service_reminders set_service_reminders].
      apply in_or_app. left. exact Hr. }
    destruct (reminder_loop_body_item _ _ _ _ _ _ Hbody)
      as [-> | (it & r & -> & Hcar & Hid & _ & _ & Hfind & _)];
      [exact Hold |].
    intros it' Hin. apply in_app_or in Hin as [Hin | [<- | []]];
      [apply Hold, Hin |].
    apply find_some in Hfind as [Hr Hu]. apply unsent_for_car in Hu as [Hu _].
    exists r. rewrite Hcar. repeat split; [assumption | congruence | assumption].
  - intros it [].
Qed.

Lemma find_unique_reminder (w : World) (r : ServiceReminder.t) :
  unique_reminder_ids w -> In r (service_reminders w) ->
  find (fun x => ServiceReminder.id x =? ServiceReminder.id r)
       (service_reminders w) = Some r.
Proof.
  unfold unique_reminder_ids.
  induction (service_reminders w) as [| x l IH]; cbn [map find In];
    intros Hnd Hin; [contradiction |].
  inversion Hnd as [| ? ? Hnotin Hnd']; subst.
  destruct Hin as [-> | Hin].
  - rewrite Z.eqb_refl. reflexivity.
  - destruct (Z.eqb_spec (ServiceReminder.id x) (ServiceReminder.id r))
      as [Heq | _].
    + exfalso. apply Hnotin. rewrite Heq. apply in_map, Hin.
    + apply IH; assumption.
Qed.

Lemma thirty_days_positive (now : Z) : now - timedelta_days 30 <= now.
Proof. unfold timedelta_days, microseconds_per_day. lia. Qed.

(** Marking the record found under an id makes its vehicle recently
    notified. *)
Lemma mark_makes_recent (w : World) (r : ServiceReminder.t) :
  find (fun x => ServiceReminder.id x =? ServiceReminder.id r)
       (service_reminders w) = Some r ->
  In (set_sent (clock w) r)
     (service_reminders (snd (mark_reminder_sent (ServiceReminder.id r) w))).
Proof.
  intros Hfind. rewrite mark_reminder_sent_unfold, Hfind.
  cbn [snd service_reminders set_service_reminders].
  destruct (update_first_some _ (set_sent (clock w)) _ _ Hfind)
    as (before & after & _ & _ & _ & ->).
  apply in_or_app. right. left. reflexivity.
Qed.

Lemma has_recent_excluded
      (settings : Settings) (shop_id : Z) (w w' : World)
      (items : list ReminderItem) (car_id : Z) :
  has_recent car_id w ->
  check_all_cars_for_reminders settings shop_id w = (Ok items, w') ->
  forall it, In it items -> Car.id (item_car it) <> car_id.
Proof.
  intros (r & Hr & Hrecent) Hrun it Hit Heq.
  destruct (sweep_items _ _ _ _ _ Hrun it Hit) as [Hnone _].
  destruct (find_In_some _ _ _ Hr Hrecent) as [y Hy].
  rewrite Heq, Hy in Hnone. discriminate.
Qed.

(** X13. With unique record ids, the id a sweep returns for a flagged
    vehicle is the id of a record of that vehicle, so marking it sent (what
    the job does after a delivered SMS) suppresses the vehicle: no sweep
    within 30 days of the marking returns the vehicle again, whatever
    happens to the other tables in between. *)
Theorem notified_vehicle_is_suppressed
        (settings : Settings) (shop_id : Z) (w w1 : World)
        (items : list ReminderItem) (it : ReminderItem) :
  unique_reminder_ids w ->
  check_all_cars_for_reminders settings shop_id w = (Ok items, w1) ->
  In it items ->
  forall w3,
    service_reminders w3
    = service_reminders (snd (mark_reminder_sent (item_reminder_id it) w1)) ->
    clock w3 - timedelta_days 30 <= clock w1 ->
    forall shop_id' items' w4,
      check_all_cars_for_reminders settings shop_id' w3 = (Ok items', w4) ->
      forall it', In it' items' ->
        Car.id (item_car it') <> Car.id (item_car it).
Proof.
  intros Hunique Hrun Hit w3 Hsame Hwindow shop_id' items' w4 Hrun'.
  destruct (sweep_items_record _ _ _ _ _ Hrun it Hit)
    as (r & Hr & Hid & Hcar).
  assert (Hunique1 : unique_reminder_ids w1).
  { pose proof (sweep_keeps_unique_ids settings shop_id w Hunique) as H.
    rewrite Hrun in H. exact H. }
  pose proof (mark_makes_recent w1 r (find_unique_reminder w1 r Hunique1 Hr))
    as Hsent.
  rewrite Hid, <- Hsame in Hsent.
  eapply has_recent_excluded; [| exact Hrun'].
  exists (set_sent (clock w1) r). split; [exact Hsent |].
  unfold recently_sent. cbn. rewrite Hcar, Z.eqb_refl. cbn.
  apply Z.leb_le. exact Hwindow.
Qed.

Lemma notified_vehicle_is_suppressed_witness :
  unique_reminder_ids (ex_world 99000)
  /\ exists it w1,
       check_all_cars_for_reminders default_settings 1 (ex_world 99000)
       = (Ok [it], w1)
       /\ Car.id (item_car it) = 1
       /\ forall items' w4,
            check_all_cars_for_reminders
              default_settings 1
              (set_clock (day 90)
                         (snd (mark_reminder_sent (item_reminder_id it) w1)))
            = (Ok items', w4) ->
            forall it', In it' items' -> Car.id (item_car it') <> 1.
Proof.
  assert (Hunique : unique_reminder_ids (ex_world 99000)) by constructor.
  split; [exact Hunique |].
  assert (Hrun : exists it w1,
             check_all_cars_for_reminders default_settings 1 (ex_world 99000)
             = (Ok [it], w1)
             /\ Car.id (item_car it) = 1
             /\ clock w1 = day 60).
  { vm_compute. do 2 eexists. repeat split. }
  destruct Hrun as (it & w1 & Hrun & Hcar & Hclock).
  exists it, w1. split; [exact Hrun |]. split; [exact Hcar |].
  intros items' w4 Hrun' it' Hit'. rewrite <- Hcar.
  apply (notified_vehicle_is_suppressed
           default_settings 1 (ex_world 99000) w1 [it] it Hunique Hrun
           (or_introl eq_refl)
           (set_clock (day 90)
                      (snd (mark_reminder_sent (item_reminder_id it) w1)))
           eq_refl
           ltac:(cbn [clock set_clock]; rewrite Hclock; vm_compute;
                 intros Hcmp; discriminate Hcmp)
           1 items' w4 Hrun' it' Hit').
Defined.

(** * Running the job twice *)

Lemma Forall2_In_l {A B} (R : A -> B -> Prop) (l : list A) (l' : list B)
      (x : A) :
  Forall2 R l l' -> In x l -> exists y, In y l' /\ R x y.
Proof.
  induction 1 as [| a b l l' Hab _ IH]; cbn [In]; [contradiction |].
  intros [<- | Hin].
  - exists b. split; [left; reflexivity | exact Hab].
  - destruct (IH Hin) as (y & Hy & Hxy). exists y.
    split; [right; exact Hy | exact Hxy].
Qed.

Lemma mark_reminder_sent_clock (reminder_id : Z) (w : World) :
  clock (snd (mark_reminder_sent reminder_id w)) = clock w.
Proof.
  rewrite mark_reminder_sent_unfold. cbn [snd].
  destruct (find _ (service_reminders w)); reflexivity.
Qed.

Section TwiceFacts.

Variable settings : Settings.
Variable gateway : World -> string -> option string -> string -> TwilioOutcome.

Lemma any_record_marked (now : Z) (r : ServiceReminder.t) :
  any_record r -> any_record (set_sent now r).
Proof. intros _. exact I. Qed.

(** A stored record survives the steps of the job, with its id and its
    vehicle. *)
Lemma record_persists (w w' : World) (r : ServiceReminder.t) :
  job_frame any_record w w' -> In r (service_reminders w) ->
  exists r', In r' (service_reminders w')
             /\ marked_or_same (clock w) r r'.
Proof.
  intros (_ & _ & _ & _ & _ & _ & old & new & Hr & Hold & _) Hin.
  destruct (Forall2_In_l _ _ _ _ Hold Hin) as (r' & Hr' & Hrel).
  exists r'. split; [| exact Hrel].
  rewrite Hr. apply in_or_app. left. exact Hr'.
Qed.

Lemma has_recent_persists (w w' : World) (car_id : Z) :
  job_frame any_record w w' -> has_recent car_id w -> has_recent car_id w'.
Proof.
  intros Hframe (r & Hr & Hrecent).
  destruct (record_persists w w' r Hframe Hr) as (r' & Hr' & Hrel).
  destruct Hframe as (_ & _ & _ & Hclock & _).
  exists r'. split; [exact Hr' |]. rewrite Hclock.
  destruct Hrel as [-> | ->]; [exact Hrecent |].
  unfold recently_sent in *. cbn.
  apply andb_prop in Hrecent as [Hrecent _].
  apply andb_prop in Hrecent as [Hcar _]. rewrite Hcar. cbn.
  apply Z.leb_le, thirty_days_positive.
Qed.

Lemma not_due_persists (w w' : World) (car_id : Z) :
  job_frame any_record w w' ->
  not_due settings car_id w -> not_due settings car_id w'.
Proof.
  intros (Hc & Hwo & _) (p & d & H). exists p, d.
  rewrite (needs_reads_fleet settings car_id w w' Hc Hwo). exact H.
Qed.

Lemma settled_persists (w w' : World) (shop_id : Z) :
  job_frame any_record w w' ->
  settled settings shop_id w -> settled settings shop_id w'.
Proof.
  intros Hframe Hsettled car Hcar.
  assert (Hcar' : In car (swept_cars shop_id w)).
  { unfold swept_cars in *. destruct Hframe as (Hc & _).
    rewrite Hc in Hcar. exact Hcar. }
  destruct (Hsettled car Hcar') as [H | H].
  - left. eapply has_recent_persists; eassumption.
  - right. eapply not_due_persists; eassumption.
Qed.

Lemma for_each_fixpoint {A B} (xs : list A) (body : A -> B -> M B) (acc : B)
      (w : World) :
  (forall x, In x xs -> body x acc w = (Ok acc, w)) ->
  for_each xs body acc w = (Ok acc, w).
Proof.
  induction xs as [| x xs IH]; intros H; cbn [for_each]; [reflexivity |].
  unfold bind. rewrite (H x (or_introl eq_refl)).
  apply IH. intros y Hy. apply H. right. exact Hy.
Qed.

(** A sweep of a settled shop returns nothing and changes nothing. *)
Lemma settled_sweep (shop_id : Z) (w : World) :
  settled settings shop_id w ->
  check_all_cars_for_reminders settings shop_id w = (Ok [], w).
Proof.
  intros Hsettled. unfold check_all_cars_for_reminders, bind, query.
  apply for_each_fixpoint. intros car Hcar.
  rewrite reminder_loop_body_unfold.
  destruct (Hsettled car Hcar) as [(r & Hr & Hrecent) | (p & d & Hneeds)].
  - destruct (find_In_some _ _ _ Hr Hrecent) as [y ->]. reflexivity.
  - destruct (find (recently_sent _ _) _); [reflexivity |].
    rewrite Hneeds. reflexivity.
Qed.

Lemma settled_sweep_shop (shop : Shop.t) (w : World) :
  settled settings (Shop.id shop) w ->
  sweep_shop settings gateway shop w = (Ok tt, w).
Proof.
  intros Hsettled. unfold sweep_shop, bind.
  rewrite (settled_sweep _ _ Hsettled). reflexivity.
Qed.

Lemma frame_of_loop (xs : list Car.t) (acc : list ReminderItem) (w : World) :
  job_frame any_record w
            (snd (for_each xs (reminder_loop_body settings) acc w)).
Proof.
  apply (for_each_invariant (job_frame any_record w));
    [| apply job_frame_refl].
  intros x acc0 wc Hwc.
  eapply (job_frame_trans _ any_record_marked); [exact Hwc |].
  apply job_frame_body. intros r _. exact I.
Qed.

Lemma frame_of_sends (shop : Shop.t) (items : list ReminderItem) (w : World) :
  job_frame any_record w
            (snd (for_each items
                           (fun item _ =>
                              send_reminder settings gateway shop item)
                           tt w)).
Proof.
  apply (for_each_invariant (job_frame any_record w));
    [| apply job_frame_refl].
  intros x [] wc Hwc.
  eapply (job_frame_trans _ any_record_marked); [exact Hwc |].
  apply job_frame_send, any_record_marked.
Qed.

(** After the loop over the vehicles, each of them is suppressed, not due,
    or in the returned list. *)
Lemma loop_cases (xs : list Car.t) :
  forall (acc r : list ReminderItem) (w w' : World),
    for_each xs (reminder_loop_body settings) acc w = (Ok r, w') ->
    forall x, In x xs ->
      has_recent (Car.id x) w' \/ not_due settings (Car.id x) w'
      \/ exists it, In it r /\ item_car it = x.
Proof.
  induction xs as [| y xs IH]; intros acc r w w' Hrun x Hx;
    [contradiction |].
  cbn [for_each] in Hrun. unfold bind in Hrun.
  destruct (reminder_loop_body settings y acc w) as [[acc1 | e] w1] eqn:Hb;
    [| discriminate].
  destruct Hx as [-> | Hx]; [| eapply IH; eassumption].
  pose proof (frame_of_loop xs acc1 w1) as Hrest.
  rewrite Hrun in Hrest. cbn [snd] in Hrest.
  pose proof (job_frame_body any_record settings x acc w
                (fun _ _ => I)) as Hstep.
  rewrite Hb in Hstep. cbn [snd] in Hstep.
  pose proof (job_frame_trans _ any_record_marked _ _ _ Hstep Hrest)
    as Hframe.
  rewrite reminder_loop_body_unfold in Hb.
  destruct (find (recently_sent _ _) _) as [rec |] eqn:Hrecent.
  { left. apply (has_recent_persists w w' _ Hframe).
    apply find_some in Hrecent as [Hin Hr]. exists rec. split; assumption. }
  destruct (fst (needs_service_reminder settings (Car.id x) w))
    as [[[[|] p] d] | e] eqn:Hneeds; try discriminate.
  2: { right. left. apply (not_due_persists w w' _ Hframe).
       exists p, d. exact Hneeds. }
  right. right.
  destruct (reminder_loop_cars _ _ _ _ _ _ Hrun) as (l & -> & _).
  destruct (find (unsent_for _) _).
  - injection Hb as <- _. eexists. split.
    + apply in_or_app. left. apply in_or_app. right. left. reflexivity.
    + reflexivity.
  - destruct p as [p |]; [| discriminate].
    destruct d as [d |]; [| discriminate].
    destruct (storable p && storable d); [| discriminate].
    injection Hb as <- _. eexists. split.
    + apply in_or_app. left. apply in_or_app. right. left. reflexivity.
    + reflexivity.
Qed.

Hypothesis configured : client_configured settings = true.
Hypothesis accepts : delivering gateway.

(** With a gateway that accepts every message, a turn for one vehicle that
    ends normally has marked the record the item names. *)
Lemma send_reminder_delivered
      (shop : Shop.t) (item : ReminderItem) (w w' : World) :
  send_reminder settings gateway shop item w = (Ok tt, w') ->
  exists wl,
    service_reminders wl = service_reminders w
    /\ clock wl = clock w
    /\ w' = snd (mark_reminder_sent (item_reminder_id item) wl).
Proof.
  unfold send_reminder.
  destruct (item_customer item) as [customer |]; [| discriminate].
  unfold send_service_reminder_sms, bind. rewrite send_sms_unfold.
  rewrite configured. cbn [negb].
  match goal with
  | |- context [gateway ?a ?b ?c ?d] =>
      destruct (accepts a b c d) as [sid ->]
  end.
  match goal with
  | |- mark_reminder_sent ?i ?wl = _ -> _ =>
      intros H; exists wl; rewrite H
  end.
  repeat split.
Qed.

(** After the sends, every vehicle of the list is recently notified. *)
Lemma sends_make_recent (shop : Shop.t) (items : list ReminderItem) :
  forall w w',
    unique_reminder_ids w ->
    (forall it, In it items ->
       exists r, In r (service_reminders w)
                 /\ ServiceReminder.id r = item_reminder_id it
                 /\ ServiceReminder.car_id r = Car.id (item_car it)) ->
    for_each items (fun item _ => send_reminder settings gateway shop item)
             tt w = (Ok tt, w') ->
    forall it, In it items -> has_recent (Car.id (item_car it)) w'.
Proof.
  induction items as [| item items IH]; intros w w' Hunique Hrecords Hrun it Hit;
    [contradiction |].
  cbn [for_each] in Hrun. unfold bind in Hrun.
  destruct (send_reminder settings gateway shop item w) as [[[] | e] w1]
    eqn:Hsend; [| discriminate].
  pose proof (job_frame_send any_record any_record_marked settings gateway
                             shop item w) as Hframe1.
  rewrite Hsend in Hframe1. cbn [snd] in Hframe1.
  pose proof (frame_of_sends shop items w1) as Hrest.
  rewrite Hrun in Hrest. cbn [snd] in Hrest.
  destruct Hit as [-> | Hit].
  - apply (has_recent_persists w1 w' _ Hrest).
    destruct (send_reminder_delivered _ _ _ _ Hsend)
      as (wl & Hsame & Hclock & ->).
    destruct (Hrecords it (or_introl eq_refl)) as (r & Hr & Hid & Hcar).
    assert (Hfind : find (fun x => ServiceReminder.id x
                                   =? ServiceReminder.id r)
                         (service_reminders wl) = Some r).
    { apply find_unique_reminder.
      - unfold unique_reminder_ids. rewrite Hsame. exact Hunique.
      - rewrite Hsame. exact Hr. }
    pose proof (mark_makes_recent wl r Hfind) as Hsent. rewrite Hid in Hsent.
    exists (set_sent (clock wl) r). split; [exact Hsent |].
    rewrite mark_reminder_sent_clock. unfold recently_sent. cbn. rewrite Hcar, Z.eqb_refl. cbn.
    apply Z.leb_le, thirty_days_positive.
  - eapply (IH w1 w'); [| | exact Hrun | exact Hit].
    + pose proof (send_reminder_keeps_unique_ids settings gateway shop item w
                                                 Hunique) as H.
      rewrite Hsend in H. exact H.
    + intros it' Hit'. destruct (Hrecords it' (or_intror Hit'))
        as (r & Hr & Hid & Hcar).
      destruct (record_persists w w1 r Hframe1 Hr) as (r' & Hr' & Hrel).
      exists r'. split; [exact Hr' |].
      destruct Hrel as [-> | ->]; split; assumption.
Qed.

(** A sweep of a shop that ends normally leaves the shop settled. *)
Lemma sweep_shop_settles (shop : Shop.t) (w w' : World) :
  unique_reminder_ids w ->
  sweep_shop settings gateway shop w = (Ok tt, w') ->
  settled settings (Shop.id shop) w'.
Proof.
  intros Hunique Hrun. unfold sweep_shop, bind in Hrun.
  destruct (check_all_cars_for_reminders settings (Shop.id shop) w)
    as [[items | e] wa] eqn:Hsweep; [| discriminate].
  pose proof (frame_of_sends shop items wa) as Hsends.
  rewrite Hrun in Hsends. cbn [snd] in Hsends.
  assert (Hframe : job_frame any_record w wa).
  { pose proof (frame_of_loop (swept_cars (Shop.id shop) w) [] w) as H.
    unfold check_all_cars_for_reminders, bind, query in Hsweep.
    unfold swept_cars in H. rewrite Hsweep in H. exact H. }
  assert (Hunique_a : unique_reminder_ids wa).
  { pose proof (sweep_keeps_unique_ids settings (Shop.id shop) w Hunique)
      as H. rewrite Hsweep in H. exact H. }
  intros car Hcar.
  assert (Hcar0 : In car (swept_cars (Shop.id shop) w)).
  { unfold swept_cars in *.
    destruct Hframe as (Hc & _). destruct Hsends as (Hc' & _).
    rewrite Hc', Hc in Hcar. exact Hcar. }
  pose proof Hsweep as Hloop.
  unfold check_all_cars_for_reminders, bind, query in Hloop.
  destruct (loop_cases _ _ _ _ _ Hloop car Hcar0)
    as [H | [H | (it & Hit & Hitcar)]].
  - left. eapply has_recent_persists; eassumption.
  - right. eapply not_due_persists; eassumption.
  - left. rewrite <- Hitcar.
    eapply (sends_make_recent shop items wa w' Hunique_a);
      [| exact Hrun | exact Hit].
    apply (sweep_items_record _ _ _ _ _ Hsweep).
Qed.

(** A run over the shops that ends normally leaves every one of them
    settled. *)
Lemma run_settles (shops : list Shop.t) :
  forall w w',
    unique_reminder_ids w ->
    for_each shops (fun shop _ => sweep_shop settings gateway shop) tt w
    = (Ok tt, w') ->
    job_frame any_record w w'
    /\ forall shop, In shop shops -> settled settings (Shop.id shop) w'.
Proof.
  induction shops as [| s shops IH]; intros w w' Hunique Hrun;
    cbn [for_each] in Hrun.
  - unfold ret in Hrun. injection Hrun as <-.
    split; [apply job_frame_refl | intros shop []].
  - unfold bind in Hrun.
    destruct (sweep_shop settings gateway s w) as [[[] | e] w1] eqn:Hs;
      [| discriminate].
    assert (Hframe1 : job_frame any_record w w1).
    { pose proof (job_frame_sweep_shop any_record any_record_marked settings
                                       gateway s w w (fun _ _ _ _ => I)
                                       (job_frame_refl _ w)) as H.
      rewrite Hs in H. exact H. }
    assert (Hunique1 : unique_reminder_ids w1).
    { pose proof (sweep_shop_keeps_unique_ids settings gateway s w Hunique)
        as H. rewrite Hs in H. exact H. }
    destruct (IH w1 w' Hunique1 Hrun) as [Hframe Hsettled].
    split; [eapply (job_frame_trans _ any_record_marked); eassumption |].
    intros shop [Heq | Hshop]; [| exact (Hsettled shop Hshop)].
    rewrite <- Heq. apply (settled_persists w1 w' _ Hframe).
    exact (sweep_shop_settles s w w1 Hunique Hs).
Qed.

Lemma eligible_shops_ids (w w' : World) (shop' : Shop.t) :
  map shop_profile (shops w') = map shop_profile (shops w) ->
  In shop' (eligible_shops w') ->
  exists shop, In shop (eligible_shops w) /\ Shop.id shop = Shop.id shop'.
Proof.
  intros Hmap Hin. unfold eligible_shops in *.
  apply filter_In in Hin as [Hin Hf].
  assert (Hp : In (shop_profile shop') (map shop_profile (shops w)))
    by (rewrite <- Hmap; apply in_map, Hin).
  apply in_map_iff in Hp as (shop & Hprofile & Hshop).
  unfold shop_profile in Hprofile. injection Hprofile as Hi _ _ He Ha.
  exists shop. split; [| exact Hi].
  apply filter_In. split; [exact Hshop |]. rewrite Ha, He. exact Hf.
Qed.

(** X14. With a configured client, a gateway that accepts every message
    and unique record ids: when a run of the job has ended without an
    exception, running the job again at once changes nothing at all.  No
    SMS is sent, no record is created or marked: every vehicle the job
    looks at is now either suppressed or not due. *)
Theorem job_run_twice_changes_nothing (w w1 : World) :
  unique_reminder_ids w ->
  for_each (eligible_shops w)
           (fun shop _ => sweep_shop settings gateway shop) tt w
  = (Ok tt, w1) ->
  check_service_reminders settings gateway w = (Ok tt, w1)
  /\ check_service_reminders settings gateway w1 = (Ok tt, w1).
Proof.
  intros Hunique Hrun. split.
  - unfold check_service_reminders, try_except, bind, query.
    fold (eligible_shops w). rewrite Hrun. reflexivity.
  - destruct (run_settles _ _ _ Hunique Hrun) as [Hframe Hsettled].
    unfold check_service_reminders, try_except, bind, query.
    fold (eligible_shops w1).
    rewrite for_each_fixpoint; [reflexivity |].
    intros shop' Hshop'. apply settled_sweep_shop.
    destruct Hframe as (_ & _ & _ & _ & _ & Hprofiles & _).
    destruct (eligible_shops_ids w w1 shop' Hprofiles Hshop')
      as (shop & Hshop & Hid).
    rewrite <- Hid. exact (Hsettled shop Hshop).
Qed.

End TwiceFacts.


Lemma job_run_twice_changes_nothing_witness :
  exists w1,
    List.length (sms_logs w1) = 3%nat
    /\ check_service_reminders ex_sms_settings ex_gateway_up ex_two_shops
       = (Ok tt, w1)
    /\ check_service_reminders ex_sms_settings ex_gateway_up w1 = (Ok tt, w1).
Proof.
  exists (snd (for_each (eligible_shops ex_two_shops)
                        (fun shop _ =>
                           sweep_shop ex_sms_settings ex_gateway_up shop)
                        tt ex_two_shops)).
  split; [vm_compute; reflexivity |].
  apply (job_run_twice_changes_nothing ex_sms_settings ex_gateway_up).
  - reflexivity.
  - intros w body from_ to. exists "SM01"%string. reflexivity.
  - constructor.
  - vm_compute. reflexivity.
Defined.


(** * The job without a client *)

Section UnconfiguredFacts.

Variable settings : Settings.
Variable gateway : World -> string -> option string -> string -> TwilioOutcome.
Hypothesis unconfigured : client_configured settings = false.

Lemma nothing_marked_refl (w : World) : nothing_marked w w.
Proof.
  split; exists []; rewrite app_nil_r; split; (reflexivity || constructor).
Qed.

Lemma nothing_marked_body
      (w wc : World) (car : Car.t) (acc : list ReminderItem) :
  nothing_marked w wc ->
  nothing_marked w (snd (reminder_loop_body settings car acc wc)).
Proof.
  intros Hwc.
  destruct (reminder_loop_body_effect settings car acc wc)
    as [-> | (r & -> & Hr & _)]; [exact Hwc |].
  destruct Hwc as [(new & Hnew & Hunsent) Hlogs].
  split; [| exact Hlogs].
  exists (new ++ [r]). cbn [service_reminders set_service_reminders].
  rewrite Hnew, <- app_assoc. split; [reflexivity |].
  apply Forall_app. split; [exact Hunsent |].
  constructor; [| constructor].
  unfold unsent_for in Hr. apply andb_prop in Hr as [_ Hr].
  destruct (ServiceReminder.reminder_sent r); [discriminate | reflexivity].
Qed.

Lemma nothing_marked_send
      (w wc : World) (shop : Shop.t) (item : ReminderItem) :
  nothing_marked w wc ->
  nothing_marked w (snd (send_reminder settings gateway shop item wc)).
Proof.
  intros Hwc. unfold send_reminder.
  destruct (item_customer item) as [customer |]; [| exact Hwc].
  unfold send_service_reminder_sms, bind. rewrite send_sms_unfold.
  rewrite unconfigured. cbn [negb ret snd].
  destruct Hwc as [Hrecords (logs & Hlogs & Hrows)].
  split; [exact Hrecords |].
  eexists. cbn [logged sms_logs set_shops set_sms_logs].
  rewrite Hlogs, <- app_assoc. split; [reflexivity |].
  apply Forall_app. split; [exact Hrows |].
  constructor; [| constructor]. repeat split.
Qed.

Lemma nothing_marked_sweep_shop (w wc : World) (shop : Shop.t) :
  nothing_marked w wc ->
  nothing_marked w (snd (sweep_shop settings gateway shop wc)).
Proof.
  intros Hwc. unfold sweep_shop, bind.
  assert (H1 : nothing_marked
                 w (snd (check_all_cars_for_reminders settings (Shop.id shop)
                                                      wc))).
  { unfold check_all_cars_for_reminders, bind, query.
    apply (for_each_invariant (nothing_marked w)); [| exact Hwc].
    intros x acc w1. apply nothing_marked_body. }
  destruct (check_all_cars_for_reminders settings (Shop.id shop) wc)
    as [[items | e] w1]; cbn [snd] in H1; [| exact H1].
  apply (for_each_invariant (nothing_marked w)); [| exact H1].
  intros item [] w2. apply nothing_marked_send.
Qed.

(** X15. Without a client (the configuration the settings default to) a
    run of the job marks nothing: every stored record is left exactly as
    it was, every record it adds is unsent, and every log row it adds is a
    failed "service_reminder" row with no gateway identifier and the
    error "SMS service not configured".  The gateway plays no part. *)
Theorem unconfigured_job_marks_nothing (w : World) :
  nothing_marked w (snd (check_service_reminders settings gateway w)).
Proof.
  unfold check_service_reminders, try_except, bind, query.
  pose proof (for_each_invariant
                (nothing_marked w)
                (fun shop (_ : unit) => sweep_shop settings gateway shop)
                (fun shop _ wc => nothing_marked_sweep_shop w wc shop)
                (filter (fun s => Shop.is_active s && Shop.sms_enabled s)
                        (shops w))
                tt w (nothing_marked_refl w)) as H.
  destruct (for_each _ _ tt w) as [[[] | e] w1]; exact H.
Qed.

End UnconfiguredFacts.

Lemma unconfigured_job_marks_nothing_witness :
  nothing_marked
    ex_two_shops
    (snd (check_service_reminders default_settings ex_gateway_up
                                  ex_two_shops))
  /\ List.length
       (sms_logs (snd (check_service_reminders default_settings ex_gateway_up
                                               ex_two_shops))) = 3%nat.
Proof.
  split; [| vm_compute; reflexivity].
  apply (unconfigured_job_marks_nothing default_settings ex_gateway_up).
  reflexivity.
Defined.


(** * What a sweep leaves out *)

Lemma nothing_marked_sweep (settings : Settings) (shop_id : Z) (w : World) :
  nothing_marked w (snd (check_all_cars_for_reminders settings shop_id w)).
Proof.
  unfold check_all_cars_for_reminders, bind, query.
  apply (for_each_invariant (nothing_marked w));
    [| apply nothing_marked_refl].
  intros x acc w1. apply nothing_marked_body.
Qed.

(** X16. A sweep that returns leaves no vehicle out: every vehicle of the
    shop with a positive service interval that has no record sent within
    the last 30 days and that the evaluation finds due is in the returned
    list. *)
Theorem sweep_returns_every_due_car
        (settings : Settings) (shop_id : Z) (w w' : World)
        (items : list ReminderItem) (car : Car.t)
        (predicted threshold : option Z) :
  check_all_cars_for_reminders settings shop_id w = (Ok items, w') ->
  In car (cars w) ->
  Car.shop_id car = shop_id ->
  0 < Car.service_interval_km car ->
  find (recently_sent (Car.id car) (clock w)) (service_reminders w) = None ->
  fst (needs_service_reminder settings (Car.id car) w)
  = Ok (true, predicted, threshold) ->
  exists it, In it items /\ item_car it = car.
Proof.
  intros Hrun Hin Hshop Hinterval Hnone Hneeds.
  assert (Hcar : In car (swept_cars shop_id w)).
  { unfold swept_cars. apply filter_In. split; [exact Hin |].
    apply andb_true_intro. split; [apply Z.eqb_eq, Hshop |].
    apply Z.ltb_lt, Hinterval. }
  pose proof (nothing_marked_sweep settings shop_id w) as Hmarked.
  destruct (sweep_appends settings shop_id w) as [added Hw'].
  rewrite Hrun in Hmarked, Hw'. cbn [snd] in Hmarked, Hw'.
  pose proof Hrun as Hloop.
  unfold check_all_cars_for_reminders, bind, query in Hloop.
  destruct (loop_cases settings _ _ _ _ _ Hloop car Hcar)
    as [(r & Hr & Hrecent) | [(p & d & Hnd) | Hitem]];
    [exfalso | exfalso | exact Hitem].
  - destruct Hmarked as [(new & Hnew & Hunsent) _].
    rewrite Hnew in Hr. apply in_app_or in Hr as [Hr | Hr].
    + assert (Hclock : clock w' = clock w) by (rewrite Hw'; reflexivity).
      rewrite Hclock in Hrecent.
      pose proof (find_none _ _ Hnone r Hr) as Hno.
      rewrite Hrecent in Hno. discriminate.
    + rewrite Forall_forall in Hunsent. specialize (Hunsent r Hr).
      unfold recently_sent in Hrecent.
      rewrite Hunsent, andb_false_r in Hrecent. discriminate.
  - rewrite (needs_reads_fleet settings (Car.id car) w w') in Hnd
      by (rewrite Hw'; reflexivity).
    rewrite Hneeds in Hnd. discriminate.
Qed.

Lemma sweep_returns_every_due_car_witness :
  exists items w',
    check_all_cars_for_reminders default_settings 1 ex_two_shops
    = (Ok items, w')
    /\ exists it, In it items /\ item_car it = ex_fleet_car 2 1.
Proof.
  exists (match fst (check_all_cars_for_reminders default_settings 1
                                                  ex_two_shops) with
          | Ok items => items
          | Raise _ => []
          end),
         (snd (check_all_cars_for_reminders default_settings 1 ex_two_shops)).
  assert (Hrun : check_all_cars_for_reminders default_settings 1 ex_two_shops
                 = (Ok (match fst (check_all_cars_for_reminders
                                     default_settings 1 ex_two_shops) with
                        | Ok items => items
                        | Raise _ => []
                        end),
                    snd (check_all_cars_for_reminders default_settings 1
                                                      ex_two_shops)))
    by (vm_compute; reflexivity).
  split; [exact Hrun |].
  apply (sweep_returns_every_due_car
           default_settings 1 ex_two_shops _ _ (ex_fleet_car 2 1)
           (Some 101333) (Some 100000) Hrun).
  - right. left. reflexivity.
  - reflexivity.
  - reflexivity.
  - reflexivity.
  - vm_compute. reflexivity.
Defined.
